(** * Video processing platform: job lifecycle and video catalog

    A shallow embedding of the Express routes of the API server (the job
    routes of [api-server/routes/jobs.js] and the video routes, which the
    sources carry after the schemas in [api-server/middleware/validation.js])
    and of the Joi schemas of [api-server/middleware/validation.js].

    The relational store ([pool], PostgreSQL) is a record of tables, each a
    list of rows; a SQL statement is a function on that record, and a
    statement that the database refuses (primary key, foreign key, unknown
    column, wrong number of bind parameters, a parameter that the input
    function of its column's type cannot read) throws.  The dispatch queue
    ([redisClient], the Redis list [video_processing_queue]) is a list whose
    head is the most recently pushed element; a push that Redis does not
    accept throws.  A route is a computation in a small monad that threads
    the world, may send a response early ([return res.status(..).json(..)])
    and may throw into the enclosing [try { .. } catch].

    Integers that a Joi schema has validated are modelled by [Z], a number
    that reaches a route unvalidated by [Number]; timestamps are integers.
    A column of type UUID holds a uuid, written here in the canonical text
    PostgreSQL prints; a request names a uuid by a text that PostgreSQL
    reads.  The store is taken to be reachable: a statement throws only when
    the database refuses it. *)

From Stdlib Require Import ZArith QArith Qround Lia Lqa.
From Stdlib Require Import List String Ascii Bool Sorted Permutation.
Import ListNotations.

Open Scope string_scope.
Open Scope list_scope.
Open Scope Z_scope.

(** ** JavaScript strict equality on strings *)

Notation "a === b" := (String.eqb a b) (at level 70, no associativity).
Notation "a !== b" := (negb (String.eqb a b)) (at level 70, no associativity).

(** [Array.prototype.includes] on an array of strings. *)
Definition includes (xs : list string) (x : string) : bool :=
  existsb (fun y => y === x) xs.

(** [null !== s] is true, [t !== s] compares the strings. *)
Definition nullable_neq (a : option string) (b : string) : bool :=
  match a with
  | None => true
  | Some a' => a' !== b
  end.

(** A value of type UUID, as the canonical text PostgreSQL prints for it
    (and as [uuidv4()] generates it).  A text that arrives in a request is
    not yet one: PostgreSQL reads it with the input function of the type,
    which the routes take as [uuid_in] below. *)
Definition uuid := string.

(** [req.params]: the named segments of the route path, [:id] or
    [:userId], with their values. *)
Definition Params : Type := list (string * string).

Fixpoint param (key : string) (params : Params) : option string :=
  match params with
  | [] => None
  | (k, v) :: rest => if k === key then Some v else param key rest
  end.

Definition timestamp := Z.
(** A JSON object that the coordinator never inspects ([settings],
    [result_data]), kept in its serialised form. *)
Definition json := string.

(** ** JavaScript numbers

    A number that no schema has validated: a finite double (each of which is
    a rational), an infinity, or NaN. *)
Inductive Number :=
| Finite (q : Q)
| Infinity (negative : bool)
| NaN.

(** [x <= y] on numbers other than NaN. *)
Definition Number_leb (x y : Number) : bool :=
  match x, y with
  | Infinity true, _ => true
  | _, Infinity false => true
  | Finite a, Finite b => Qle_bool a b
  | _, _ => false
  end.

(** [Math.min(x, y)] and [Math.max(x, y)]: NaN when an argument is NaN. *)
Definition Math_min (x y : Number) : Number :=
  match x, y with
  | NaN, _ | _, NaN => NaN
  | _, _ => if Number_leb x y then x else y
  end.

Definition Math_max (x y : Number) : Number :=
  match x, y with
  | NaN, _ | _, NaN => NaN
  | _, _ => if Number_leb x y then y else x
  end.

(** A number bound to a placeholder compared with or stored in an INTEGER
    column: node-postgres sends its decimal text, and PostgreSQL reads that
    text as an integer when it is a whole number of 32 bits; the text of a
    fraction, of an infinity or of NaN is refused. *)
Definition integer_in (x : Number) : option Z :=
  match x with
  | Finite q =>
      let z := Qfloor q in
      if Qeq_bool q (inject_Z z)
         && (-2147483648 <=? z) && (z <=? 2147483647)
      then Some z
      else None
  | _ => None
  end.

(** ** Tables *)

Module User.
Record row := mk
  { id : uuid; email : string; name : string; role : string }.
End User.

Module Video.
Record row := mk
  { id : uuid;
    user_id : uuid;
    title : string;
    description : option string;
    file_path : string;
    file_size : Z;
    original_filename : string;
    privacy : string;
    status : string;
    created_at : timestamp;
    updated_at : timestamp }.

Definition set_status (s : string) (now : timestamp) (v : row) : row :=
  mk (id v) (user_id v) (title v) (description v) (file_path v)
     (file_size v) (original_filename v) (privacy v) s (created_at v) now.
End Video.

Module Job.
Record row := mk
  { id : uuid;
    video_id : uuid;
    job_type : string;
    status : string;
    priority : Z;
    progress : Z;
    settings : option json;
    error_message : option string;
    result_data : option json;
    created_at : timestamp;
    updated_at : timestamp;
    completed_at : option timestamp }.
End Job.

(** The descriptor pushed on the dispatch queue.  The job-creation route
    sends [settings] and no [file_path]; the upload route sends [file_path]
    and no [settings]. *)
Record Descriptor := mkDescriptor
  { d_job_id : uuid;
    d_video_id : uuid;
    d_job_type : string;
    d_priority : Z;
    d_settings : option json;
    d_file_path : option string;
    d_created_at : timestamp }.

Record Db := mkDb
  { users : list User.row;
    videos : list Video.row;
    video_tags : list (uuid * string);
    processing_jobs : list Job.row }.

Record World := mkWorld
  { pool : Db;
    video_processing_queue : list Descriptor }.

(** ** Requests and responses *)

(** [req.user] as left by the authentication middleware. *)
Record AuthUser := mkAuthUser { au_id : uuid; au_role : string }.

Record Pagination := mkPagination
  { current_page : Z;
    total_pages : Z;
    total_count : Z;
    per_page : Z;
    has_next : bool;
    has_prev : bool }.

(** A row of the listing query: [v.*, u.name as user_name, u.email as
    user_email] over [videos v LEFT JOIN users u]. *)
Record VideoListing := mkVideoListing
  { l_video : Video.row;
    l_user_name : option string;
    l_user_email : option string }.

Inductive Body :=
| JobBody (message : string) (job : option Job.row)
| VideoBody (message : string) (video : option Video.row)
| UploadBody (message : string) (video : option Video.row)
    (processing_job_id : uuid)
| VideosBody (rows : list VideoListing) (pagination : Pagination)
| MessageBody (message : string).

(** [Json st b] is [res.status(st).json(b)] on a success path, [Error st c]
    is [res.status(st).json({ error: .., code: c })]. *)
Inductive Response :=
| Json (http : Z) (body : Body)
| Error (http : Z) (code : string).

(** A success response; the error taxonomy of the specification shows in
    the HTTP status of an [Error]: 404 is NotFound, 403 Forbidden, 400 with
    [VALIDATION_ERROR] ValidationError and with any other code InvalidState. *)
Definition is_success (r : Response) : bool :=
  match r with
  | Json _ _ => true
  | Error _ _ => false
  end.

(** ** The handler monad *)

Inductive Outcome (A : Type) :=
| Next (a : A)
| Sent (r : Response)
| Thrown.
Arguments Next {A} a.
Arguments Sent {A} r.
Arguments Thrown {A}.

Definition Handler (A : Type) : Type := World -> World * Outcome A.

Definition ret {A} (a : A) : Handler A := fun w => (w, Next a).

Definition bind {A B} (m : Handler A) (k : A -> Handler B) : Handler B :=
  fun w =>
    match m w with
    | (w', Next a) => k a w'
    | (w', Sent r) => (w', Sent r)
    | (w', Thrown) => (w', Thrown)
    end.

(** [return res.status(..).json(..)] *)
Definition send {A} (r : Response) : Handler A := fun w => (w, Sent r).

Declare Scope handler_scope.
Delimit Scope handler_scope with handler.
Notation "x <- m ;; k" := (bind m (fun x => k))
  (at level 61, m at next level, right associativity) : handler_scope.
Notation "m ;;; k" := (bind m (fun _ => k))
  (at level 61, right associativity) : handler_scope.
Open Scope handler_scope.

(** [if (c) { return res... }] *)
Definition when_send (c : bool) (r : Response) : Handler unit :=
  if c then send r else ret tt.

(** [await pool.query(..)]: a statement either yields a result and a new
    database or is refused, in which case the promise rejects. *)
Definition query {A} (stmt : Db -> option (A * Db)) : Handler A :=
  fun w =>
    match stmt (pool w) with
    | Some (a, db') => (mkWorld db' (video_processing_queue w), Next a)
    | None => (w, Thrown)
    end.

(** [await redisClient.lPush('video_processing_queue', JSON.stringify(d))]:
    the element is pushed, or the promise rejects and the route is in its
    [catch].  [config/database.js] connects the client in the background
    ([redisClient.connect().catch(console.error)]); whether Redis accepts
    the command is decided outside the sources. *)
Definition lPush (accepted : bool) (d : Descriptor) : Handler unit :=
  fun w =>
    if accepted
    then (mkWorld (pool w) (d :: video_processing_queue w), Next tt)
    else (w, Thrown).

(** [try { body } catch (error) { res.status(500).json({ code }) }] *)
Definition try_catch (body : Handler Response) (code : string)
  : Handler Response :=
  fun w =>
    match body w with
    | (w', Thrown) => (w', Sent (Error 500 code))
    | r => r
    end.

(** Running a middleware chain to the response it produces.  An exception
    that escapes every [try] reaches the error middleware of [server.js]. *)
Definition respond (h : Handler Response) (w : World) : Response * World :=
  match h w with
  | (w', Next r) => (r, w')
  | (w', Sent r) => (r, w')
  | (w', Thrown) => (Error 500 "INTERNAL_ERROR", w')
  end.

(** ** Middleware *)

(** [validate(schema, property)]: a schema is a function that returns the
    validated value (defaults filled in, unknown keys stripped) or fails. *)
Definition validate {A B} (schema : A -> option B) (x : A) : Handler B :=
  match schema x with
  | Some value => ret value
  | None => send (Error 400 "VALIDATION_ERROR")
  end.

(** Modelled from the spec: [middleware/auth.js] is not part of the sources.
    The AuthGateway resolves the bearer credential to [{subject_id, role}]
    or rejects the request as [Unauthorized]; the request carries the
    outcome of that resolution. *)
Definition authenticateToken (cred : option AuthUser) : Handler AuthUser :=
  match cred with
  | Some u => ret u
  | None => send (Error 401 "UNAUTHORIZED")
  end.

(** Modelled from the spec: [optionalAuth] lets an unauthenticated request
    through with [req.user] undefined. *)
Definition optionalAuth (cred : option AuthUser) : Handler (option AuthUser) :=
  ret cred.

(** ** SQL statements of [routes/jobs.js]

    Schema as documented in the README: [id] is the primary key of every
    table and of type UUID, [processing_jobs.video_id REFERENCES videos(id)],
    [progress] is an INTEGER, and a job row inserted without them gets
    [progress = 0], [updated_at = NOW()] and null [error_message],
    [result_data], [completed_at]. *)

Definition video_exists (vid : uuid) (db : Db) : bool :=
  existsb (fun v => Video.id v === vid) (videos db).

Definition job_exists (jid : uuid) (db : Db) : bool :=
  existsb (fun j => Job.id j === jid) (processing_jobs db).

Section JobStatements.

(** PostgreSQL's input function of the type UUID, decided outside the
    sources: the uuid that a text denotes, if it denotes one.  Different
    spellings of a uuid (upper case, braces) denote the same value. *)
Variable uuid_in : string -> option uuid.

(** A statement with a placeholder that is compared with, or stored in, a
    UUID column, for the text bound to it: the statement runs on the uuid
    the text denotes and is refused when the text denotes none. *)
Definition uuid_param {A} (text : string) (stmt : uuid -> Db -> option (A * Db))
    (db : Db) : option (A * Db) :=
  match uuid_in text with
  | Some value => stmt value db
  | None => None
  end.

(** [SELECT .. FROM videos WHERE id = $1] *)
Definition SELECT_videos_by_id (id : string)
  : Db -> option (list Video.row * Db) :=
  uuid_param id
    (fun vid db => Some (filter (fun v => Video.id v === vid) (videos db), db)).

(** [SELECT * FROM processing_jobs WHERE id = $1] *)
Definition SELECT_jobs_by_id (id : string)
  : Db -> option (list Job.row * Db) :=
  uuid_param id
    (fun jid db =>
       Some (filter (fun j => Job.id j === jid) (processing_jobs db), db)).

(** [SELECT pj.*, v.user_id FROM processing_jobs pj
     LEFT JOIN videos v ON pj.video_id = v.id WHERE pj.id = $1] *)
Definition SELECT_jobs_with_owner (id : string)
  : Db -> option (list (Job.row * option uuid) * Db) :=
  uuid_param id
    (fun jid db =>
       Some (flat_map
               (fun j =>
                  match filter (fun v => Video.id v === Job.video_id j)
                               (videos db) with
                  | [] => [(j, None)]
                  | vs => map (fun v => (j, Some (Video.user_id v))) vs
                  end)
               (filter (fun j => Job.id j === jid) (processing_jobs db)),
             db)).

(** [INSERT INTO processing_jobs (..) VALUES (..) RETURNING *], for the row
    its parameters denote. *)
Definition INSERT_processing_job (j : Job.row) (db : Db)
  : option (list Job.row * Db) :=
  if job_exists (Job.id j) db then None
  else if negb (video_exists (Job.video_id j) db) then None
  else Some ([j], mkDb (users db) (videos db) (video_tags db)
                       (processing_jobs db ++ [j])).

(** One entry of the [SET] list of an [UPDATE processing_jobs], with the
    value bound to its placeholder: a number for [progress], text or null
    for [error_message], JSON text for [result_data]. *)
Inductive JobAssignment :=
| status_eq (s : string)
| updated_at_NOW
| progress_eq (p : Number)
| error_message_eq (m : option string)
| result_data_eq (d : json)
| completed_at_NOW.

(** Whether the column's input function reads the bound value. *)
Definition readable (a : JobAssignment) : bool :=
  match a with
  | progress_eq p =>
      match integer_in p with
      | Some _ => true
      | None => false
      end
  | _ => true
  end.

Definition assign_job (NOW : timestamp) (j : Job.row) (a : JobAssignment)
  : Job.row :=
  let '(Job.mk i v t s pr pg se em rd ca ua co) := j in
  match a with
  | status_eq s' => Job.mk i v t s' pr pg se em rd ca ua co
  | updated_at_NOW => Job.mk i v t s pr pg se em rd ca NOW co
  | progress_eq p =>
      match integer_in p with
      | Some z => Job.mk i v t s pr z se em rd ca ua co
      | None => j
      end
  | error_message_eq m => Job.mk i v t s pr pg se m rd ca ua co
  | result_data_eq d => Job.mk i v t s pr pg se em (Some d) ca ua co
  | completed_at_NOW => Job.mk i v t s pr pg se em rd ca ua (Some NOW)
  end.

Definition SET_job (NOW : timestamp) (fields : list JobAssignment) (j : Job.row)
  : Job.row :=
  fold_left (assign_job NOW) fields j.

(** [UPDATE processing_jobs SET <fields> WHERE id = $1 RETURNING *]; the
    parameters are read before any row is touched. *)
Definition UPDATE_processing_jobs (NOW : timestamp)
    (fields : list JobAssignment) (id : string)
  : Db -> option (list Job.row * Db) :=
  uuid_param id
    (fun jid db =>
       if forallb readable fields
       then
         let jobs' :=
           map (fun j => if Job.id j === jid then SET_job NOW fields j else j)
               (processing_jobs db) in
         Some (filter (fun j => Job.id j === jid) jobs',
               mkDb (users db) (videos db) (video_tags db) jobs')
       else None).

(** [UPDATE videos SET status = $1, updated_at = NOW() WHERE id = $2], where
    [$2] is [job.video_id] as the row read before carries it. *)
Definition UPDATE_videos_status (NOW : timestamp) (s : string) (vid : uuid)
    (db : Db) : option (unit * Db) :=
  Some (tt, mkDb (users db)
                 (map (fun v => if Video.id v === vid
                                then Video.set_status s NOW v else v)
                      (videos db))
                 (video_tags db) (processing_jobs db)).

End JobStatements.

(** ** Request bodies and their schemas *)

(** The two clocks a route reads: [NOW()] in the database and [new Date()]
    in the server process. *)
Record Clock := mkClock { NOW : timestamp; Date_now : timestamp }.

(** Body of [POST /api/jobs] before validation. *)
Record RawJobBody := mkRawJobBody
  { raw_video_id : option string;
    raw_job_type : option string;
    raw_priority : option Z;
    raw_settings : option json }.

(** [req.body] after [validate(schemas.processingJob)]. *)
Record JobBodyIn := mkJobBodyIn
  { in_video_id : uuid;
    in_job_type : string;
    in_priority : Z;
    in_settings : option json }.

(** Body of [PUT /api/jobs/:id/status].  The route runs no body schema, so
    a field that is present ([!== undefined]) carries any JSON value; each
    field is kept as what the route reads of it:
    - [status], the string when it is one: a value that is no string is in
      no list of strings, like an absent one;
    - [progress], its value as a number, which is what [Math.min] takes of
      it: a number is itself, [null] is 0, [true] is 1, a string that is no
      numeral is NaN;
    - [error_message], the text node-postgres sends for it, and [None] for
      [null];
    - [result_data], its JSON text ([JSON.stringify]). *)
Record StatusBody := mkStatusBody
  { sb_status : option string;
    sb_progress : option Number;
    sb_error_message : option (option string);
    sb_result_data : option json }.

Definition job_types : list string :=
  ["encoding"; "thumbnail"; "metadata_extraction"; "quality_analysis";
   "upload_to_cdn"].

Definition validStatuses : list string :=
  ["queued"; "in_progress"; "completed"; "failed"; "cancelled"].

Section Routes.

(** [Joi.string().uuid()] is decided by the Joi library. *)
Variable is_uuid : string -> bool.
Variable uuid_in : string -> option uuid.

(** [schemas.uuidParam]: the object must carry a key [id] holding a uuid;
    other keys are stripped. *)
Definition uuidParam (params : Params) : option uuid :=
  match param "id" params with
  | Some id => if is_uuid id then Some id else None
  | None => None
  end.

(** [schemas.processingJob] *)
Definition processingJob (b : RawJobBody) : option JobBodyIn :=
  match raw_video_id b, raw_job_type b with
  | Some vid, Some jt =>
      let priority :=
        match raw_priority b with
        | Some p => p
        | None => 5
        end in
      if is_uuid vid && includes job_types jt
         && (1 <=? priority) && (priority <=? 10)
      then Some (mkJobBodyIn vid jt priority (raw_settings b))
      else None
  | _, _ => None
  end.

(** *** [POST /api/jobs]: create a processing job

    [jobId] is what [uuidv4()] returns, [redis] whether Redis accepts the
    push.  The row stores the uuid that [video_id] denotes; the descriptor
    carries [video_id] as the body spells it. *)
Definition create_job (cred : option AuthUser) (raw : RawJobBody)
    (jobId : uuid) (clk : Clock) (redis : bool) : Handler Response :=
  user <- authenticateToken cred ;;
  body <- validate processingJob raw ;;
  try_catch
    (videoResult <- query (SELECT_videos_by_id uuid_in (in_video_id body)) ;;
     match videoResult with
     | [] => send (Error 404 "VIDEO_NOT_FOUND")
     | video :: _ =>
         when_send ((Video.user_id video !== au_id user)
                    && (au_role user !== "admin"))
                   (Error 403 "NOT_AUTHORIZED") ;;;
         when_send (Video.status video === "failed")
                   (Error 400 "INVALID_VIDEO_STATUS") ;;;
         result <- query (uuid_param uuid_in (in_video_id body)
                     (fun video_id =>
                        INSERT_processing_job
                          (Job.mk jobId video_id (in_job_type body)
                                  "queued" (in_priority body) 0
                                  (in_settings body) None None
                                  (NOW clk) (NOW clk) None))) ;;
         lPush redis
               (mkDescriptor jobId (in_video_id body) (in_job_type body)
                             (in_priority body) (in_settings body) None
                             (Date_now clk)) ;;;
         ret (Json 201 (JobBody "Processing job created successfully"
                                (hd_error result)))
     end)
    "CREATE_JOB_ERROR".

(** The [SET] list that [PUT /:id/status] builds from the body. *)
Definition updateFields (status : string) (body : StatusBody)
  : list JobAssignment :=
  [status_eq status; updated_at_NOW]
  ++ match sb_progress body with
     | Some progress =>
         [progress_eq (Math_max (Finite 0) (Math_min (Finite 100) progress))]
     | None => []
     end
  ++ match sb_error_message body with
     | Some m => [error_message_eq m]
     | None => []
     end
  ++ match sb_result_data body with
     | Some d => [result_data_eq d]
     | None => []
     end
  ++ (if status === "completed" then [completed_at_NOW] else []).

(** *** [PUT /api/jobs/:id/status]: update job status *)
Definition update_status (cred : option AuthUser) (id_param : string)
    (body : StatusBody) (clk : Clock) : Handler Response :=
  _ <- authenticateToken cred ;;
  id <- validate uuidParam [("id", id_param)] ;;
  try_catch
    (status <- match sb_status body with
               | Some s => if includes validStatuses s then ret s
                           else send (Error 400 "INVALID_STATUS")
               | None => send (Error 400 "INVALID_STATUS")
               end ;;
     jobResult <- query (SELECT_jobs_by_id uuid_in id) ;;
     match jobResult with
     | [] => send (Error 404 "JOB_NOT_FOUND")
     | job :: _ =>
         result <- query (UPDATE_processing_jobs uuid_in (NOW clk)
                            (updateFields status body) id) ;;
         (if (status === "completed") && (Job.job_type job === "encoding")
          then query (UPDATE_videos_status (NOW clk) "completed"
                                           (Job.video_id job))
          else if status === "failed"
          then query (UPDATE_videos_status (NOW clk) "failed"
                                           (Job.video_id job))
          else ret tt) ;;;
         ret (Json 200 (JobBody "Job status updated successfully"
                                (hd_error result)))
     end)
    "UPDATE_JOB_STATUS_ERROR".

(** *** [POST /api/jobs/:id/cancel]: cancel a processing job *)
Definition cancel_job (cred : option AuthUser) (id_param : string)
    (clk : Clock) : Handler Response :=
  user <- authenticateToken cred ;;
  id <- validate uuidParam [("id", id_param)] ;;
  try_catch
    (jobResult <- query (SELECT_jobs_with_owner uuid_in id) ;;
     match jobResult with
     | [] => send (Error 404 "JOB_NOT_FOUND")
     | (job, job_user_id) :: _ =>
         when_send (nullable_neq job_user_id (au_id user)
                    && (au_role user !== "admin"))
                   (Error 403 "NOT_AUTHORIZED") ;;;
         when_send (includes ["completed"; "failed"; "cancelled"]
                             (Job.status job))
                   (Error 400 "CANNOT_CANCEL_JOB") ;;;
         result <- query (UPDATE_processing_jobs uuid_in (NOW clk)
                            [status_eq "cancelled"; updated_at_NOW] id) ;;
         ret (Json 200 (JobBody "Job cancelled successfully"
                                (hd_error result)))
     end)
    "CANCEL_JOB_ERROR".

End Routes.

(** ** SQL statements of [routes/videos.js] *)

Definition user_exists (uid : uuid) (db : Db) : bool :=
  existsb (fun u => User.id u === uid) (users db).

Section VideoStatements.

Variable uuid_in : string -> option uuid.

(** [INSERT INTO videos (..) VALUES (..) RETURNING *]; [videos.user_id
    REFERENCES users(id)]. *)
Definition INSERT_video (v : Video.row) (db : Db)
  : option (list Video.row * Db) :=
  if video_exists (Video.id v) db then None
  else if negb (user_exists (Video.user_id v) db) then None
  else Some ([v], mkDb (users db) (videos db ++ [v]) (video_tags db)
                       (processing_jobs db)).

(** [INSERT INTO video_tags (video_id, tag) VALUES ($1, $2), ($3, $4), ..] *)
Definition INSERT_video_tags (vid : uuid) (tags : list string) (db : Db)
  : option (unit * Db) :=
  Some (tt, mkDb (users db) (videos db)
                 (video_tags db ++ map (fun tag => (vid, tag)) tags)
                 (processing_jobs db)).

(** [DELETE FROM video_tags WHERE video_id = $1] *)
Definition DELETE_video_tags (id : string) : Db -> option (unit * Db) :=
  uuid_param uuid_in id
    (fun vid db =>
       Some (tt, mkDb (users db) (videos db)
                      (filter (fun t => fst t !== vid) (video_tags db))
                      (processing_jobs db))).

(** [DELETE FROM processing_jobs WHERE video_id = $1] *)
Definition DELETE_processing_jobs (id : string) : Db -> option (unit * Db) :=
  uuid_param uuid_in id
    (fun vid db =>
       Some (tt, mkDb (users db) (videos db) (video_tags db)
                      (filter (fun j => Job.video_id j !== vid)
                              (processing_jobs db)))).

(** [DELETE FROM videos WHERE id = $1]; refused while a job row still
    references the video. *)
Definition DELETE_video (id : string) : Db -> option (unit * Db) :=
  uuid_param uuid_in id
    (fun vid db =>
       if existsb (fun j => Job.video_id j === vid) (processing_jobs db)
       then None
       else Some (tt, mkDb (users db)
                           (filter (fun v => Video.id v !== vid) (videos db))
                           (video_tags db) (processing_jobs db))).

(** One entry of the [SET] list of [UPDATE videos]: the keys of the
    validated patch, then [updated_at]. *)
Inductive VideoAssignment :=
| title_eq (s : string)
| description_eq (s : string)
| tags_eq (l : list string)
| privacy_eq (s : string)
| video_status_eq (s : string)
| updated_at_eq (t : timestamp).

Definition assign_video (v : Video.row) (a : VideoAssignment) : Video.row :=
  let '(Video.mk i u t d fp fs ofn p s ca ua) := v in
  match a with
  | title_eq t' => Video.mk i u t' d fp fs ofn p s ca ua
  | description_eq d' => Video.mk i u t (Some d') fp fs ofn p s ca ua
  | tags_eq _ => v
  | privacy_eq p' => Video.mk i u t d fp fs ofn p' s ca ua
  | video_status_eq s' => Video.mk i u t d fp fs ofn p s' ca ua
  | updated_at_eq ua' => Video.mk i u t d fp fs ofn p s ca ua'
  end.

Definition is_tags_eq (a : VideoAssignment) : bool :=
  match a with
  | tags_eq _ => true
  | _ => false
  end.

(** [UPDATE videos SET <fields> WHERE id = $n RETURNING *].  The [videos]
    table of the README has no [tags] column (tags live in [video_tags]), so
    a [SET] list that names it is refused. *)
Definition UPDATE_videos (fields : list VideoAssignment) (id : string)
  : Db -> option (list Video.row * Db) :=
  uuid_param uuid_in id
    (fun vid db =>
       if existsb is_tags_eq fields then None
       else
         let videos' :=
           map (fun v => if Video.id v === vid
                         then fold_left assign_video fields v else v)
               (videos db) in
         Some (filter (fun v => Video.id v === vid) videos',
               mkDb (users db) videos' (video_tags db) (processing_jobs db))).

End VideoStatements.

(** *** The listing query

    The route assembles its [WHERE] clause from conditions that refer to
    bind parameters by position ([$1], [$2], ..) and passes the parameter
    array separately.  PostgreSQL refuses a statement whose placeholders are
    not exactly [$1 .. $n] for the [n] parameters supplied. *)

Inductive Param :=
| PText (s : string)
| PInt (z : Z).

Inductive Condition :=
| privacy_is_public
| privacy_is_public_or_user_id (k : nat)
| user_id_is (k : nat)
| status_is (k : nat)
| title_or_description_ILIKE (k1 k2 : nat).

Definition placeholders (c : Condition) : list nat :=
  match c with
  | privacy_is_public => []
  | privacy_is_public_or_user_id k => [k]
  | user_id_is k => [k]
  | status_is k => [k]
  | title_or_description_ILIKE k1 k2 => [k1; k2]
  end.

(** Every placeholder lies in [1 .. n] and every position in [1 .. n] is
    used, for [n] parameters supplied. *)
Definition binds (used : list nat) (params : list Param) : bool :=
  forallb (fun k => existsb (Nat.eqb k) (seq 1 (List.length params))) used
  && forallb (fun k => existsb (Nat.eqb k) used) (seq 1 (List.length params)).

Definition param_text (params : list Param) (k : nat) : option string :=
  match nth_error params (k - 1) with
  | Some (PText s) => Some s
  | _ => None
  end.

Definition param_int (params : list Param) (k : nat) : option Z :=
  match nth_error params (k - 1) with
  | Some (PInt z) => Some z
  | _ => None
  end.

(** Lower-casing of ASCII letters ([String.prototype.toLowerCase]). *)
Definition ascii_lower (c : ascii) : ascii :=
  let n := nat_of_ascii c in
  if (Nat.leb 65 n && Nat.leb n 90)%bool then ascii_of_nat (n + 32) else c.

Fixpoint toLowerCase (s : string) : string :=
  match s with
  | EmptyString => EmptyString
  | String c s' => String (ascii_lower c) (toLowerCase s')
  end.

(** [needle] occurs somewhere in [s]. *)
Fixpoint contains (needle s : string) : bool :=
  String.prefix needle s
  || match s with
     | EmptyString => false
     | String _ s' => contains needle s'
     end.

(** [/a|b|c/.test(s)] for literal alternatives. *)
Definition regex_test (alternatives : list string) (s : string) : bool :=
  existsb (fun a => contains a s) alternatives.

Section Sorting.
Context {A : Type} (leb : A -> A -> bool).

(** The rows in the order of [leb], built by insertion. *)
Fixpoint insert_sorted (x : A) (l : list A) : list A :=
  match l with
  | [] => [x]
  | y :: l' => if leb x y then x :: l else y :: insert_sorted x l'
  end.

Definition sort_by (l : list A) : list A :=
  fold_right insert_sorted [] l.
End Sorting.

(** [ORDER BY] a key with order [leb]: a row whose key is strictly smaller
    comes first.  PostgreSQL leaves the order of rows with equal keys
    unspecified; [tie] stands for the order it happens to give them, decided
    outside the sources. *)
Definition order_by {A : Type} (leb tie : A -> A -> bool) (l : list A)
  : list A :=
  sort_by (fun a b =>
             if leb a b && negb (leb b a) then true
             else if leb b a && negb (leb a b) then false
             else tie a b)
          l.

(** ** Schemas of the video routes *)

(** [Joi.string().max(n)]: Joi refuses the empty string unless allowed. *)
Definition joi_string (max : nat) (s : string) : bool :=
  negb (s === "") && Nat.leb (String.length s) max.

Definition optional {A} (check : A -> bool) (x : option A) : bool :=
  match x with
  | Some a => check a
  | None => true
  end.

Definition privacies : list string := ["public"; "private"; "unlisted"].
Definition video_statuses : list string :=
  ["pending"; "processing"; "completed"; "failed"].
Definition sort_fields : list string :=
  ["created_at"; "updated_at"; "title"; "status"].

Definition joi_tags (tags : list string) : bool :=
  forallb (joi_string 50) tags && Nat.leb (List.length tags) 10.

(** Fields of a multipart upload form, before validation. *)
Record RawVideoUpload := mkRawVideoUpload
  { raw_title : option string;
    raw_description : option string;
    raw_tags : option (list string);
    raw_privacy : option string }.

Record VideoUploadIn := mkVideoUploadIn
  { up_title : string;
    up_description : option string;
    up_tags : option (list string);
    up_privacy : string }.

(** [schemas.videoUpload] *)
Definition videoUpload (b : RawVideoUpload) : option VideoUploadIn :=
  match raw_title b with
  | Some title =>
      let privacy :=
        match raw_privacy b with
        | Some p => p
        | None => "public"
        end in
      if joi_string 255 title
         && optional (joi_string 1000) (raw_description b)
         && optional joi_tags (raw_tags b)
         && includes privacies privacy
      then Some (mkVideoUploadIn title (raw_description b) (raw_tags b) privacy)
      else None
  | None => None
  end.

(** Body of [PUT /api/videos/:id]; every key is optional. *)
Record VideoPatch := mkVideoPatch
  { p_title : option string;
    p_description : option string;
    p_tags : option (list string);
    p_privacy : option string;
    p_status : option string }.

(** [schemas.videoUpdate] *)
Definition videoUpdate (p : VideoPatch) : option VideoPatch :=
  if optional (joi_string 255) (p_title p)
     && optional (joi_string 1000) (p_description p)
     && optional joi_tags (p_tags p)
     && optional (includes privacies) (p_privacy p)
     && optional (includes video_statuses) (p_status p)
  then Some p
  else None.

(** Query string of a listing request; numeric parameters already read as
    integers. *)
Record RawListQuery := mkRawListQuery
  { raw_page : option Z;
    raw_limit : option Z;
    raw_sort : option string;
    raw_order : option string;
    raw_status : option string;
    raw_search : option string }.

Record ListQuery := mkListQuery
  { q_page : Z;
    q_limit : Z;
    q_sort : string;
    q_order : string;
    q_status : option string;
    q_search : option string }.

Definition or_default {A} (x : option A) (d : A) : A :=
  match x with
  | Some a => a
  | None => d
  end.

(** [schemas.listQuery]; [Joi.number()] refuses a number beyond
    [Number.MAX_SAFE_INTEGER]. *)
Definition listQuery (q : RawListQuery) : option ListQuery :=
  let page := or_default (raw_page q) 1 in
  let limit := or_default (raw_limit q) 20 in
  let sort := or_default (raw_sort q) "created_at" in
  let order := or_default (raw_order q) "desc" in
  if (1 <=? page) && (page <=? 9007199254740991)
     && (1 <=? limit) && (limit <=? 100)
     && includes sort_fields sort
     && includes ["asc"; "desc"] order
     && optional (includes video_statuses) (raw_status q)
     && optional (joi_string 100) (raw_search q)
  then Some (mkListQuery page limit sort order (raw_status q) (raw_search q))
  else None.

(** [Math.ceil(a / b)] for a positive [b]. *)
Definition ceil_div (a b : Z) : Z := - ((- a) / b).

(** The file part of a multipart request, and [req.file] once stored. *)
Record FilePart := mkFilePart
  { originalname : string; mimetype : string; size : Z }.

Record StoredFile := mkStoredFile
  { f_path : string; f_size : Z; f_originalname : string }.

Section VideoRoutes.

(** Decided outside the sources: Joi's uuid test, PostgreSQL's reading of a
    uuid, its [ILIKE] ([ILIKE text pattern]), its collation order on text
    and the order it gives to rows with equal sort keys, Node's
    [path.extname]. *)
Variable is_uuid : string -> bool.
Variable uuid_in : string -> option uuid.
Variable ILIKE : string -> string -> bool.
Variable collate_leb : string -> string -> bool.
Variable tie : VideoListing -> VideoListing -> bool.
Variable extname : string -> string.

(** *** [GET /api/videos]: list videos *)

Definition holds (params : list Param) (v : Video.row) (c : Condition)
  : bool :=
  match c with
  | privacy_is_public => Video.privacy v === "public"
  | privacy_is_public_or_user_id k =>
      (Video.privacy v === "public")
      || match param_text params k with
         | Some uid => Video.user_id v === uid
         | None => false
         end
  | user_id_is k =>
      match param_text params k with
      | Some uid => Video.user_id v === uid
      | None => false
      end
  | status_is k =>
      match param_text params k with
      | Some s => Video.status v === s
      | None => false
      end
  | title_or_description_ILIKE k1 k2 =>
      match param_text params k1 with
      | Some pat => ILIKE (Video.title v) pat
      | None => false
      end
      || match Video.description v, param_text params k2 with
         | Some d, Some pat => ILIKE d pat
         | _, _ => false
         end
  end.

Definition WHERE (whereClause : list Condition) (params : list Param)
    (v : Video.row) : bool :=
  forallb (holds params v) whereClause.

(** [videos v LEFT JOIN users u ON v.user_id = u.id] *)
Definition LEFT_JOIN_users (db : Db) (vs : list Video.row)
  : list VideoListing :=
  flat_map
    (fun v =>
       match filter (fun u => User.id u === Video.user_id v) (users db) with
       | [] => [mkVideoListing v None None]
       | us => map (fun u => mkVideoListing v (Some (User.name u))
                                            (Some (User.email u))) us
       end)
    vs.

Definition column_leb (sort : string) (a b : Video.row) : bool :=
  if sort === "created_at" then Video.created_at a <=? Video.created_at b
  else if sort === "updated_at" then Video.updated_at a <=? Video.updated_at b
  else if sort === "title" then collate_leb (Video.title a) (Video.title b)
  else collate_leb (Video.status a) (Video.status b).

(** [ORDER BY v.<sort> <ORDER>] *)
Definition ORDER_BY (sort order : string) (rows : list VideoListing)
  : list VideoListing :=
  order_by (fun a b => if order === "asc"
                       then column_leb sort (l_video a) (l_video b)
                       else column_leb sort (l_video b) (l_video a))
           tie rows.

(** [SELECT COUNT( * ) FROM videos WHERE <whereClause>] *)
Definition SELECT_COUNT_videos (whereClause : list Condition)
    (params : list Param) (db : Db) : option (Z * Db) :=
  if binds (flat_map placeholders whereClause) params
  then Some (Z.of_nat (List.length (filter (WHERE whereClause params)
                                           (videos db))), db)
  else None.

(** [SELECT v.*, u.name, u.email FROM videos v LEFT JOIN users u ..
     WHERE <whereClause> ORDER BY .. LIMIT $kl OFFSET $ko] *)
Definition SELECT_videos_page (whereClause : list Condition)
    (sort order : string) (kl ko : nat) (params : list Param) (db : Db)
  : option (list VideoListing * Db) :=
  if binds (flat_map placeholders whereClause ++ [kl; ko]) params
  then match param_int params kl, param_int params ko with
       | Some lim, Some off =>
           Some (firstn (Z.to_nat lim)
                   (skipn (Z.to_nat off)
                      (ORDER_BY sort order
                         (LEFT_JOIN_users db
                            (filter (WHERE whereClause params)
                                    (videos db))))), db)
       | _, _ => None
       end
  else None.

(** [whereClause], [queryParams] and [paramCount] as the route builds
    them.  The search branch pre-increments [paramCount] twice and then
    increments it once more. *)
Definition QueryBuilder : Type := list Condition * list Param * nat.

Definition add_privacy_filter (user : option AuthUser) (b : QueryBuilder)
  : QueryBuilder :=
  let '(whereClause, queryParams, paramCount) := b in
  match user with
  | None => ((whereClause ++ [privacy_is_public])%list, queryParams,
             paramCount)
  | Some u =>
      ((whereClause ++ [privacy_is_public_or_user_id (paramCount + 1)])%list,
       (queryParams ++ [PText (au_id u)])%list, (paramCount + 1)%nat)
  end.

Definition add_status_filter (status : option string) (b : QueryBuilder)
  : QueryBuilder :=
  let '(whereClause, queryParams, paramCount) := b in
  match status with
  | Some s => ((whereClause ++ [status_is (paramCount + 1)])%list,
               (queryParams ++ [PText s])%list, (paramCount + 1)%nat)
  | None => b
  end.

Definition add_search_filter (search : option string) (b : QueryBuilder)
  : QueryBuilder :=
  let '(whereClause, queryParams, paramCount) := b in
  match search with
  | Some s =>
      ((whereClause ++ [title_or_description_ILIKE (paramCount + 1)
                                                   (paramCount + 2)])%list,
       (queryParams ++ [PText ("%" ++ s ++ "%")%string;
                        PText ("%" ++ s ++ "%")%string])%list,
       (paramCount + 3)%nat)
  | None => b
  end.

Definition list_videos (cred : option AuthUser) (raw : RawListQuery)
  : Handler Response :=
  user <- optionalAuth cred ;;
  q <- validate listQuery raw ;;
  try_catch
    (let offset := (q_page q - 1) * q_limit q in
     let '(whereClause, queryParams, paramCount) :=
       add_search_filter (q_search q)
         (add_status_filter (q_status q)
            (add_privacy_filter user ([], [], 0%nat))) in
     totalCount <- query (SELECT_COUNT_videos whereClause queryParams) ;;
     videosResult <- query (SELECT_videos_page whereClause
                              (q_sort q) (q_order q)
                              (paramCount + 1) (paramCount + 2)
                              (queryParams ++ [PInt (q_limit q);
                                               PInt offset])) ;;
     let totalPages := ceil_div totalCount (q_limit q) in
     ret (Json 200 (VideosBody videosResult
                      (mkPagination (q_page q) totalPages totalCount
                                    (q_limit q)
                                    (q_page q <? totalPages)
                                    (1 <? q_page q)))))
    "GET_VIDEOS_ERROR".

(** *** [GET /api/videos/user/:userId]: list the videos of a user

    The path names its segment [userId] while [schemas.uuidParam] asks for
    [id]. *)

Definition add_public_unless_own (user : option AuthUser) (userId : string)
    (b : QueryBuilder) : QueryBuilder :=
  let '(whereClause, queryParams, paramCount) := b in
  match user with
  | None => ((whereClause ++ [privacy_is_public])%list, queryParams,
             paramCount)
  | Some u =>
      if au_id u !== userId
      then ((whereClause ++ [privacy_is_public])%list, queryParams,
            paramCount)
      else b
  end.

(** The route function proper, behind its middleware. *)
Definition user_videos_handler (user : option AuthUser) (userId : string)
    (q : ListQuery) : Handler Response :=
  try_catch
    (let offset := (q_page q - 1) * q_limit q in
     let '(whereClause, queryParams, paramCount) :=
       add_status_filter (q_status q)
         (add_public_unless_own user userId
            ([user_id_is 1], [PText userId], 1%nat)) in
     totalCount <- query (SELECT_COUNT_videos whereClause queryParams) ;;
     videosResult <- query (SELECT_videos_page whereClause
                              (q_sort q) (q_order q)
                              (paramCount + 1) (paramCount + 2)
                              (queryParams ++ [PInt (q_limit q);
                                               PInt offset])) ;;
     let totalPages := ceil_div totalCount (q_limit q) in
     ret (Json 200 (VideosBody videosResult
                      (mkPagination (q_page q) totalPages totalCount
                                    (q_limit q)
                                    (q_page q <? totalPages)
                                    (1 <? q_page q)))))
    "GET_USER_VIDEOS_ERROR".

Definition list_user_videos (cred : option AuthUser) (userId_param : string)
    (raw : RawListQuery) : Handler Response :=
  user <- optionalAuth cred ;;
  _ <- validate (uuidParam is_uuid) [("userId", userId_param)] ;;
  q <- validate listQuery raw ;;
  user_videos_handler user userId_param q.

(** *** [POST /api/videos]: upload a video *)

Definition allowedTypes : list string :=
  ["mp4"; "avi"; "mov"; "wmv"; "flv"; "webm"; "mkv"].

Definition fileFilter (file : FilePart) : bool :=
  let ext := regex_test allowedTypes
               (toLowerCase (extname (originalname file))) in
  let mime := regex_test allowedTypes (mimetype file) in
  mime && ext.

(** [upload.single('video')]: multer runs [fileFilter] on the file part,
    enforces [limits.fileSize] and stores the file under the name the
    [filename] callback builds; its errors reach the error middleware of
    [server.js].  Without a file part [req.file] stays undefined. *)
Definition upload_single (part : option FilePart) (fileName : uuid)
  : Handler (option StoredFile) :=
  match part with
  | None => ret None
  | Some file =>
      if negb (fileFilter file) then send (Error 400 "INVALID_FILE_TYPE")
      else if 500 * 1024 * 1024 <? size file
      then send (Error 413 "FILE_TOO_LARGE")
      else ret (Some (mkStoredFile
                        ("uploads/videos/" ++ fileName
                           ++ extname (originalname file))
                        (size file) (originalname file)))
  end.

Definition upload_video (cred : option AuthUser) (part : option FilePart)
    (raw : RawVideoUpload) (fileName videoId jobId : uuid) (clk : Clock)
    (redis : bool) : Handler Response :=
  user <- authenticateToken cred ;;
  req_file <- upload_single part fileName ;;
  body <- validate videoUpload raw ;;
  try_catch
    (match req_file with
     | None => send (Error 400 "FILE_REQUIRED")
     | Some file =>
         result <- query (INSERT_video
                     (Video.mk videoId (au_id user) (up_title body)
                               (up_description body) (f_path file)
                               (f_size file) (f_originalname file)
                               (up_privacy body) "pending"
                               (NOW clk) (NOW clk))) ;;
         match up_tags body with
         | Some (tag :: tags) =>
             query (INSERT_video_tags videoId (tag :: tags))
         | _ => ret tt
         end ;;;
         _ <- query (INSERT_processing_job
                       (Job.mk jobId videoId "metadata_extraction"
                               "queued" 5 0 None None None
                               (NOW clk) (NOW clk) None)) ;;
         lPush redis
               (mkDescriptor jobId videoId "metadata_extraction" 5
                             None (Some (f_path file))
                             (Date_now clk)) ;;;
         ret (Json 201 (UploadBody "Video uploaded successfully"
                                   (hd_error result) jobId))
     end)
    "UPLOAD_ERROR".

(** *** [PUT /api/videos/:id]: update a video *)

Definition entry {A} (column : A -> VideoAssignment) (value : option A)
  : list VideoAssignment :=
  match value with
  | Some a => [column a]
  | None => []
  end.

(** [Object.entries(updates)] turned into [SET] entries. *)
Definition patch_fields (updates : VideoPatch) : list VideoAssignment :=
  entry title_eq (p_title updates)
  ++ entry description_eq (p_description updates)
  ++ entry tags_eq (p_tags updates)
  ++ entry privacy_eq (p_privacy updates)
  ++ entry video_status_eq (p_status updates).

Definition update_video (cred : option AuthUser) (id_param : string)
    (patch : VideoPatch) (clk : Clock) : Handler Response :=
  user <- authenticateToken cred ;;
  id <- validate (uuidParam is_uuid) [("id", id_param)] ;;
  updates <- validate videoUpdate patch ;;
  try_catch
    (videoResult <- query (SELECT_videos_by_id uuid_in id) ;;
     match videoResult with
     | [] => send (Error 404 "VIDEO_NOT_FOUND")
     | video :: _ =>
         when_send ((Video.user_id video !== au_id user)
                    && (au_role user !== "admin"))
                   (Error 403 "NOT_AUTHORIZED") ;;;
         let updateFields := patch_fields updates in
         when_send (Nat.eqb (List.length updateFields) 0)
                   (Error 400 "NO_UPDATE_FIELDS") ;;;
         result <- query (UPDATE_videos uuid_in
                            (updateFields ++ [updated_at_eq (Date_now clk)])
                            id) ;;
         ret (Json 200 (VideoBody "Video updated successfully"
                                  (hd_error result)))
     end)
    "UPDATE_ERROR".

(** *** [DELETE /api/videos/:id]: delete a video *)

(** [BEGIN; try { body; COMMIT } catch (error) { ROLLBACK; throw error }] *)
Definition transaction {A} (body : Handler A) : Handler A :=
  fun w =>
    match body w with
    | (_, Thrown) => (w, Thrown)
    | r => r
    end.

Definition delete_video (cred : option AuthUser) (id_param : string)
  : Handler Response :=
  user <- authenticateToken cred ;;
  id <- validate (uuidParam is_uuid) [("id", id_param)] ;;
  try_catch
    (videoResult <- query (SELECT_videos_by_id uuid_in id) ;;
     match videoResult with
     | [] => send (Error 404 "VIDEO_NOT_FOUND")
     | video :: _ =>
         when_send ((Video.user_id video !== au_id user)
                    && (au_role user !== "admin"))
                   (Error 403 "NOT_AUTHORIZED") ;;;
         transaction
           (query (DELETE_video_tags uuid_in id) ;;;
            query (DELETE_processing_jobs uuid_in id) ;;;
            query (DELETE_video uuid_in id) ;;;
            ret (Json 200 (MessageBody "Video deleted successfully")))
     end)
    "DELETE_ERROR".

End VideoRoutes.

(** * Properties *)

(** ** Observations on a world *)

(** The row a later [SELECT * FROM processing_jobs WHERE id = $1] reads. *)
Definition find_job (jid : uuid) (w : World) : option Job.row :=
  hd_error (filter (fun j => Job.id j === jid) (processing_jobs (pool w))).

Definition find_video (vid : uuid) (w : World) : option Video.row :=
  hd_error (filter (fun v => Video.id v === vid) (videos (pool w))).

(** The owning subject of a job: the owner of the video it references. *)
Definition job_owner (j : Job.row) (w : World) : option uuid :=
  option_map Video.user_id (find_video (Job.video_id j) w).

Definition owns (u : AuthUser) (owner : option uuid) : bool :=
  match owner with
  | Some o => o === au_id u
  | None => false
  end.

Definition is_admin (u : AuthUser) : bool := au_role u === "admin".

(** Every status column holds one of the five job statuses. *)
Definition job_statuses_valid (w : World) : Prop :=
  forall j, In j (processing_jobs (pool w)) ->
            includes validStatuses (Job.status j) = true.


(** The status [PUT /:id/status] goes on with, if any. *)
Definition requested_status (body : StatusBody) : option string :=
  match sb_status body with
  | Some s => if includes validStatuses s then Some s else None
  | None => None
  end.

(** The number that [PUT /:id/status] binds to [progress = $n]. *)
Definition clamped (progress : Number) : Number :=
  Math_max (Finite 0) (Math_min (Finite 100) progress).

(** The integer the [progress] column takes from the body, if the body
    carries the field and the column reads what is bound. *)
Definition stored_progress (body : StatusBody) : option Z :=
  match sb_progress body with
  | Some progress => integer_in (clamped progress)
  | None => None
  end.

(** Whether the [UPDATE] of [PUT /:id/status] is accepted: a body without
    [progress], or with one that clamps to a whole number. *)
Definition progress_readable (body : StatusBody) : bool :=
  match sb_progress body with
  | Some progress =>
      match integer_in (clamped progress) with
      | Some _ => true
      | None => false
      end
  | None => true
  end.

(** The row that [PUT /:id/status] writes over [j]. *)
Definition updated_row (NOW : timestamp) (status : string) (body : StatusBody)
    (j : Job.row) : Job.row :=
  Job.mk (Job.id j) (Job.video_id j) (Job.job_type j) status (Job.priority j)
         (match stored_progress body with
          | Some progress => progress
          | None => Job.progress j
          end)
         (Job.settings j)
         (match sb_error_message body with
          | Some m => m
          | None => Job.error_message j
          end)
         (match sb_result_data body with
          | Some d => Some d
          | None => Job.result_data j
          end)
         (Job.created_at j) NOW
         (if status === "completed" then Some NOW else Job.completed_at j).

(** The videos table after the propagation step of [PUT /:id/status]. *)
Definition propagated (NOW : timestamp) (status : string) (job : Job.row)
    (vs : list Video.row) : list Video.row :=
  if (status === "completed") && (Job.job_type job === "encoding")
  then map (fun v => if Video.id v === Job.video_id job
                     then Video.set_status "completed" NOW v else v) vs
  else if status === "failed"
  then map (fun v => if Video.id v === Job.video_id job
                     then Video.set_status "failed" NOW v else v) vs
  else vs.

(** The row that a successful cancel leaves: [status] and [updated_at]
    rewritten, every other column as it was. *)
Definition cancelled_at (NOW : timestamp) (j : Job.row) : Job.row :=
  Job.mk (Job.id j) (Job.video_id j) (Job.job_type j) "cancelled"
         (Job.priority j) (Job.progress j) (Job.settings j)
         (Job.error_message j) (Job.result_data j) (Job.created_at j)
         NOW (Job.completed_at j).

(** The job row and the descriptor that [POST /api/jobs] builds, for the
    uuid [video_id] that the body's [video_id] denotes. *)
Definition new_job (video_id : uuid) (body : JobBodyIn) (jobId : uuid)
    (clk : Clock) : Job.row :=
  Job.mk jobId video_id (in_job_type body) "queued"
         (in_priority body) 0 (in_settings body) None None
         (NOW clk) (NOW clk) None.

Definition new_descriptor (body : JobBodyIn) (jobId : uuid) (clk : Clock)
  : Descriptor :=
  mkDescriptor jobId (in_video_id body) (in_job_type body) (in_priority body)
               (in_settings body) None (Date_now clk).

(** The job row and the descriptor that [POST /api/videos] builds. *)
Definition initial_job (videoId jobId : uuid) (clk : Clock) : Job.row :=
  Job.mk jobId videoId "metadata_extraction" "queued" 5 0 None None None
         (NOW clk) (NOW clk) None.

Definition initial_descriptor (videoId jobId : uuid) (path : string)
    (clk : Clock) : Descriptor :=
  mkDescriptor jobId videoId "metadata_extraction" 5 None (Some path)
               (Date_now clk).

(** The row that [PUT /api/videos/:id] writes over [v]. *)
Definition patched_row (updates : VideoPatch) (now : timestamp)
    (v : Video.row) : Video.row :=
  fold_left assign_video (patch_fields updates ++ [updated_at_eq now]) v.

(** The visibility rule the listing query applies to a row. *)
Definition visible_to (cred : option AuthUser) (v : Video.row) : Prop :=
  Video.privacy v = "public"
  \/ exists u, cred = Some u /\ Video.user_id v = au_id u.

(** ** The server as a whole

    [server.js] mounts the routes; a call names one of them with its
    request and with what the route draws from its environment (fresh
    uuids, the clocks, whether Redis accepts a push). *)

Inductive Call :=
| POST_jobs (cred : option AuthUser) (raw : RawJobBody) (jobId : uuid)
    (clk : Clock) (redis : bool)
| PUT_jobs_status (cred : option AuthUser) (id : string) (body : StatusBody)
    (clk : Clock)
| POST_jobs_cancel (cred : option AuthUser) (id : string) (clk : Clock)
| GET_videos (cred : option AuthUser) (raw : RawListQuery)
| GET_videos_user (cred : option AuthUser) (userId : string)
    (raw : RawListQuery)
| POST_videos (cred : option AuthUser) (part : option FilePart)
    (raw : RawVideoUpload) (fileName videoId jobId : uuid) (clk : Clock)
    (redis : bool)
| PUT_videos (cred : option AuthUser) (id : string) (patch : VideoPatch)
    (clk : Clock)
| DELETE_videos (cred : option AuthUser) (id : string).

Section Server.

Variable is_uuid : string -> bool.
Variable uuid_in : string -> option uuid.
Variable ILIKE : string -> string -> bool.
Variable collate_leb : string -> string -> bool.
Variable tie : VideoListing -> VideoListing -> bool.
Variable extname : string -> string.

Definition serve (c : Call) : Handler Response :=
  match c with
  | POST_jobs cred raw jobId clk redis =>
      create_job is_uuid uuid_in cred raw jobId clk redis
  | PUT_jobs_status cred id body clk =>
      update_status is_uuid uuid_in cred id body clk
  | POST_jobs_cancel cred id clk => cancel_job is_uuid uuid_in cred id clk
  | GET_videos cred raw => list_videos ILIKE collate_leb tie cred raw
  | GET_videos_user cred userId raw =>
      list_user_videos is_uuid ILIKE collate_leb tie cred userId raw
  | POST_videos cred part raw fileName videoId jobId clk redis =>
      upload_video extname cred part raw fileName videoId jobId clk redis
  | PUT_videos cred id patch clk =>
      update_video is_uuid uuid_in cred id patch clk
  | DELETE_videos cred id => delete_video is_uuid uuid_in cred id
  end.

(** The worlds the server can be in, started without job rows. *)
Inductive reachable : World -> Prop :=
| reachable_start w : processing_jobs (pool w) = [] -> reachable w
| reachable_call w c :
    reachable w -> reachable (snd (respond (serve c) w)).

End Server.

(** ** A running example *)

Module Scenario.

(** Instances of the functions the routes take from their libraries: the
    hyphenated shape of a uuid, which is read in either case and printed in
    lower case; byte-wise collation; rows with equal sort keys left in the
    order of the table; a case-insensitive match of a [%text%] pattern; the
    extension after the last dot. *)
Definition is_uuid (s : string) : bool :=
  Nat.eqb (String.length s) 36
  && forallb (fun i => match String.get i s with
                       | Some "-"%char => true
                       | _ => false
                       end)
             [8; 13; 18; 23]%nat.

Definition uuid_in (s : string) : option uuid :=
  if is_uuid s then Some (toLowerCase s) else None.

Definition collate_leb (a b : string) : bool := String.leb a b.

Definition tie {A : Type} (a b : A) : bool := true.

Definition ILIKE (text pattern : string) : bool :=
  contains (toLowerCase (String.substring 1 (String.length pattern - 2)
                                          pattern))
           (toLowerCase text).

Fixpoint extname (s : string) : string :=
  match s with
  | EmptyString => EmptyString
  | String c s' =>
      if contains "." s' then extname s'
      else if Ascii.eqb c "."%char then s else EmptyString
  end.

Definition alice : AuthUser :=
  mkAuthUser "a11ce000-0000-4000-8000-000000000001" "user".
Definition bob : AuthUser :=
  mkAuthUser "b0b00000-0000-4000-8000-000000000002" "user".
Definition root : AuthUser :=
  mkAuthUser "ad000000-0000-4000-8000-000000000003" "admin".

Definition holiday_id : uuid := "f11e0000-0000-4000-8000-00000000000a".
Definition trailer_id : uuid := "f11e0000-0000-4000-8000-00000000000b".

(** Alice's private video, already encoded, and her public one. *)
Definition holiday : Video.row :=
  Video.mk holiday_id (au_id alice) "Holiday" None
           "uploads/videos/0001.mp4" 1000 "holiday.mp4"
           "private" "completed" 10 30.
Definition trailer : Video.row :=
  Video.mk trailer_id (au_id alice) "Trailer" (Some "A short cut")
           "uploads/videos/0002.mp4" 500 "trailer.mp4"
           "public" "pending" 20 20.

Definition encode_id : uuid := "10b00000-0000-4000-8000-000000000001".
Definition thumb_id : uuid := "10b00000-0000-4000-8000-000000000002".
Definition probe_id : uuid := "10b00000-0000-4000-8000-000000000003".
Definition fresh_id : uuid := "10b00000-0000-4000-8000-000000000004".
Definition fresh_video_id : uuid := "f11e0000-0000-4000-8000-00000000000c".

(** Three jobs on the private video: a finished encoding, a running
    thumbnail job and a queued metadata extraction. *)
Definition encode : Job.row :=
  Job.mk encode_id holiday_id "encoding" "completed" 5 100 None None
         (Some "{}") 11 30 (Some 30).
Definition thumb : Job.row :=
  Job.mk thumb_id holiday_id "thumbnail" "in_progress" 3 40 None None None
         12 31 None.
Definition probe : Job.row :=
  Job.mk probe_id holiday_id "metadata_extraction" "queued" 5 0 None None
         None 13 13 None.

Definition world : World :=
  mkWorld
    (mkDb [User.mk (au_id alice) "alice@example.org" "Alice" "user";
           User.mk (au_id bob) "bob@example.org" "Bob" "user";
           User.mk (au_id root) "root@example.org" "Root" "admin"]
          [holiday; trailer]
          [(holiday_id, "family")]
          [encode; thumb; probe])
    [mkDescriptor probe_id holiday_id "metadata_extraction" 5 None
                  (Some "uploads/videos/0001.mp4") 13].

Definition clock : Clock := mkClock 50 51.


(** The world after Alice has made her private video public. *)
Definition world_after_release : World :=
  snd (respond (update_video is_uuid uuid_in (Some alice) holiday_id
                  (mkVideoPatch None None None (Some "public") None) clock)
               world).

(** The id of the queued job, as a client may spell it. *)
Definition PROBE_ID : string := "10B00000-0000-4000-8000-000000000003".

End Scenario.

(** ** Routes that only read

    A route whose success body is not one of [Body] is a handler of that
    body's type: [res.json(body)] is its result, an early
    [res.status(..).json(..)] is sent as before. *)

Definition answer {A} (h : Handler A) (w : World) : (Response + A) * World :=
  match h w with
  | (w', Next a) => (inr a, w')
  | (w', Sent r) => (inl r, w')
  | (w', Thrown) => (inl (Error 500 "INTERNAL_ERROR"), w')
  end.

(** [try { body } catch (error) { res.status(500).json({ code }) }] around
    a body of any type. *)
Definition catching {A} (body : Handler A) (code : string) : Handler A :=
  fun w =>
    match body w with
    | (w', Thrown) => (w', Sent (Error 500 code))
    | r => r
    end.

(** Modelled from the spec: [requireRole] of [middleware/auth.js] is not part
    of the sources.  A caller whose role is not among [roles] is
    authenticated but not authorized, which the error taxonomy calls
    Forbidden. *)
Definition requireRole (roles : list string) (user : AuthUser)
  : Handler unit :=
  when_send (negb (includes roles (au_role user))) (Error 403 "FORBIDDEN").

(** [processing_jobs pj LEFT JOIN videos v ON pj.video_id = v.id
     LEFT JOIN users u ON v.user_id = u.id], for one job row. *)
Definition JOIN_video_and_user (db : Db) (j : Job.row)
  : list (option Video.row * option User.row) :=
  match filter (fun v => Video.id v === Job.video_id j) (videos db) with
  | [] => [(None, None)]
  | vs =>
      flat_map
        (fun v =>
           match filter (fun u => User.id u === Video.user_id v)
                        (users db) with
           | [] => [(Some v, None)]
           | us => map (fun u => (Some v, Some u)) us
           end)
        vs
  end.

(** [pj.*, v.title as video_title, v.user_id, u.name as user_name] *)
Record JobDetail := mkJobDetail
  { jd_job : Job.row;
    jd_video_title : option string;
    jd_user_id : option uuid;
    jd_user_name : option string }.

(** [pj.*, v.title as video_title, v.file_path, u.name as user_name,
     u.email as user_email] *)
Record JobListing := mkJobListing
  { jl_job : Job.row;
    jl_video_title : option string;
    jl_file_path : option string;
    jl_user_name : option string;
    jl_user_email : option string }.

Section ReadRoutes.

(** Decided outside the sources, as for the routes above; [job_tie] and
    [listing_tie] are the orders PostgreSQL gives to job rows and to rows of
    the job listing with equal sort keys. *)
Variable is_uuid : string -> bool.
Variable uuid_in : string -> option uuid.
Variable collate_leb : string -> string -> bool.
Variable job_tie : Job.row -> Job.row -> bool.
Variable listing_tie : JobListing -> JobListing -> bool.

(** [SELECT pj.*, v.title as video_title, v.user_id, u.name as user_name
     FROM processing_jobs pj LEFT JOIN videos v .. LEFT JOIN users u ..
     WHERE pj.id = $1] *)
Definition SELECT_job_details (id : string)
  : Db -> option (list JobDetail * Db) :=
  uuid_param uuid_in id
    (fun jid db =>
       Some (flat_map
               (fun j =>
                  map (fun vu =>
                         mkJobDetail j (option_map Video.title (fst vu))
                                     (option_map Video.user_id (fst vu))
                                     (option_map User.name (snd vu)))
                      (JOIN_video_and_user db j))
               (filter (fun j => Job.id j === jid) (processing_jobs db)),
             db)).

(** [ORDER BY created_at DESC] on job rows. *)
Definition newest_first (jobs : list Job.row) : list Job.row :=
  order_by (fun a b => Job.created_at b <=? Job.created_at a) job_tie jobs.

(** [SELECT * FROM processing_jobs WHERE video_id = $1
     ORDER BY created_at DESC] *)
Definition SELECT_jobs_of_video (id : string)
  : Db -> option (list Job.row * Db) :=
  uuid_param uuid_in id
    (fun vid db =>
       Some (newest_first
               (filter (fun j => Job.video_id j === vid)
                       (processing_jobs db)), db)).

(** [SELECT pj.*, v.title as video_title FROM processing_jobs pj
     LEFT JOIN videos v ON pj.video_id = v.id WHERE pj.video_id = $1
     ORDER BY pj.created_at DESC] *)
Definition SELECT_jobs_of_video_titled (id : string)
  : Db -> option (list (Job.row * option string) * Db) :=
  uuid_param uuid_in id
    (fun vid db =>
       Some (flat_map
               (fun j =>
                  match filter (fun v => Video.id v === Job.video_id j)
                               (videos db) with
                  | [] => [(j, None)]
                  | vs => map (fun v => (j, Some (Video.title v))) vs
                  end)
               (newest_first
                  (filter (fun j => Job.video_id j === vid)
                          (processing_jobs db))),
             db)).

(** [SELECT v.*, u.name as user_name, u.email as user_email FROM videos v
     LEFT JOIN users u ON v.user_id = u.id
     WHERE v.id = $1 AND v.privacy = 'public'] for a request without user,
    [.. AND (v.privacy = 'public' OR v.user_id = $2)] with one, where [$2]
    is [req.user.id]. *)
Definition SELECT_video_for (id : string) (user : option AuthUser)
  : Db -> option (list VideoListing * Db) :=
  uuid_param uuid_in id
    (fun vid db =>
       Some (LEFT_JOIN_users db
               (filter (fun v =>
                          (Video.id v === vid)
                          && match user with
                             | None => Video.privacy v === "public"
                             | Some u => (Video.privacy v === "public")
                                         || (Video.user_id v === au_id u)
                             end)
                       (videos db)), db)).

(** *** [GET /api/jobs/:id]: one job *)
Definition get_job (cred : option AuthUser) (id_param : string)
  : Handler JobDetail :=
  user <- authenticateToken cred ;;
  id <- validate (uuidParam is_uuid) [("id", id_param)] ;;
  catching
    (result <- query (SELECT_job_details id) ;;
     match result with
     | [] => send (Error 404 "JOB_NOT_FOUND")
     | job :: _ =>
         when_send (nullable_neq (jd_user_id job) (au_id user)
                    && (au_role user !== "admin"))
                   (Error 403 "NOT_AUTHORIZED") ;;;
         ret job
     end)
    "GET_JOB_ERROR".

(** *** [GET /api/jobs/video/:videoId]: the jobs of a video

    The path names its segment [videoId] while [schemas.uuidParam] asks for
    [id]. *)
Definition get_video_jobs (cred : option AuthUser) (videoId_param : string)
  : Handler (list (Job.row * option string)) :=
  user <- authenticateToken cred ;;
  _ <- validate (uuidParam is_uuid) [("videoId", videoId_param)] ;;
  catching
    (videoResult <- query (SELECT_videos_by_id uuid_in videoId_param) ;;
     match videoResult with
     | [] => send (Error 404 "VIDEO_NOT_FOUND")
     | video :: _ =>
         when_send ((Video.user_id video !== au_id user)
                    && (au_role user !== "admin"))
                   (Error 403 "NOT_AUTHORIZED") ;;;
         query (SELECT_jobs_of_video_titled videoId_param)
     end)
    "GET_VIDEO_JOBS_ERROR".

(** *** [GET /api/videos/:id]: one video with its jobs *)
Definition get_video (cred : option AuthUser) (id_param : string)
  : Handler (VideoListing * list Job.row) :=
  user <- optionalAuth cred ;;
  id <- validate (uuidParam is_uuid) [("id", id_param)] ;;
  catching
    (result <- query (SELECT_video_for id user) ;;
     match result with
     | [] => send (Error 404 "VIDEO_NOT_FOUND")
     | video :: _ =>
         jobsResult <- query (SELECT_jobs_of_video id) ;;
         ret (video, jobsResult)
     end)
    "GET_VIDEO_ERROR".

(** *** [GET /api/jobs]: all jobs, for admins *)

(** [ORDER BY pj.<sort> <ORDER>]; [processing_jobs] has no [title] column,
    so that sort key, which [schemas.listQuery] lets through, is refused. *)
Definition ORDER_jobs_BY (sort order : string) (rows : list JobListing)
  : option (list JobListing) :=
  if sort === "title" then None
  else
    let column_leb (a b : Job.row) :=
      if sort === "created_at" then Job.created_at a <=? Job.created_at b
      else if sort === "updated_at"
      then Job.updated_at a <=? Job.updated_at b
      else collate_leb (Job.status a) (Job.status b) in
    Some (order_by (fun a b => if order === "asc"
                               then column_leb (jl_job a) (jl_job b)
                               else column_leb (jl_job b) (jl_job a))
                   listing_tie rows).

(** [1=1] alone, or [1=1 AND pj.status = $k]. *)
Definition jobs_WHERE (status_at : option nat) (params : list Param)
    (j : Job.row) : bool :=
  match status_at with
  | None => true
  | Some k =>
      match param_text params k with
      | Some s => Job.status j === s
      | None => false
      end
  end.

Definition status_placeholders (status_at : option nat) : list nat :=
  match status_at with
  | None => []
  | Some k => [k]
  end.

(** [SELECT COUNT( * ) FROM processing_jobs pj WHERE <whereClause>] *)
Definition SELECT_COUNT_jobs (status_at : option nat) (params : list Param)
    (db : Db) : option (Z * Db) :=
  if binds (status_placeholders status_at) params
  then Some (Z.of_nat (List.length (filter (jobs_WHERE status_at params)
                                           (processing_jobs db))), db)
  else None.

(** [SELECT pj.*, v.title as video_title, v.file_path, u.name, u.email
     FROM processing_jobs pj LEFT JOIN videos v .. LEFT JOIN users u ..
     WHERE <whereClause> ORDER BY .. LIMIT $kl OFFSET $ko] *)
Definition SELECT_jobs_page (status_at : option nat) (sort order : string)
    (kl ko : nat) (params : list Param) (db : Db)
  : option (list JobListing * Db) :=
  if binds (status_placeholders status_at ++ [kl; ko]) params
  then match param_int params kl, param_int params ko,
             ORDER_jobs_BY sort order
               (flat_map
                  (fun j =>
                     map (fun vu =>
                            mkJobListing j
                              (option_map Video.title (fst vu))
                              (option_map Video.file_path (fst vu))
                              (option_map User.name (snd vu))
                              (option_map User.email (snd vu)))
                         (JOIN_video_and_user db j))
                  (filter (jobs_WHERE status_at params)
                          (processing_jobs db))) with
       | Some lim, Some off, Some rows =>
           Some (firstn (Z.to_nat lim) (skipn (Z.to_nat off) rows), db)
       | _, _, _ => None
       end
  else None.

Definition list_jobs (cred : option AuthUser) (raw : RawListQuery)
  : Handler (list JobListing * Pagination) :=
  user <- authenticateToken cred ;;
  requireRole ["admin"] user ;;;
  q <- validate listQuery raw ;;
  catching
    (let offset := (q_page q - 1) * q_limit q in
     let '(status_at, queryParams, paramCount) :=
       match q_status q with
       | Some s => (Some 1%nat, [PText s], 1%nat)
       | None => (None, [], 0%nat)
       end in
     totalCount <- query (SELECT_COUNT_jobs status_at queryParams) ;;
     jobsResult <- query (SELECT_jobs_page status_at (q_sort q) (q_order q)
                            (paramCount + 1) (paramCount + 2)
                            (queryParams ++ [PInt (q_limit q);
                                             PInt offset])) ;;
     let totalPages := ceil_div totalCount (q_limit q) in
     ret (jobsResult,
          mkPagination (q_page q) totalPages totalCount (q_limit q)
                       (q_page q <? totalPages) (1 <? q_page q)))
    "GET_JOBS_ERROR".

End ReadRoutes.

(** ** Sequences of calls *)

Section Traces.

Variable is_uuid : string -> bool.
Variable uuid_in : string -> option uuid.
Variable ILIKE : string -> string -> bool.
Variable collate_leb : string -> string -> bool.
Variable tie : VideoListing -> VideoListing -> bool.
Variable extname : string -> string.

(** The world after the server has answered the calls one after another. *)
Fixpoint serve_all (calls : list Call) (w : World) : World :=
  match calls with
  | [] => w
  | c :: rest =>
      serve_all rest
        (snd (respond (serve is_uuid uuid_in ILIKE collate_leb tie extname c)
                      w))
  end.

End Traces.

(** Every column of a job row that the routes write holds a value of its
    domain. *)
Definition job_in_range (j : Job.row) : Prop :=
  includes validStatuses (Job.status j) = true
  /\ includes job_types (Job.job_type j) = true
  /\ 1 <= Job.priority j <= 10
  /\ 0 <= Job.progress j <= 100.

Definition jobs_in_range (w : World) : Prop :=
  forall j, In j (processing_jobs (pool w)) -> job_in_range j.

(** No job row without its video. *)
Definition jobs_reference_videos (w : World) : Prop :=
  forall j, In j (processing_jobs (pool w)) ->
            video_exists (Job.video_id j) (pool w) = true.

Definition video_in_range (v : Video.row) : Prop :=
  includes video_statuses (Video.status v) = true
  /\ includes privacies (Video.privacy v) = true.

Definition videos_in_range (w : World) : Prop :=
  forall v, In v (videos (pool w)) -> video_in_range v.

(** The rows of the videos table that a listing by [cred] with the status
    filter [status] counts. *)
Definition listed (cred : option AuthUser) (status : option string)
    (w : World) : list Video.row :=
  filter (fun v =>
            match cred with
            | None => Video.privacy v === "public"
            | Some u => (Video.privacy v === "public")
                        || (Video.user_id v === au_id u)
            end
            && match status with
               | None => true
               | Some s => Video.status v === s
               end)
         (videos (pool w)).

(** ** Helper lemmas *)

#[local] Arguments String.eqb : simpl never.

Lemma world_eta (w : World) :
  mkWorld (pool w) (video_processing_queue w) = w.
Proof. destruct w; reflexivity. Qed.

Lemma db_eta (db : Db) :
  mkDb (users db) (videos db) (video_tags db) (processing_jobs db) = db.
Proof. destruct db; reflexivity. Qed.

Lemma assign_job_id NOW j a : Job.id (assign_job NOW j a) = Job.id j.
Proof.
  destruct j, a; try reflexivity.
  cbn [assign_job]. destruct (integer_in p); reflexivity.
Qed.

Lemma SET_job_id NOW fields j : Job.id (SET_job NOW fields j) = Job.id j.
Proof.
  unfold SET_job. revert j.
  induction fields as [|a fields IH]; intros j; simpl.
  - reflexivity.
  - rewrite IH. apply assign_job_id.
Qed.

Lemma assign_video_id v a : Video.id (assign_video v a) = Video.id v.
Proof. destruct v, a; reflexivity. Qed.

Lemma fold_assign_video_id fields v :
  Video.id (fold_left assign_video fields v) = Video.id v.
Proof.
  revert v. induction fields as [|a fields IH]; intros v; simpl.
  - reflexivity.
  - rewrite IH. apply assign_video_id.
Qed.

(** Selecting by key after a keyed update is updating what was selected. *)
Lemma filter_update_key {A} (key : A -> string) (f : A -> A) (k : string)
    (l : list A) :
  (forall x, key (f x) = key x) ->
  filter (fun x => key x === k)
         (map (fun x => if key x === k then f x else x) l)
  = map f (filter (fun x => key x === k) l).
Proof.
  intros Hkey. induction l as [|x l IH]; simpl.
  - reflexivity.
  - destruct (key x === k) eqn:E.
    + rewrite Hkey, E. simpl. now rewrite IH.
    + rewrite E. exact IH.
Qed.

(** Selecting another key is unaffected by the update. *)
Lemma filter_update_other {A} (key : A -> string) (f : A -> A)
    (k k' : string) (l : list A) :
  (forall x, key (f x) = key x) ->
  (k === k') = false ->
  filter (fun x => key x === k')
         (map (fun x => if key x === k then f x else x) l)
  = filter (fun x => key x === k') l.
Proof.
  intros Hkey Hne. induction l as [|x l IH]; simpl.
  - reflexivity.
  - destruct (key x === k) eqn:E.
    + rewrite Hkey. apply String.eqb_eq in E. rewrite E, Hne. exact IH.
    + destruct (key x === k'); now rewrite IH.
Qed.

Lemma hd_error_map {A B} (f : A -> B) (l : list A) :
  hd_error (map f l) = option_map f (hd_error l).
Proof. destruct l; reflexivity. Qed.

Lemma find_job_rows jid w :
  match find_job jid w with
  | None => filter (fun j => Job.id j === jid) (processing_jobs (pool w)) = []
  | Some j => exists rest,
      filter (fun j => Job.id j === jid) (processing_jobs (pool w)) = j :: rest
  end.
Proof.
  unfold find_job.
  destruct (filter _ _) as [|j rest]; simpl; eauto.
Qed.


Lemma find_video_rows vid w :
  match find_video vid w with
  | None => filter (fun v => Video.id v === vid) (videos (pool w)) = []
  | Some v => exists rest,
      filter (fun v => Video.id v === vid) (videos (pool w)) = v :: rest
  end.
Proof.
  unfold find_video.
  destruct (filter _ _) as [|v rest]; simpl; eauto.
Qed.

Lemma find_video_exists vid w v :
  find_video vid w = Some v ->
  Video.id v = vid /\ video_exists vid (pool w) = true
  /\ In v (videos (pool w)).
Proof.
  intros H. pose proof (find_video_rows vid w) as Hrows. rewrite H in Hrows.
  destruct Hrows as [rest Hrows].
  assert (Hin : In v (filter (fun v => Video.id v === vid) (videos (pool w))))
    by (rewrite Hrows; now left).
  apply filter_In in Hin. destruct Hin as [Hin Hid].
  repeat split; [now apply String.eqb_eq|  |exact Hin].
  unfold video_exists. apply existsb_exists. eauto.
Qed.

(** On a route whose path names its segment [id]. *)
Lemma uuidParam_id is_uuid id :
  uuidParam is_uuid [("id", id)] = if is_uuid id then Some id else None.
Proof. reflexivity. Qed.

(** On the route whose path names it [userId]: the required key is
    missing. *)
Lemma uuidParam_userId is_uuid userId :
  uuidParam is_uuid [("userId", userId)] = None.
Proof. reflexivity. Qed.

(** The test every owner-or-admin gate performs. *)
Lemma authorization_test (owner : option uuid) (u : AuthUser) :
  nullable_neq owner (au_id u) && (au_role u !== "admin")
  = negb (owns u owner || is_admin u).
Proof.
  unfold nullable_neq, owns, is_admin.
  destruct owner; simpl; now rewrite ?negb_orb.
Qed.

Lemma SET_updateFields NOW status body j :
  SET_job NOW (updateFields status body) j = updated_row NOW status body j.
Proof.
  unfold updateFields, updated_row, stored_progress, clamped.
  destruct j, body as [st [p|] [m|] [d|]], (status === "completed");
    cbn [sb_progress sb_error_message sb_result_data app SET_job fold_left
         assign_job];
    try reflexivity;
    destruct (integer_in _); reflexivity.
Qed.

(** The [UPDATE] of the status route is refused exactly for a progress that
    does not clamp to a whole number. *)
Lemma updateFields_readable status body :
  forallb readable (updateFields status body) = progress_readable body.
Proof.
  unfold updateFields, progress_readable, clamped.
  destruct body as [st [p|] [m|] [d|]], (status === "completed");
    cbn [sb_progress sb_error_message sb_result_data app forallb readable
         andb];
    try reflexivity;
    destruct (integer_in _); reflexivity.
Qed.

(** A statement on a parameter that denotes a uuid runs on that uuid. *)
Lemma uuid_param_run {A} uuid_in id k
    (stmt : uuid -> Db -> option (A * Db)) db :
  uuid_in id = Some k -> uuid_param uuid_in id stmt db = stmt k db.
Proof. unfold uuid_param. now intros ->. Qed.

Lemma uuid_param_refused {A} uuid_in id
    (stmt : uuid -> Db -> option (A * Db)) db :
  uuid_in id = None -> uuid_param uuid_in id stmt db = None.
Proof. unfold uuid_param. now intros ->. Qed.

Lemma cancel_SET NOW j :
  SET_job NOW [status_eq "cancelled"; updated_at_NOW] j = cancelled_at NOW j.
Proof. destruct j; reflexivity. Qed.


Lemma requested_status_valid body s :
  requested_status body = Some s -> includes validStatuses s = true.
Proof.
  unfold requested_status. destruct (sb_status body) as [s'|]; [|discriminate].
  destruct (includes validStatuses s') eqn:E; [|discriminate].
  now intros [= <-].
Qed.

Lemma jobs_with_owner_rows uuid_in id jid w :
  uuid_in id = Some jid ->
  exists rows,
    SELECT_jobs_with_owner uuid_in id (pool w) = Some (rows, pool w)
    /\ match find_job jid w with
       | None => rows = []
       | Some j => exists rest, rows = (j, job_owner j w) :: rest
       end.
Proof.
  intros Hid. unfold SELECT_jobs_with_owner.
  rewrite (uuid_param_run _ _ _ _ _ Hid).
  eexists. split; [reflexivity|].
  pose proof (find_job_rows jid w) as H.
  destruct (find_job jid w) as [j|].
  - destruct H as [rest ->]. simpl.
    unfold job_owner, find_video.
    destruct (filter _ (videos (pool w))) as [|v vs]; simpl; eauto.
  - now rewrite H.
Qed.

(** ** What each route computes *)

Lemma update_status_run is_uuid uuid_in u id body clk w :
  respond (update_status is_uuid uuid_in (Some u) id body clk) w
  = if is_uuid id then
      match requested_status body with
      | None => (Error 400 "INVALID_STATUS", w)
      | Some s =>
          match uuid_in id with
          | None => (Error 500 "UPDATE_JOB_STATUS_ERROR", w)
          | Some k =>
              match find_job k w with
              | None => (Error 404 "JOB_NOT_FOUND", w)
              | Some j =>
                  if progress_readable body
                  then
                    (Json 200 (JobBody "Job status updated successfully"
                                 (Some (updated_row (NOW clk) s body j))),
                     mkWorld
                       (mkDb (users (pool w))
                             (propagated (NOW clk) s j (videos (pool w)))
                             (video_tags (pool w))
                             (map (fun x =>
                                     if Job.id x === k
                                     then updated_row (NOW clk) s body x
                                     else x)
                                  (processing_jobs (pool w))))
                       (video_processing_queue w))
                  else (Error 500 "UPDATE_JOB_STATUS_ERROR", w)
              end
          end
      end
    else (Error 400 "VALIDATION_ERROR", w).
Proof.
  unfold update_status, requested_status.
  cbv [respond bind ret send try_catch validate authenticateToken].
  rewrite uuidParam_id.
  destruct (is_uuid id); [|reflexivity].
  destruct (sb_status body) as [s|]; [|reflexivity].
  destruct (includes validStatuses s); [|reflexivity].
  cbv [query SELECT_jobs_by_id UPDATE_processing_jobs UPDATE_videos_status
       uuid_param].
  destruct (uuid_in id) as [k|]; [|reflexivity].
  cbn [pool video_processing_queue processing_jobs videos users video_tags].
  pose proof (find_job_rows k w) as Hsel.
  destruct (find_job k w) as [j|].
  - destruct Hsel as [rest Hsel]. rewrite Hsel.
    cbn [pool video_processing_queue processing_jobs videos users video_tags].
    rewrite updateFields_readable.
    destruct (progress_readable body); [|now rewrite world_eta].
    rewrite (filter_update_key Job.id
               (SET_job (NOW clk) (updateFields s body)) k)
      by (intros; apply SET_job_id).
    rewrite Hsel. cbn [map hd_error]. rewrite SET_updateFields.
    rewrite (map_ext _ (fun x => if Job.id x === k
                                 then updated_row (NOW clk) s body x else x))
      by (intros x; now rewrite SET_updateFields).
    unfold propagated.
    destruct ((s === "completed") && (Job.job_type j === "encoding"));
      [reflexivity|].
    destruct (s === "failed"); [reflexivity|].
    destruct w as [[us vs ts js] q]; reflexivity.
  - rewrite Hsel. now rewrite world_eta.
Qed.

Lemma cancel_job_run is_uuid uuid_in u id clk w :
  respond (cancel_job is_uuid uuid_in (Some u) id clk) w
  = if is_uuid id then
      match uuid_in id with
      | None => (Error 500 "CANCEL_JOB_ERROR", w)
      | Some k =>
          match find_job k w with
          | None => (Error 404 "JOB_NOT_FOUND", w)
          | Some j =>
              if negb (owns u (job_owner j w) || is_admin u)
              then (Error 403 "NOT_AUTHORIZED", w)
              else if includes ["completed"; "failed"; "cancelled"]
                               (Job.status j)
              then (Error 400 "CANNOT_CANCEL_JOB", w)
              else (Json 200 (JobBody "Job cancelled successfully"
                                      (Some (cancelled_at (NOW clk) j))),
                    mkWorld
                      (mkDb (users (pool w)) (videos (pool w))
                            (video_tags (pool w))
                            (map (fun x =>
                                    if Job.id x === k
                                    then cancelled_at (NOW clk) x else x)
                                 (processing_jobs (pool w))))
                      (video_processing_queue w))
          end
      end
    else (Error 400 "VALIDATION_ERROR", w).
Proof.
  unfold cancel_job.
  cbv [respond bind ret send when_send try_catch validate authenticateToken].
  rewrite uuidParam_id.
  destruct (is_uuid id); [|reflexivity].
  unfold query at 1.
  destruct (uuid_in id) as [k|] eqn:Hk.
  2:{ unfold SELECT_jobs_with_owner.
      now rewrite (uuid_param_refused _ _ _ _ Hk). }
  destruct (jobs_with_owner_rows uuid_in id k w Hk) as (rows & -> & Hrows).
  rewrite world_eta.
  pose proof (find_job_rows k w) as Hsel.
  destruct (find_job k w) as [j|].
  - destruct Hrows as [rest ->]. destruct Hsel as [rest' Hsel].
    rewrite authorization_test.
    destruct (negb (owns u (job_owner j w) || is_admin u)); [reflexivity|].
    destruct (includes ["completed"; "failed"; "cancelled"] (Job.status j));
      [reflexivity|].
    cbv [query UPDATE_processing_jobs uuid_param]. rewrite Hk.
    cbn [pool video_processing_queue processing_jobs videos users video_tags
         forallb readable andb].
    rewrite (filter_update_key Job.id
               (SET_job (NOW clk) [status_eq "cancelled"; updated_at_NOW]) k)
      by (intros; apply SET_job_id).
    rewrite Hsel. cbn [map hd_error]. rewrite cancel_SET.
    rewrite (map_ext _ (fun x => if Job.id x === k
                                 then cancelled_at (NOW clk) x else x))
      by (intros x; now rewrite cancel_SET).
    reflexivity.
  - subst rows. reflexivity.
Qed.

Lemma create_job_run is_uuid uuid_in u raw jobId clk redis w :
  respond (create_job is_uuid uuid_in (Some u) raw jobId clk redis) w
  = match processingJob is_uuid raw with
    | None => (Error 400 "VALIDATION_ERROR", w)
    | Some body =>
        match uuid_in (in_video_id body) with
        | None => (Error 500 "CREATE_JOB_ERROR", w)
        | Some vid =>
            match find_video vid w with
            | None => (Error 404 "VIDEO_NOT_FOUND", w)
            | Some video =>
                if negb (owns u (Some (Video.user_id video)) || is_admin u)
                then (Error 403 "NOT_AUTHORIZED", w)
                else if Video.status video === "failed"
                then (Error 400 "INVALID_VIDEO_STATUS", w)
                else if job_exists jobId (pool w)
                then (Error 500 "CREATE_JOB_ERROR", w)
                else if redis
                then (Json 201 (JobBody "Processing job created successfully"
                                  (Some (new_job vid body jobId clk))),
                      mkWorld (mkDb (users (pool w)) (videos (pool w))
                                    (video_tags (pool w))
                                    (processing_jobs (pool w)
                                       ++ [new_job vid body jobId clk]))
                              (new_descriptor body jobId clk
                                 :: video_processing_queue w))
                else (Error 500 "CREATE_JOB_ERROR",
                      mkWorld (mkDb (users (pool w)) (videos (pool w))
                                    (video_tags (pool w))
                                    (processing_jobs (pool w)
                                       ++ [new_job vid body jobId clk]))
                              (video_processing_queue w))
            end
        end
    end.
Proof.
  unfold create_job.
  cbv [respond bind ret send when_send try_catch validate authenticateToken].
  destruct (processingJob is_uuid raw) as [body|]; [|reflexivity].
  cbv [query SELECT_videos_by_id uuid_param lPush].
  destruct (uuid_in (in_video_id body)) as [vid|]; [|reflexivity].
  rewrite world_eta.
  pose proof (find_video_rows vid w) as Hsel.
  destruct (find_video vid w) as [video|] eqn:Hv.
  - destruct Hsel as [rest ->].
    rewrite <- (authorization_test (Some (Video.user_id video)) u).
    cbn [nullable_neq].
    destruct ((Video.user_id video !== au_id u) && (au_role u !== "admin"));
      [reflexivity|].
    destruct (Video.status video === "failed"); [reflexivity|].
    unfold INSERT_processing_job. cbn [Job.id Job.video_id].
    destruct (job_exists jobId (pool w)); [reflexivity|].
    destruct (find_video_exists _ _ _ Hv) as (_ & -> & _).
    cbn [negb pool video_processing_queue].
    destruct redis; reflexivity.
  - rewrite Hsel. reflexivity.
Qed.

Lemma tags_refused (updates : VideoPatch) now :
  existsb is_tags_eq (patch_fields updates ++ [updated_at_eq now])
  = match p_tags updates with
    | Some _ => true
    | None => false
    end.
Proof.
  unfold patch_fields, entry.
  destruct updates as [[t|] [d|] [g|] [p|] [s|]]; reflexivity.
Qed.

Lemma no_update_fields (updates : VideoPatch) :
  Nat.eqb (List.length (patch_fields updates)) 0
  = match p_title updates, p_description updates, p_tags updates,
          p_privacy updates, p_status updates with
    | None, None, None, None, None => true
    | _, _, _, _, _ => false
    end.
Proof.
  unfold patch_fields, entry.
  destruct updates as [[t|] [d|] [g|] [p|] [s|]]; reflexivity.
Qed.

Lemma patched_row_status updates now v :
  Video.status (patched_row updates now v)
  = match p_status updates with
    | Some s => s
    | None => Video.status v
    end.
Proof.
  unfold patched_row, patch_fields, entry.
  destruct v, updates as [[t|] [d|] [g|] [p|] [s|]]; reflexivity.
Qed.

Lemma update_video_run is_uuid uuid_in u id patch clk w :
  respond (update_video is_uuid uuid_in (Some u) id patch clk) w
  = if is_uuid id then
      match videoUpdate patch with
      | None => (Error 400 "VALIDATION_ERROR", w)
      | Some updates =>
          match uuid_in id with
          | None => (Error 500 "UPDATE_ERROR", w)
          | Some k =>
              match find_video k w with
              | None => (Error 404 "VIDEO_NOT_FOUND", w)
              | Some video =>
                  if negb (owns u (Some (Video.user_id video)) || is_admin u)
                  then (Error 403 "NOT_AUTHORIZED", w)
                  else if Nat.eqb (List.length (patch_fields updates)) 0
                  then (Error 400 "NO_UPDATE_FIELDS", w)
                  else
                    match p_tags updates with
                    | Some _ => (Error 500 "UPDATE_ERROR", w)
                    | None =>
                        (Json 200 (VideoBody "Video updated successfully"
                                     (Some (patched_row updates (Date_now clk)
                                                        video))),
                         mkWorld
                           (mkDb (users (pool w))
                                 (map (fun v =>
                                         if Video.id v === k
                                         then patched_row updates
                                                (Date_now clk) v
                                         else v)
                                      (videos (pool w)))
                                 (video_tags (pool w))
                                 (processing_jobs (pool w)))
                           (video_processing_queue w))
                    end
              end
          end
      end
    else (Error 400 "VALIDATION_ERROR", w).
Proof.
  unfold update_video.
  cbv [respond bind ret send when_send try_catch validate authenticateToken].
  rewrite uuidParam_id.
  destruct (is_uuid id); [|reflexivity].
  destruct (videoUpdate patch) as [updates|]; [|reflexivity].
  cbv [query SELECT_videos_by_id UPDATE_videos uuid_param].
  destruct (uuid_in id) as [k|]; [|reflexivity].
  rewrite world_eta.
  pose proof (find_video_rows k w) as Hsel.
  destruct (find_video k w) as [video|].
  - destruct Hsel as [rest Hsel]. rewrite Hsel.
    rewrite <- (authorization_test (Some (Video.user_id video)) u).
    cbn [nullable_neq].
    destruct ((Video.user_id video !== au_id u) && (au_role u !== "admin"));
      [reflexivity|].
    destruct (Nat.eqb (List.length (patch_fields updates)) 0); [reflexivity|].
    rewrite tags_refused.
    destruct (p_tags updates); [reflexivity|].
    cbn [pool video_processing_queue processing_jobs videos users video_tags].
    fold (patched_row updates (Date_now clk)).
    rewrite (filter_update_key Video.id
               (patched_row updates (Date_now clk)) k)
      by (intros; apply fold_assign_video_id).
    rewrite Hsel. reflexivity.
  - rewrite Hsel. reflexivity.
Qed.

Lemma no_reference_left vid (jobs : list Job.row) :
  existsb (fun j => Job.video_id j === vid)
          (filter (fun j => Job.video_id j !== vid) jobs) = false.
Proof.
  induction jobs as [|j jobs IH]; simpl; [reflexivity|].
  destruct (Job.video_id j === vid) eqn:E; simpl; [exact IH|].
  now rewrite E.
Qed.

Lemma delete_video_run is_uuid uuid_in u id w :
  respond (delete_video is_uuid uuid_in (Some u) id) w
  = if is_uuid id then
      match uuid_in id with
      | None => (Error 500 "DELETE_ERROR", w)
      | Some k =>
          match find_video k w with
          | None => (Error 404 "VIDEO_NOT_FOUND", w)
          | Some video =>
              if negb (owns u (Some (Video.user_id video)) || is_admin u)
              then (Error 403 "NOT_AUTHORIZED", w)
              else (Json 200 (MessageBody "Video deleted successfully"),
                    mkWorld
                      (mkDb (users (pool w))
                            (filter (fun v => Video.id v !== k)
                                    (videos (pool w)))
                            (filter (fun t => fst t !== k)
                                    (video_tags (pool w)))
                            (filter (fun j => Job.video_id j !== k)
                                    (processing_jobs (pool w))))
                      (video_processing_queue w))
          end
      end
    else (Error 400 "VALIDATION_ERROR", w).
Proof.
  unfold delete_video.
  cbv [respond bind ret send when_send try_catch validate authenticateToken
       transaction].
  rewrite uuidParam_id.
  destruct (is_uuid id); [|reflexivity].
  cbv [query SELECT_videos_by_id DELETE_video_tags DELETE_processing_jobs
       DELETE_video uuid_param].
  destruct (uuid_in id) as [k|]; [|reflexivity].
  rewrite world_eta.
  pose proof (find_video_rows k w) as Hsel.
  destruct (find_video k w) as [video|].
  - destruct Hsel as [rest Hsel]. rewrite Hsel.
    rewrite <- (authorization_test (Some (Video.user_id video)) u).
    cbn [nullable_neq].
    destruct ((Video.user_id video !== au_id u) && (au_role u !== "admin"));
      [reflexivity|].
    cbn [pool video_processing_queue processing_jobs videos users video_tags].
    rewrite no_reference_left. reflexivity.
  - rewrite Hsel. reflexivity.
Qed.

(** ** The listing query *)

Lemma In_insert_sorted {A} (leb : A -> A -> bool) x y l :
  In x (insert_sorted leb y l) -> x = y \/ In x l.
Proof.
  induction l as [|z l IH]; simpl.
  - intros [<-|[]]. now left.
  - destruct (leb y z); simpl.
    + intros [<-|H]; [now left|now right].
    + intros [<-|H]; [right; now left|].
      destruct (IH H) as [->|H']; [now left|right; now right].
Qed.

Lemma In_sort_by {A} (leb : A -> A -> bool) x l :
  In x (sort_by leb l) -> In x l.
Proof.
  induction l as [|y l IH]; simpl; [easy|].
  intros H. apply In_insert_sorted in H. destruct H as [->|H]; auto.
Qed.

Lemma In_page {A} (n m : nat) (x : A) l :
  In x (firstn n (skipn m l)) -> In x l.
Proof.
  intros H.
  rewrite <- (firstn_skipn m l). apply in_or_app. right.
  rewrite <- (firstn_skipn n (skipn m l)). apply in_or_app. now left.
Qed.

Lemma In_LEFT_JOIN_users db vs row :
  In row (LEFT_JOIN_users db vs) -> In (l_video row) vs.
Proof.
  unfold LEFT_JOIN_users. intros H. apply in_flat_map in H.
  destruct H as (v & Hv & Hrow).
  destruct (filter _ (users db)) as [|u us].
  - destruct Hrow as [<-|[]]. exact Hv.
  - apply in_map_iff in Hrow. destruct Hrow as (u' & <- & _). exact Hv.
Qed.

Lemma listQuery_bounds raw q :
  listQuery raw = Some q ->
  1 <= q_page q /\ 1 <= q_limit q <= 100.
Proof.
  unfold listQuery.
  destruct (_ && _) eqn:E; [|discriminate].
  intros [= <-]. cbn [q_page q_limit].
  repeat (apply andb_prop in E; destruct E as [E ?]).
  lia.
Qed.

(** The first condition of every [WHERE] clause the route builds. *)
Lemma privacy_filter_visible ILIKE cred params v :
  holds ILIKE params v
        (match cred with
         | None => privacy_is_public
         | Some _ => privacy_is_public_or_user_id 1
         end) = true ->
  match cred with
  | None => True
  | Some u => param_text params 1 = Some (au_id u)
  end ->
  visible_to cred v.
Proof.
  unfold visible_to. destruct cred as [u|]; cbn [holds].
  - intros H Hp. rewrite Hp in H. apply orb_prop in H.
    destruct H as [H|H]; apply String.eqb_eq in H; eauto.
  - intros H _. apply String.eqb_eq in H. now left.
Qed.

Lemma page_rows ILIKE collate_leb tie db whereClause params sort order n m row :
  In row (firstn n (skipn m
            (ORDER_BY collate_leb tie sort order
               (LEFT_JOIN_users db
                  (filter (WHERE ILIKE whereClause params) (videos db)))))) ->
  In (l_video row) (videos db)
  /\ WHERE ILIKE whereClause params (l_video row) = true.
Proof.
  intros H.
  unfold ORDER_BY, order_by in H.
  now apply In_page, In_sort_by, In_LEFT_JOIN_users, filter_In in H.
Qed.

Lemma page_length {A} (limit : Z) (l : list A) :
  1 <= limit -> Z.of_nat (List.length (firstn (Z.to_nat limit) l)) <= limit.
Proof.
  intros H. pose proof (firstn_le_length (Z.to_nat limit) l). lia.
Qed.

(** The per-user listing never gets past its parameter schema. *)
Lemma list_user_videos_refused is_uuid ILIKE collate_leb tie cred userId raw w :
  respond (list_user_videos is_uuid ILIKE collate_leb tie cred userId raw) w
  = (Error 400 "VALIDATION_ERROR", w).
Proof.
  unfold list_user_videos.
  cbv [respond bind ret send validate optionalAuth].
  now rewrite uuidParam_userId.
Qed.

(** Its route function, were it reached, returns videos of the named user
    that are public or the caller's own. *)
Lemma user_videos_handler_scoped ILIKE collate_leb tie user userId q w r w' :
  respond (user_videos_handler ILIKE collate_leb tie user userId q) w
  = (r, w') ->
  is_success r = true ->
  exists rows pagination,
    r = Json 200 (VideosBody rows pagination)
    /\ forall row, In row rows ->
         In (l_video row) (videos (pool w))
         /\ Video.user_id (l_video row) = userId
         /\ visible_to user (l_video row).
Proof.
  intros Hrun Hok. unfold user_videos_handler in Hrun.
  cbv [respond bind ret send try_catch] in Hrun.
  destruct q as [page limit sort order status search].
  cbn [q_page q_limit q_sort q_order q_status q_search] in *.
  unfold add_public_unless_own in Hrun.
  destruct user as [u|]; [destruct (au_id u === userId) eqn:Hown|];
    cbn [negb] in Hrun;
    destruct status as [status|];
    cbv [add_status_filter query SELECT_COUNT_videos SELECT_videos_page]
      in Hrun;
    cbn [app flat_map placeholders binds List.length seq forallb existsb
         Nat.eqb Nat.add andb orb param_int nth_error Nat.sub pool
         video_processing_queue] in Hrun;
    inversion Hrun; subst r w'; clear Hrun;
    do 2 eexists; (split; [reflexivity|]);
    intros row Hrow; apply page_rows in Hrow; destruct Hrow as [Hin Hwhere];
    unfold WHERE in Hwhere; cbn [forallb holds param_text nth_error Nat.sub]
      in Hwhere;
    repeat (apply andb_prop in Hwhere; destruct Hwhere as [? Hwhere]);
    repeat match goal with
           | H : (_ === _) = true |- _ => apply String.eqb_eq in H
           end;
    (split; [exact Hin|split; [assumption|]]);
    unfold visible_to.
  1, 2: right; exists u; split; [reflexivity|congruence].
  all: now left.
Qed.

(** C9 (as amended): every row that a video listing returns, on
    [GET /api/videos] or on [GET /api/videos/user/:userId], is a row of the
    videos table that is public or owned by the caller; an unauthenticated
    caller therefore receives public videos only, and an admin who is not
    the owner receives no private or unlisted video of another user.  The
    page size is between 1 and 100 and bounds the number of rows; the
    routes write nothing. *)
Theorem C9_listing_scoped_to_public_or_owner :
  forall is_uuid ILIKE collate_leb tie cred raw w r w',
    respond (list_videos ILIKE collate_leb tie cred raw) w = (r, w')
    \/ (exists userId,
          respond (list_user_videos is_uuid ILIKE collate_leb tie cred userId
                                    raw) w = (r, w')) ->
    is_success r = true ->
    exists rows pagination,
      r = Json 200 (VideosBody rows pagination)
      /\ (forall row, In row rows ->
            In (l_video row) (videos (pool w))
            /\ visible_to cred (l_video row))
      /\ 1 <= per_page pagination <= 100
      /\ Z.of_nat (List.length rows) <= per_page pagination
      /\ w' = w.
Proof.
  intros is_uuid ILIKE collate_leb tie cred raw w r w' [Hrun|[userId Hrun]] Hok.
  2:{ rewrite list_user_videos_refused in Hrun.
      inversion Hrun; subst; discriminate. }
  unfold list_videos in Hrun.
  cbv [respond bind ret send try_catch validate optionalAuth] in Hrun.
  destruct (listQuery raw) as [q|] eqn:Hq;
    [|inversion Hrun; subst; discriminate].
  destruct (listQuery_bounds _ _ Hq) as [Hpage Hlimit].
  destruct q as [page limit sort order status search].
  cbn [q_page q_limit q_sort q_order q_status q_search] in *.
  destruct search as [search|].
  { (* the search branch leaves a gap in the placeholders *)
    destruct cred as [u|], status as [status|];
      cbv [add_privacy_filter add_status_filter add_search_filter query
           SELECT_COUNT_videos SELECT_videos_page] in Hrun;
      cbn in Hrun; inversion Hrun; subst; discriminate. }
  destruct cred as [u|], status as [status|];
    cbv [add_privacy_filter add_status_filter add_search_filter query
         SELECT_COUNT_videos SELECT_videos_page] in Hrun;
    cbn [app flat_map placeholders binds List.length seq forallb existsb
         Nat.eqb Nat.add andb orb param_int nth_error Nat.sub pool
         video_processing_queue] in Hrun.
  all: inversion Hrun; subst r w'; clear Hrun.
  all: do 2 eexists; split; [reflexivity|]; cbn [per_page].
  all: split; [|split; [lia|split; [now apply page_length|apply world_eta]]].
  all: intros row Hrow; apply page_rows in Hrow; destruct Hrow as [Hin Hwhere].
  all: split; [exact Hin|].
  all: unfold WHERE in Hwhere; cbn [forallb] in Hwhere.
  all: apply andb_prop in Hwhere; destruct Hwhere as [Hfirst _].
  - exact (privacy_filter_visible ILIKE (Some u) _ _ Hfirst eq_refl).
  - exact (privacy_filter_visible ILIKE (Some u) _ _ Hfirst eq_refl).
  - exact (privacy_filter_visible ILIKE None _ _ Hfirst I).
  - exact (privacy_filter_visible ILIKE None _ _ Hfirst I).
Qed.

(** The listing route writes nothing. *)
Lemma list_videos_reads_only ILIKE collate_leb tie cred raw w :
  snd (respond (list_videos ILIKE collate_leb tie cred raw) w) = w.
Proof.
  unfold list_videos.
  cbv [respond bind ret send try_catch validate optionalAuth].
  destruct (listQuery raw) as [q|]; [|reflexivity].
  destruct q as [page limit sort order status search].
  cbn [q_page q_limit q_sort q_order q_status q_search].
  destruct cred as [u|], status as [status|], search as [search|];
    cbv [add_privacy_filter add_status_filter add_search_filter query
         SELECT_COUNT_videos SELECT_videos_page];
    cbn [app flat_map placeholders binds List.length seq forallb existsb
         Nat.eqb Nat.add andb orb param_int nth_error Nat.sub pool
         video_processing_queue snd];
    apply world_eta.
Qed.

(** With a [search] parameter the page query names [$n+1] and [$n+2] after
    skipping a position, so the database refuses it and the route answers
    500. *)
Lemma list_videos_search_refused ILIKE collate_leb tie cred raw q s w :
  listQuery raw = Some q ->
  q_search q = Some s ->
  fst (respond (list_videos ILIKE collate_leb tie cred raw) w)
  = Error 500 "GET_VIDEOS_ERROR".
Proof.
  intros Hq Hs. unfold list_videos.
  cbv [respond bind ret send try_catch validate optionalAuth].
  rewrite Hq. destruct q as [page limit sort order status search].
  cbn [q_page q_limit q_sort q_order q_status q_search] in *. subst search.
  destruct cred as [u|], status as [status|];
    cbv [add_privacy_filter add_status_filter add_search_filter query
         SELECT_COUNT_videos SELECT_videos_page];
    cbn [app flat_map placeholders binds List.length seq forallb existsb
         Nat.eqb Nat.add andb orb param_int nth_error Nat.sub pool
         video_processing_queue snd];
    reflexivity.
Qed.

(** Without one, every valid query is answered. *)
Lemma list_videos_answers ILIKE collate_leb tie cred raw q w :
  listQuery raw = Some q ->
  q_search q = None ->
  is_success (fst (respond (list_videos ILIKE collate_leb tie cred raw) w))
  = true.
Proof.
  intros Hq Hs. unfold list_videos.
  cbv [respond bind ret send try_catch validate optionalAuth].
  rewrite Hq. destruct q as [page limit sort order status search].
  cbn [q_page q_limit q_sort q_order q_status q_search] in *. subst search.
  destruct cred as [u|], status as [status|];
    cbv [add_privacy_filter add_status_filter add_search_filter query
         SELECT_COUNT_videos SELECT_videos_page];
    cbn [app flat_map placeholders binds List.length seq forallb existsb
         Nat.eqb Nat.add andb orb param_int nth_error Nat.sub pool
         video_processing_queue snd];
    reflexivity.
Qed.

(** ** Upload *)

Lemma upload_video_run
    extname u part raw fileName videoId jobId clk redis w :
  respond (upload_video extname (Some u) part raw fileName videoId jobId clk
                        redis) w
  = match part with
    | None =>
        match videoUpload raw with
        | None => (Error 400 "VALIDATION_ERROR", w)
        | Some _ => (Error 400 "FILE_REQUIRED", w)
        end
    | Some file =>
        if negb (fileFilter extname file)
        then (Error 400 "INVALID_FILE_TYPE", w)
        else if 500 * 1024 * 1024 <? size file
        then (Error 413 "FILE_TOO_LARGE", w)
        else
          match videoUpload raw with
          | None => (Error 400 "VALIDATION_ERROR", w)
          | Some body =>
              let path := ("uploads/videos/" ++ fileName
                             ++ extname (originalname file))%string in
              let video := Video.mk videoId (au_id u) (up_title body)
                             (up_description body) path (size file)
                             (originalname file) (up_privacy body) "pending"
                             (NOW clk) (NOW clk) in
              let tags := video_tags (pool w)
                          ++ map (fun tag => (videoId, tag))
                               match up_tags body with
                               | Some tags => tags
                               | None => []
                               end in
              if video_exists videoId (pool w)
                 || negb (user_exists (au_id u) (pool w))
              then (Error 500 "UPLOAD_ERROR", w)
              else if job_exists jobId (pool w)
              then (Error 500 "UPLOAD_ERROR",
                    mkWorld (mkDb (users (pool w))
                                  (videos (pool w) ++ [video]) tags
                                  (processing_jobs (pool w)))
                            (video_processing_queue w))
              else if redis
              then (Json 201 (UploadBody "Video uploaded successfully"
                                         (Some video) jobId),
                    mkWorld (mkDb (users (pool w))
                                  (videos (pool w) ++ [video]) tags
                                  (processing_jobs (pool w)
                                     ++ [initial_job videoId jobId clk]))
                            (initial_descriptor videoId jobId path clk
                               :: video_processing_queue w))
              else (Error 500 "UPLOAD_ERROR",
                    mkWorld (mkDb (users (pool w))
                                  (videos (pool w) ++ [video]) tags
                                  (processing_jobs (pool w)
                                     ++ [initial_job videoId jobId clk]))
                            (video_processing_queue w))
          end
    end.
Proof.
  unfold upload_video, upload_single.
  cbv [respond bind ret send try_catch validate authenticateToken].
  destruct part as [file|].
  2:{ destruct (videoUpload raw); reflexivity. }
  destruct (negb (fileFilter extname file)); [reflexivity|].
  destruct (500 * 1024 * 1024 <? size file); [reflexivity|].
  destruct (videoUpload raw) as [body|]; [|reflexivity].
  cbv [query INSERT_video INSERT_video_tags INSERT_processing_job lPush].
  cbn [Video.id Video.user_id Job.id Job.video_id f_path f_size
       f_originalname].
  cbv zeta.
  destruct (video_exists videoId (pool w)); [reflexivity|].
  destruct (negb (user_exists (au_id u) (pool w))); [reflexivity|].
  cbn [orb pool video_processing_queue hd_error].
  set (video := Video.mk videoId (au_id u) (up_title body)
                  (up_description body) _ _ _ (up_privacy body) "pending"
                  (NOW clk) (NOW clk)) in *.
  assert (Hfk : forall ts js,
             video_exists videoId
               (mkDb (users (pool w)) (videos (pool w) ++ [video]) ts js)
             = true).
  { intros ts js. unfold video_exists. cbn [videos].
    rewrite existsb_app. cbn [existsb]. subst video. cbn [Video.id].
    now rewrite String.eqb_refl, orb_true_r. }
  destruct (up_tags body) as [[|tag tags]|];
    cbv [ret];
    cbn [pool video_processing_queue users videos video_tags processing_jobs];
    unfold job_exists;
    cbn [pool video_processing_queue users videos video_tags processing_jobs];
    rewrite Hfk;
    cbn [map]; rewrite ?app_nil_r;
    destruct (existsb _ (processing_jobs (pool w)));
    cbn [negb pool video_processing_queue users videos video_tags
         processing_jobs hd_error];
    try reflexivity;
    destruct redis;
    cbn [negb pool video_processing_queue users videos video_tags
         processing_jobs hd_error];
    try reflexivity;
    destruct w as [[us vs ts js] q]; reflexivity.
Qed.

(** C10: every successful [POST /api/videos] appends, next to the new video
    row, exactly one job row for it of type [metadata_extraction] with
    status [queued] and priority 5, and pushes a descriptor with the same
    job id, video id, type and priority; the caller asked for no job. *)
Theorem C10_upload_queues_metadata_extraction :
  forall extname cred part raw fileName videoId jobId clk redis w r w',
    respond (upload_video extname cred part raw fileName videoId jobId clk
                          redis) w
    = (r, w') ->
    is_success r = true ->
    exists video,
      r = Json 201 (UploadBody "Video uploaded successfully" (Some video) jobId)
      /\ Video.id video = videoId
      /\ Video.status video = "pending"
      /\ videos (pool w') = videos (pool w) ++ [video]
      /\ processing_jobs (pool w')
         = processing_jobs (pool w)
           ++ [Job.mk jobId videoId "metadata_extraction" "queued" 5 0
                      None None None (NOW clk) (NOW clk) None]
      /\ video_processing_queue w'
         = mkDescriptor jobId videoId "metadata_extraction" 5 None
                        (Some (Video.file_path video)) (Date_now clk)
             :: video_processing_queue w.
Proof.
  intros extname cred part raw fileName videoId jobId clk redis w r w'
         Hrun Hok.
  destruct cred as [u|]; [|inversion Hrun; subst; discriminate].
  rewrite upload_video_run in Hrun.
  destruct part as [file|].
  2:{ destruct (videoUpload raw); inversion Hrun; subst; discriminate. }
  destruct (negb _); [inversion Hrun; subst; discriminate|].
  destruct (_ <? _); [inversion Hrun; subst; discriminate|].
  destruct (videoUpload raw) as [body|];
    [|inversion Hrun; subst; discriminate].
  cbv zeta in Hrun.
  destruct (_ || _); [inversion Hrun; subst; discriminate|].
  destruct (job_exists jobId (pool w));
    [inversion Hrun; subst; discriminate|].
  destruct redis; [|inversion Hrun; subst; discriminate].
  inversion Hrun; subst r w'; clear Hrun.
  eexists; repeat split.
Qed.

(** ** The status column stays within the five statuses *)

Lemma valid_after_update (f : Job.row -> Job.row) id db vs q s :
  includes validStatuses s = true ->
  (forall x, Job.status (f x) = s) ->
  job_statuses_valid (mkWorld db q) ->
  job_statuses_valid
    (mkWorld (mkDb (users db) vs (video_tags db)
                   (map (fun x => if Job.id x === id then f x else x)
                        (processing_jobs db))) q).
Proof.
  intros Hs Hf Hvalid j Hin. cbn [pool processing_jobs] in Hin.
  apply in_map_iff in Hin. destruct Hin as (x & <- & Hx).
  destruct (Job.id x === id).
  - now rewrite Hf.
  - now apply Hvalid.
Qed.

Lemma update_status_keeps_statuses_valid is_uuid uuid_in cred id body clk w :
  job_statuses_valid w ->
  job_statuses_valid
    (snd (respond (update_status is_uuid uuid_in cred id body clk) w)).
Proof.
  intros Hvalid. destruct cred as [u|]; [|exact Hvalid].
  rewrite update_status_run.
  destruct (is_uuid id); [|exact Hvalid].
  destruct (requested_status body) as [s|] eqn:Hs; [|exact Hvalid].
  destruct (uuid_in id) as [k|]; [|exact Hvalid].
  destruct (find_job k w) as [j|]; [|exact Hvalid].
  destruct (progress_readable body); [|exact Hvalid].
  destruct w as [db q]. cbn [snd pool video_processing_queue].
  apply (valid_after_update _ _ _ _ _ s);
    [exact (requested_status_valid _ _ Hs)|reflexivity|exact Hvalid].
Qed.

Lemma cancel_job_keeps_statuses_valid is_uuid uuid_in cred id clk w :
  job_statuses_valid w ->
  job_statuses_valid (snd (respond (cancel_job is_uuid uuid_in cred id clk) w)).
Proof.
  intros Hvalid. destruct cred as [u|]; [|exact Hvalid].
  rewrite cancel_job_run.
  destruct (is_uuid id); [|exact Hvalid].
  destruct (uuid_in id) as [k|]; [|exact Hvalid].
  destruct (find_job k w) as [j|]; [|exact Hvalid].
  destruct (negb _); [exact Hvalid|].
  destruct (includes _ (Job.status j)); [exact Hvalid|].
  destruct w as [db q]. cbn [snd pool video_processing_queue].
  apply (valid_after_update _ _ _ _ _ "cancelled");
    [reflexivity|reflexivity|exact Hvalid].
Qed.

Lemma create_job_keeps_statuses_valid
    is_uuid uuid_in cred raw jobId clk redis w :
  job_statuses_valid w ->
  job_statuses_valid
    (snd (respond (create_job is_uuid uuid_in cred raw jobId clk redis) w)).
Proof.
  intros Hvalid. destruct cred as [u|]; [|exact Hvalid].
  rewrite create_job_run.
  destruct (processingJob is_uuid raw) as [body|]; [|exact Hvalid].
  destruct (uuid_in (in_video_id body)) as [vid|]; [|exact Hvalid].
  destruct (find_video vid w) as [video|]; [|exact Hvalid].
  destruct (negb _); [exact Hvalid|].
  destruct (Video.status video === "failed"); [exact Hvalid|].
  destruct (job_exists jobId (pool w)); [exact Hvalid|].
  destruct redis;
    intros j Hin; cbn [snd pool processing_jobs] in Hin;
    apply in_app_or in Hin; (destruct Hin as [Hin|[<-|[]]];
                             [now apply Hvalid|reflexivity]).
Qed.

Lemma delete_video_keeps_statuses_valid is_uuid uuid_in cred id w :
  job_statuses_valid w ->
  job_statuses_valid (snd (respond (delete_video is_uuid uuid_in cred id) w)).
Proof.
  intros Hvalid. destruct cred as [u|]; [|exact Hvalid].
  rewrite delete_video_run.
  destruct (is_uuid id); [|exact Hvalid].
  destruct (uuid_in id) as [k|]; [|exact Hvalid].
  destruct (find_video k w) as [video|]; [|exact Hvalid].
  destruct (negb _); [exact Hvalid|].
  intros j Hin. cbn [snd pool processing_jobs] in Hin.
  apply filter_In in Hin. now apply Hvalid.
Qed.

Lemma upload_video_keeps_statuses_valid
    extname cred part raw fileName videoId jobId clk redis w :
  job_statuses_valid w ->
  job_statuses_valid
    (snd (respond (upload_video extname cred part raw fileName videoId jobId
                                clk redis) w)).
Proof.
  intros Hvalid. destruct cred as [u|]; [|exact Hvalid].
  rewrite upload_video_run.
  destruct part as [file|].
  2:{ destruct (videoUpload raw); exact Hvalid. }
  destruct (negb _); [exact Hvalid|].
  destruct (_ <? _); [exact Hvalid|].
  destruct (videoUpload raw) as [body|]; [|exact Hvalid].
  cbv zeta.
  destruct (_ || _); [exact Hvalid|].
  destruct (job_exists jobId (pool w)); [exact Hvalid|].
  destruct redis;
    intros j Hin; cbn [snd pool processing_jobs] in Hin;
    apply in_app_or in Hin; (destruct Hin as [Hin|[<-|[]]];
                             [now apply Hvalid|reflexivity]).
Qed.

Lemma update_video_keeps_statuses_valid is_uuid uuid_in cred id patch clk w :
  job_statuses_valid w ->
  job_statuses_valid
    (snd (respond (update_video is_uuid uuid_in cred id patch clk) w)).
Proof.
  intros Hvalid. destruct cred as [u|]; [|exact Hvalid].
  rewrite update_video_run.
  destruct (is_uuid id); [|exact Hvalid].
  destruct (videoUpdate patch) as [updates|]; [|exact Hvalid].
  destruct (uuid_in id) as [k|]; [|exact Hvalid].
  destruct (find_video k w) as [video|]; [|exact Hvalid].
  destruct (negb _); [exact Hvalid|].
  destruct (Nat.eqb _ 0); [exact Hvalid|].
  destruct (p_tags updates); exact Hvalid.
Qed.

(** In every world the server reaches, the status column of every job row
    holds one of the five statuses. *)
Lemma reachable_statuses_valid
    is_uuid uuid_in ILIKE collate_leb tie extname w :
  reachable is_uuid uuid_in ILIKE collate_leb tie extname w ->
  job_statuses_valid w.
Proof.
  induction 1 as [w Hempty|w c Hreach IH].
  - intros j Hin. rewrite Hempty in Hin. destruct Hin.
  - destruct c; cbn [serve].
    + now apply create_job_keeps_statuses_valid.
    + now apply update_status_keeps_statuses_valid.
    + now apply cancel_job_keeps_statuses_valid.
    + now rewrite list_videos_reads_only.
    + now rewrite list_user_videos_refused.
    + now apply upload_video_keeps_statuses_valid.
    + now apply update_video_keeps_statuses_valid.
    + now apply delete_video_keeps_statuses_valid.
Qed.

(** ** Job status updates *)

(** The response and the stored rows do not depend on who the authenticated
    caller is: the route holds no ownership or role test. *)
Lemma update_status_ignores_caller is_uuid uuid_in u1 u2 id body clk w :
  respond (update_status is_uuid uuid_in (Some u1) id body clk) w
  = respond (update_status is_uuid uuid_in (Some u2) id body clk) w.
Proof. now rewrite !update_status_run. Qed.

(** What an accepted status update does to the videos table: the video of
    the job becomes [completed] when an encoding job completes and [failed]
    when a job of any type fails; otherwise no video row changes. *)
Lemma update_status_propagates is_uuid uuid_in u id k body clk w s j :
  is_uuid id = true ->
  uuid_in id = Some k ->
  requested_status body = Some s ->
  find_job k w = Some j ->
  progress_readable body = true ->
  videos (pool (snd (respond (update_status is_uuid uuid_in (Some u) id body
                                            clk) w)))
  = if (s === "completed") && (Job.job_type j === "encoding")
    then map (fun v => if Video.id v === Job.video_id j
                       then Video.set_status "completed" (NOW clk) v else v)
             (videos (pool w))
    else if s === "failed"
    then map (fun v => if Video.id v === Job.video_id j
                       then Video.set_status "failed" (NOW clk) v else v)
             (videos (pool w))
    else videos (pool w).
Proof.
  intros Hid Hk Hs Hj Hp. now rewrite update_status_run, Hid, Hs, Hk, Hj, Hp.
Qed.

Lemma find_job_after_update id f db vs q :
  (forall x, Job.id (f x) = Job.id x) ->
  find_job id (mkWorld (mkDb (users db) vs (video_tags db)
                 (map (fun x => if Job.id x === id then f x else x)
                      (processing_jobs db))) q)
  = option_map f (find_job id (mkWorld db q)).
Proof.
  intros Hf. unfold find_job. cbn [pool processing_jobs].
  rewrite (filter_update_key Job.id f id) by exact Hf.
  apply hd_error_map.
Qed.

Lemma find_job_after_update_other id jid f db vs q :
  (forall x, Job.id (f x) = Job.id x) ->
  (id === jid) = false ->
  find_job jid (mkWorld (mkDb (users db) vs (video_tags db)
                  (map (fun x => if Job.id x === id then f x else x)
                       (processing_jobs db))) q)
  = find_job jid (mkWorld db q).
Proof.
  intros Hf Hne. unfold find_job. cbn [pool processing_jobs]. f_equal.
  now apply (filter_update_other Job.id).
Qed.

(** ** Progress values *)

Lemma clamped_finite q :
  clamped (Finite q)
  = Finite (if Qle_bool 100 q then 100%Q
            else if Qle_bool 0 q then q else 0%Q).
Proof.
  unfold clamped, Math_min, Math_max. cbn [Number_leb].
  destruct (Qle_bool 100 q); [reflexivity|].
  cbn [Number_leb]. now destruct (Qle_bool 0 q).
Qed.

Lemma integer_in_finite q z :
  integer_in (Finite q) = Some z -> (q == inject_Z z)%Q.
Proof.
  cbn [integer_in]. cbv zeta.
  destruct (Qeq_bool q (inject_Z (Qfloor q))) eqn:E; [|discriminate].
  apply Qeq_bool_iff in E.
  destruct (_ && _); [|discriminate].
  now intros [= <-].
Qed.

(** What the [progress] column takes from a body that carries the field:
    an integer of [0, 100], which is 0 for a number at or below the range,
    100 for one at or above it, and the number itself inside the range. *)
Lemma stored_progress_spec body x z :
  sb_progress body = Some x ->
  stored_progress body = Some z ->
  0 <= z <= 100
  /\ match x with
     | Finite q =>
         ((q <= 0)%Q -> z = 0)
         /\ ((100 <= q)%Q -> z = 100)
         /\ ((0 <= q <= 100)%Q -> (inject_Z z == q)%Q)
     | Infinity negative => z = if negative then 0 else 100
     | NaN => False
     end.
Proof.
  unfold stored_progress. intros ->. destruct x as [q|negative|].
  - rewrite clamped_finite.
    destruct (Qle_bool 100 q) eqn:Hhigh.
    { apply Qle_bool_iff in Hhigh. intros Hz. vm_compute in Hz.
      injection Hz as <-.
      split; [lia|]. split; [intros; exfalso; lra|].
      split; [reflexivity|]. intros. change (inject_Z 100) with 100%Q. lra. }
    assert (Hlt : (q < 100)%Q).
    { apply Qnot_le_lt. intros H. apply Qle_bool_iff in H. congruence. }
    destruct (Qle_bool 0 q) eqn:Hlow.
    + apply Qle_bool_iff in Hlow. intros Hz.
      apply integer_in_finite in Hz.
      assert (Hrange : 0 <= z < 100).
      { split; [rewrite Zle_Qle|rewrite Zlt_Qlt];
          change (inject_Z 0) with 0%Q; change (inject_Z 100) with 100%Q;
          lra. }
      split; [lia|]. split; [|split].
      * intros Hq0.
        assert (Hq : (inject_Z z == inject_Z 0)%Q)
          by (change (inject_Z 0) with 0%Q; lra).
        exact (proj1 (inject_Z_injective z 0) Hq).
      * intros; exfalso; lra.
      * intros _. lra.
    + assert (Hneg : (q < 0)%Q).
      { apply Qnot_le_lt. intros H. apply Qle_bool_iff in H. congruence. }
      intros Hz. vm_compute in Hz. injection Hz as <-.
      split; [lia|]. split; [reflexivity|].
      split; intros; exfalso; lra.
  - destruct negative; intros Hz; vm_compute in Hz; injection Hz as <-;
      (split; [lia|reflexivity]).
  - discriminate.
Qed.

Lemma progress_readable_stored body x :
  sb_progress body = Some x ->
  progress_readable body = true ->
  exists z, stored_progress body = Some z.
Proof.
  unfold progress_readable, stored_progress. intros ->.
  destruct (integer_in (clamped x)) as [z|]; [eauto|discriminate].
Qed.

Lemma Qle_bool_inject_Z (a b : Z) :
  Qle_bool (inject_Z a) (inject_Z b) = (a <=? b).
Proof. unfold Qle_bool. cbn [Qnum Qden inject_Z]. now rewrite !Z.mul_1_r. Qed.

Lemma integer_in_whole (p : Z) :
  -2147483648 <= p <= 2147483647 ->
  integer_in (Finite (inject_Z p)) = Some p.
Proof.
  intros Hp. cbn [integer_in]. cbv zeta. rewrite Qfloor_Z.
  replace (Qeq_bool (inject_Z p) (inject_Z p)) with true
    by (symmetry; apply Qeq_bool_iff; reflexivity).
  destruct (Z.leb_spec (-2147483648) p); [|lia].
  destruct (Z.leb_spec p 2147483647); [reflexivity|lia].
Qed.

Lemma clamped_whole (p : Z) :
  clamped (Finite (inject_Z p)) = Finite (inject_Z (Z.max 0 (Z.min 100 p))).
Proof.
  rewrite clamped_finite.
  change 100%Q with (inject_Z 100). change 0%Q with (inject_Z 0).
  rewrite !Qle_bool_inject_Z.
  destruct (Z.leb_spec 100 p).
  - now replace (Z.max 0 (Z.min 100 p)) with 100 by lia.
  - destruct (Z.leb_spec 0 p).
    + now replace (Z.max 0 (Z.min 100 p)) with p by lia.
    + now replace (Z.max 0 (Z.min 100 p)) with 0 by lia.
Qed.

(** A whole number is stored clamped. *)
Lemma stored_progress_whole body (p : Z) :
  sb_progress body = Some (Finite (inject_Z p)) ->
  stored_progress body = Some (Z.max 0 (Z.min 100 p)).
Proof.
  intros Hp. unfold stored_progress. rewrite Hp, clamped_whole.
  apply integer_in_whole. lia.
Qed.


(** C5: a status update that supplies [progress] stores it clamped to
    [0, 100] (0 below the range, 100 above it, the value itself inside);
    one that omits it leaves the stored progress as it was.  This holds of
    every accepted update, whatever number the body carries: a whole number
    [p] is stored as [max 0 (min 100 p)], any number at or beyond an end of
    the range as that end, and no update is accepted that would store a
    fraction or NaN. *)
Theorem C5_progress_clamped :
  forall is_uuid uuid_in cred id body clk w r w',
    respond (update_status is_uuid uuid_in cred id body clk) w = (r, w') ->
    is_success r = true ->
    exists k j j',
      uuid_in id = Some k
      /\ find_job k w = Some j /\ find_job k w' = Some j'
      /\ match sb_progress body with
         | Some x =>
             0 <= Job.progress j' <= 100
             /\ (forall p : Z,
                   x = Finite (inject_Z p) ->
                   (p < 0 -> Job.progress j' = 0)
                   /\ (100 < p -> Job.progress j' = 100)
                   /\ (0 <= p <= 100 -> Job.progress j' = p))
             /\ match x with
                | Finite q =>
                    ((q <= 0)%Q -> Job.progress j' = 0)
                    /\ ((100 <= q)%Q -> Job.progress j' = 100)
                    /\ ((0 <= q <= 100)%Q ->
                        (inject_Z (Job.progress j') == q)%Q)
                | Infinity negative =>
                    Job.progress j' = if negative then 0 else 100
                | NaN => False
                end
         | None => Job.progress j' = Job.progress j
         end.
Proof.
  intros is_uuid uuid_in cred id body clk w r w' Hrun Hok.
  destruct cred as [u|]; [|inversion Hrun; subst; discriminate].
  rewrite update_status_run in Hrun.
  destruct (is_uuid id); [|inversion Hrun; subst; discriminate].
  destruct (requested_status body) as [s|];
    [|inversion Hrun; subst; discriminate].
  destruct (uuid_in id) as [k|] eqn:Hk;
    [|inversion Hrun; subst; discriminate].
  destruct (find_job k w) as [j|] eqn:Hj;
    [|inversion Hrun; subst; discriminate].
  destruct (progress_readable body) eqn:Hreadable;
    [|inversion Hrun; subst; discriminate].
  inversion Hrun; subst r w'; clear Hrun.
  exists k, j, (updated_row (NOW clk) s body j).
  split; [reflexivity|]. split; [exact Hj|]. split.
  - destruct w as [db q]. cbn [pool video_processing_queue].
    rewrite find_job_after_update by reflexivity.
    now rewrite Hj.
  - unfold updated_row; cbn [Job.progress].
    destruct (sb_progress body) as [x|] eqn:Hx.
    + destruct (progress_readable_stored body x Hx Hreadable) as [z Hz].
      rewrite Hz.
      destruct (stored_progress_spec body x z Hx Hz) as [Hrange Hcases].
      split; [exact Hrange|]. split; [|exact Hcases].
      intros p ->. pose proof (stored_progress_whole body p Hx) as Hwhole.
      rewrite Hz in Hwhole. injection Hwhole as ->. lia.
    + unfold stored_progress. now rewrite Hx.
Qed.

(** ** Job creation *)


(** ** Cancellation *)


(** ** Video metadata update *)

Lemma videoUpdate_accepts patch updates :
  videoUpdate patch = Some updates -> updates = patch.
Proof.
  unfold videoUpdate. destruct (_ && _); [|discriminate]. now intros [= <-].
Qed.



(** ** Video deletion *)

Lemma find_video_after_delete id db q :
  find_video id (mkWorld (mkDb (users db)
                   (filter (fun v => Video.id v !== id) (videos db))
                   (filter (fun t => fst t !== id) (video_tags db))
                   (filter (fun j => Job.video_id j !== id)
                           (processing_jobs db))) q)
  = None.
Proof.
  unfold find_video. cbn [pool videos].
  induction (videos db) as [|v vs IH]; simpl; [reflexivity|].
  destruct (Video.id v === id) eqn:E; simpl; [exact IH|].
  now rewrite E.
Qed.

(** C8 (as amended): a successful [DELETE /api/videos/:id] deletes every
    processing job row of the video, whatever its status, then the video
    row.  Afterwards no job row references the video and the video does not
    resolve; the rows that remain are rows of other videos exactly as they
    were, so no job is moved to [cancelled].  The video is the one whose
    uuid the id denotes. *)
Theorem C8_delete_video_deletes_its_jobs :
  forall is_uuid uuid_in cred id w r w',
    respond (delete_video is_uuid uuid_in cred id) w = (r, w') ->
    is_success r = true ->
    exists k,
      uuid_in id = Some k
      /\ processing_jobs (pool w')
         = filter (fun j => Job.video_id j !== k) (processing_jobs (pool w))
      /\ (forall j, In j (processing_jobs (pool w')) ->
                    Job.video_id j <> k /\ In j (processing_jobs (pool w)))
      /\ find_video k w' = None
      /\ video_processing_queue w' = video_processing_queue w.
Proof.
  intros is_uuid uuid_in cred id w r w' Hrun Hok.
  destruct cred as [u|]; [|inversion Hrun; subst; discriminate].
  rewrite delete_video_run in Hrun.
  destruct (is_uuid id); [|inversion Hrun; subst; discriminate].
  destruct (uuid_in id) as [k|] eqn:Hk;
    [|inversion Hrun; subst; discriminate].
  destruct (find_video k w) as [video|];
    [|inversion Hrun; subst; discriminate].
  destruct (negb _); [inversion Hrun; subst; discriminate|].
  inversion Hrun; subst r w'; clear Hrun.
  exists k. split; [reflexivity|].
  cbn [pool processing_jobs video_processing_queue].
  repeat split.
  - apply filter_In in H. destruct H as [_ H].
    apply negb_true_iff, String.eqb_neq in H. exact H.
  - now apply filter_In in H.
  - apply find_video_after_delete.
Qed.

(** ** The running example, route by route *)

Import Scenario.




(** C2: a thumbnail job that reports [failed] drives the status of its video
    from [completed] to [failed]; the branch for [failed] carries no test on
    the job type. *)
Theorem C2_failed_thumbnail_fails_the_video :
  Job.job_type thumb = "thumbnail"
  /\ option_map Video.status (find_video holiday_id world) = Some "completed"
  /\ is_success
       (fst (respond (update_status is_uuid uuid_in (Some root) thumb_id
                        (mkStatusBody (Some "failed") None
                                      (Some (Some "no keyframe")) None) clock)
                     world)) = true
  /\ option_map Video.status
       (find_video holiday_id
          (snd (respond (update_status is_uuid uuid_in (Some root) thumb_id
                           (mkStatusBody (Some "failed") None
                                         (Some (Some "no keyframe")) None)
                           clock)
                        world))) = Some "failed".
Proof. vm_compute. repeat split. Qed.

(** C3: the route admits every authenticated caller.  Bob, a plain user who
    does not own the video, reports [completed] on Alice's queued job and is
    answered 200; so is Alice, the plain owner, reporting [failed]. *)
Theorem C3_any_authenticated_caller_reports_outcomes :
  au_role bob = "user"
  /\ owns bob (job_owner probe world) = false
  /\ is_success
       (fst (respond (update_status is_uuid uuid_in (Some bob) probe_id
                        (mkStatusBody (Some "completed") None None None)
                        clock)
                     world)) = true
  /\ option_map Job.status
       (find_job probe_id
          (snd (respond (update_status is_uuid uuid_in (Some bob) probe_id
                           (mkStatusBody (Some "completed") None None None)
                           clock)
                        world))) = Some "completed"
  /\ au_role alice = "user"
  /\ owns alice (job_owner probe world) = true
  /\ option_map Job.status
       (find_job probe_id
          (snd (respond (update_status is_uuid uuid_in (Some alice) probe_id
                           (mkStatusBody (Some "failed") None None None)
                           clock)
                        world))) = Some "failed".
Proof. vm_compute. repeat split. Qed.



(** C5 on the example: a reported progress of 250 is stored as 100. *)
Lemma C5_witness :
  exists r w' j',
    respond (update_status is_uuid uuid_in (Some root) thumb_id
               (mkStatusBody (Some "in_progress") (Some (Finite 250)) None
                             None)
               clock) world = (r, w')
    /\ is_success r = true
    /\ find_job thumb_id w' = Some j'
    /\ Job.progress j' = 100.
Proof.
  do 2 eexists.
  destruct (C5_progress_clamped is_uuid uuid_in (Some root) thumb_id
              (mkStatusBody (Some "in_progress") (Some (Finite 250)) None
                            None)
              clock world _ _ eq_refl eq_refl)
    as (k & j & j' & Hk & _ & Hj' & _ & Habove & _).
  injection Hk as <-.
  exists j'. split; [reflexivity|]. split; [reflexivity|].
  split; [exact Hj'|].
  apply (Habove 250 eq_refl). reflexivity.
Defined.




(** C8, counterexample: the video has a running and a queued job.  Once the
    route has run [DELETE FROM processing_jobs], and before the video row is
    removed, both rows are gone; no row was rewritten to [cancelled], and
    after the delete the queued job does not resolve. *)
Lemma C8_counterexample_jobs_deleted_not_cancelled :
  option_map Job.status (find_job probe_id world) = Some "queued"
  /\ option_map
       (fun out => (processing_jobs (snd out),
                    video_exists holiday_id (snd out)))
       (DELETE_processing_jobs uuid_in holiday_id (pool world))
     = Some ([], true)
  /\ is_success
       (fst (respond (delete_video is_uuid uuid_in (Some alice) holiday_id)
                     world))
     = true
  /\ find_job probe_id
       (snd (respond (delete_video is_uuid uuid_in (Some alice) holiday_id)
                     world))
     = None
  /\ existsb (fun j => Job.status j === "cancelled")
       (processing_jobs
          (pool (snd (respond (delete_video is_uuid uuid_in (Some alice)
                                            holiday_id)
                              world)))) = false.
Proof. vm_compute. repeat split. Qed.

(** C8 on the example: all three jobs lived on the deleted video. *)
Lemma C8_witness :
  exists r w',
    respond (delete_video is_uuid uuid_in (Some alice) holiday_id) world
    = (r, w')
    /\ is_success r = true
    /\ processing_jobs (pool w') = []
    /\ find_video holiday_id w' = None.
Proof.
  do 2 eexists.
  destruct (C8_delete_video_deletes_its_jobs is_uuid uuid_in (Some alice)
              holiday_id world _ _ eq_refl eq_refl)
    as (k & Hk & Hjobs & _ & Hgone & _).
  injection Hk as <-.
  split; [reflexivity|]. split; [reflexivity|].
  split; [exact Hjobs|exact Hgone].
Defined.

(** C9, counterexample: Root is an admin and does not own Alice's private
    video; the listing Root receives holds the public video only. *)
Lemma C9_counterexample_admin_sees_public_only :
  is_admin root = true
  /\ Video.privacy holiday = "private"
  /\ In holiday (videos (pool world))
  /\ match fst (respond (list_videos ILIKE collate_leb tie (Some root)
                           (mkRawListQuery None None None None None None))
                        world) with
     | Json 200 (VideosBody rows _) => map l_video rows = [trailer]
     | _ => False
     end.
Proof. vm_compute. repeat split. now left. Qed.

(** C9 on the example: Alice lists with the largest page size and sees her
    private video next to the public one. *)
Lemma C9_witness :
  exists r w' rows pagination,
    respond (list_videos ILIKE collate_leb tie (Some alice)
               (mkRawListQuery None (Some 100) (Some "title") (Some "asc")
                               None None))
            world = (r, w')
    /\ is_success r = true
    /\ r = Json 200 (VideosBody rows pagination)
    /\ map l_video rows = [holiday; trailer]
    /\ per_page pagination <= 100.
Proof.
  do 2 eexists.
  destruct (C9_listing_scoped_to_public_or_owner is_uuid ILIKE collate_leb
              tie (Some alice)
              (mkRawListQuery None (Some 100) (Some "title") (Some "asc")
                              None None)
              world _ _ (or_introl eq_refl) eq_refl)
    as (rows & pagination & Hr & _ & Hlimit & _).
  exists rows, pagination.
  split; [reflexivity|]. split; [reflexivity|]. split; [exact Hr|].
  split; [|apply Hlimit].
  injection Hr as <- _. reflexivity.
Defined.

(** C10 on the example: Bob uploads a clip. *)
Lemma C10_witness :
  exists r w',
    respond (upload_video extname (Some bob)
               (Some (mkFilePart "Clip.MP4" "video/mp4" 2048))
               (mkRawVideoUpload (Some "Clip") None (Some ["demo"]) None)
               "0003" fresh_video_id fresh_id clock true)
            world = (r, w')
    /\ is_success r = true
    /\ find_job fresh_id w'
       = Some (Job.mk fresh_id fresh_video_id "metadata_extraction" "queued"
                      5 0 None None None 50 50 None)
    /\ hd_error (video_processing_queue w')
       = Some (mkDescriptor fresh_id fresh_video_id "metadata_extraction" 5
                            None (Some "uploads/videos/0003.MP4") 51).
Proof.
  do 2 eexists.
  destruct (C10_upload_queues_metadata_extraction extname (Some bob)
              (Some (mkFilePart "Clip.MP4" "video/mp4" 2048))
              (mkRawVideoUpload (Some "Clip") None (Some ["demo"]) None)
              "0003" fresh_video_id fresh_id clock true world _ _
              eq_refl eq_refl)
    as (video & Hr & _ & _ & _ & Hjobs & Hqueue).
  split; [reflexivity|]. split; [reflexivity|]. split.
  - unfold find_job. now rewrite Hjobs.
  - rewrite Hqueue. injection Hr as <-. reflexivity.
Defined.
(** ** More on job creation *)

Lemma find_job_after_insert jid j db vs ts q :
  job_exists (Job.id j) db = false ->
  find_job jid (mkWorld (mkDb (users db) vs ts (processing_jobs db ++ [j])) q)
  = if Job.id j === jid then Some j else find_job jid (mkWorld db q).
Proof.
  intros Hfresh. unfold find_job. cbn [pool processing_jobs].
  rewrite filter_app. cbn [filter].
  destruct (Job.id j === jid) eqn:E.
  - apply String.eqb_eq in E. subst jid.
    replace (filter (fun j0 => Job.id j0 === Job.id j) (processing_jobs db))
      with (@nil Job.row); [reflexivity|].
    symmetry. unfold job_exists in Hfresh.
    induction (processing_jobs db) as [|x l IH]; [reflexivity|].
    cbn [existsb filter] in *. apply orb_false_elim in Hfresh.
    destruct Hfresh as [Hx Hl]. rewrite Hx. now apply IH.
  - now rewrite app_nil_r.
Qed.

(** X1: a priority outside [1, 10] is refused by the body schema before the
    video is looked up: 400 [VALIDATION_ERROR], nothing written, whoever
    calls and whatever the video. *)
Theorem create_job_priority_out_of_range :
  forall is_uuid uuid_in u raw p jobId clk redis w,
    raw_priority raw = Some p ->
    p < 1 \/ 10 < p ->
    respond (create_job is_uuid uuid_in (Some u) raw jobId clk redis) w
    = (Error 400 "VALIDATION_ERROR", w).
Proof.
  intros is_uuid uuid_in u raw p jobId clk redis w Hp Hrange.
  rewrite create_job_run.
  replace (processingJob is_uuid raw) with (@None JobBodyIn); [reflexivity|].
  unfold processingJob. rewrite Hp.
  destruct (raw_video_id raw), (raw_job_type raw); try reflexivity.
  destruct (is_uuid s && includes job_types s0 && (1 <=? p) && (p <=? 10))
    eqn:E; [|reflexivity].
  apply andb_prop in E. destruct E as [E H10].
  apply andb_prop in E. destruct E as [_ H1]. lia.
Qed.

Lemma create_job_priority_out_of_range_witness :
  raw_priority (mkRawJobBody (Some trailer_id) (Some "encoding") (Some 57)
                             None) = Some 57
  /\ (57 < 1 \/ 10 < 57)
  /\ respond (create_job is_uuid uuid_in (Some alice)
                (mkRawJobBody (Some trailer_id) (Some "encoding") (Some 57)
                              None)
                fresh_id clock true) world
     = (Error 400 "VALIDATION_ERROR", world).
Proof.
  split; [reflexivity|]. split; [right; lia|].
  apply (create_job_priority_out_of_range is_uuid uuid_in alice _ 57);
    [reflexivity|right; lia].
Defined.

(** X2: a job that was created can be looked up: its row has the fresh id,
    the uuid that the body's [video_id] denotes, status [queued], progress 0
    and the requested priority, 5 when the body named none; looking up any
    other id gives what it gave before, and no video row changes. *)
Theorem create_job_then_find :
  forall is_uuid uuid_in cred raw jobId clk redis w r w',
    respond (create_job is_uuid uuid_in cred raw jobId clk redis) w = (r, w') ->
    is_success r = true ->
    exists body vid,
      processingJob is_uuid raw = Some body
      /\ uuid_in (in_video_id body) = Some vid
      /\ find_job jobId w' = Some (new_job vid body jobId clk)
      /\ Job.priority (new_job vid body jobId clk)
         = match raw_priority raw with
           | Some p => p
           | None => 5
           end
      /\ (forall jid, (jobId === jid) = false ->
                      find_job jid w' = find_job jid w)
      /\ videos (pool w') = videos (pool w).
Proof.
  intros is_uuid uuid_in cred raw jobId clk redis w r w' Hrun Hok.
  destruct cred as [u|]; [|inversion Hrun; subst; discriminate].
  rewrite create_job_run in Hrun.
  destruct (processingJob is_uuid raw) as [body|] eqn:Hbody;
    [|inversion Hrun; subst; discriminate].
  destruct (uuid_in (in_video_id body)) as [vid|] eqn:Hvid;
    [|inversion Hrun; subst; discriminate].
  destruct (find_video vid w) as [video|];
    [|inversion Hrun; subst; discriminate].
  destruct (negb _); [inversion Hrun; subst; discriminate|].
  destruct (Video.status video === "failed");
    [inversion Hrun; subst; discriminate|].
  destruct (job_exists jobId (pool w)) eqn:Hfresh;
    [inversion Hrun; subst; discriminate|].
  destruct redis; [|inversion Hrun; subst; discriminate].
  inversion Hrun; subst r w'; clear Hrun.
  exists body, vid. split; [reflexivity|]. split; [exact Hvid|].
  destruct w as [db q]. cbn [pool video_processing_queue videos] in *.
  repeat split.
  - rewrite find_job_after_insert by exact Hfresh.
    cbn [new_job Job.id]. now rewrite String.eqb_refl.
  - unfold processingJob in Hbody.
    destruct (raw_video_id raw), (raw_job_type raw); try discriminate.
    destruct (_ && _); [|discriminate].
    now injection Hbody as <-.
  - intros jid Hne. rewrite find_job_after_insert by exact Hfresh.
    cbn [new_job Job.id]. now rewrite Hne.
Qed.

Lemma create_job_then_find_witness :
  exists r w',
    respond (create_job is_uuid uuid_in (Some alice)
               (mkRawJobBody (Some "F11E0000-0000-4000-8000-00000000000B")
                             (Some "thumbnail") None None)
               fresh_id clock true) world = (r, w')
    /\ is_success r = true
    /\ option_map Job.priority (find_job fresh_id w') = Some 5
    /\ option_map Job.video_id (find_job fresh_id w') = Some trailer_id
    /\ find_job probe_id w' = Some probe.
Proof.
  do 2 eexists.
  destruct (create_job_then_find is_uuid uuid_in (Some alice)
              (mkRawJobBody (Some "F11E0000-0000-4000-8000-00000000000B")
                            (Some "thumbnail") None None)
              fresh_id clock true world _ _ eq_refl eq_refl)
    as (body & vid & Hbody & Hvid & Hfind & Hprio & Hother & _).
  split; [reflexivity|]. split; [reflexivity|].
  rewrite Hfind. cbn [option_map]. split; [now rewrite Hprio|].
  split.
  - vm_compute in Hbody. injection Hbody as <-.
    vm_compute in Hvid. injection Hvid as <-. reflexivity.
  - rewrite (Hother probe_id) by reflexivity. reflexivity.
Defined.

(** ** Sequences of job calls *)

Lemma find_video_frame vid db js q :
  find_video vid (mkWorld (mkDb (users db) (videos db) (video_tags db) js) q)
  = find_video vid (mkWorld db q).
Proof. reflexivity. Qed.

Lemma job_owner_frame j db js q q' :
  job_owner j (mkWorld (mkDb (users db) (videos db) (video_tags db) js) q)
  = job_owner j (mkWorld db q').
Proof. reflexivity. Qed.

(** X3: the caller who has created a job can cancel it at once, under any
    spelling of its id: the cancel is answered 200, the row goes from
    [queued] to [cancelled], and the descriptor pushed at creation stays at
    the head of the queue (the cancel does not take it back). *)
Theorem create_then_cancel :
  forall is_uuid uuid_in u raw jobId clk clk' redis w r w' id,
    respond (create_job is_uuid uuid_in (Some u) raw jobId clk redis) w
    = (r, w') ->
    is_success r = true ->
    is_uuid id = true ->
    uuid_in id = Some jobId ->
    exists body vid w'',
      processingJob is_uuid raw = Some body
      /\ uuid_in (in_video_id body) = Some vid
      /\ respond (cancel_job is_uuid uuid_in (Some u) id clk') w'
         = (Json 200 (JobBody "Job cancelled successfully"
                        (Some (cancelled_at (NOW clk')
                                 (new_job vid body jobId clk)))), w'')
      /\ find_job jobId w''
         = Some (cancelled_at (NOW clk') (new_job vid body jobId clk))
      /\ video_processing_queue w''
         = new_descriptor body jobId clk :: video_processing_queue w.
Proof.
  intros is_uuid uuid_in u raw jobId clk clk' redis w r w' id
         Hrun Hok Hid Hk.
  destruct w as [db q].
  rewrite create_job_run in Hrun. cbn [pool video_processing_queue] in Hrun.
  destruct (processingJob is_uuid raw) as [body|] eqn:Hbody;
    [|inversion Hrun; subst; discriminate].
  destruct (uuid_in (in_video_id body)) as [vid|] eqn:Hvid;
    [|inversion Hrun; subst; discriminate].
  destruct (find_video vid (mkWorld db q)) as [video|] eqn:Hv;
    [|inversion Hrun; subst; discriminate].
  destruct (negb (owns u (Some (Video.user_id video)) || is_admin u))
    eqn:Hauth; [inversion Hrun; subst; discriminate|].
  destruct (Video.status video === "failed");
    [inversion Hrun; subst; discriminate|].
  destruct (job_exists jobId db) eqn:Hfresh;
    [inversion Hrun; subst; discriminate|].
  destruct redis; [|inversion Hrun; subst; discriminate].
  inversion Hrun; subst r w'; clear Hrun.
  exists body, vid. eexists. split; [reflexivity|]. split; [exact Hvid|].
  rewrite cancel_job_run, Hid, Hk.
  rewrite find_job_after_insert by exact Hfresh.
  cbn [new_job Job.id]. rewrite String.eqb_refl.
  fold (new_job vid body jobId clk).
  assert (Hown : job_owner (new_job vid body jobId clk)
                   (mkWorld (mkDb (users db) (videos db) (video_tags db)
                               (processing_jobs db
                                  ++ [new_job vid body jobId clk]))
                            (new_descriptor body jobId clk :: q))
                 = Some (Video.user_id video)).
  { unfold job_owner. cbn [new_job Job.video_id].
    unfold find_video in *. cbn [pool videos] in *. now rewrite Hv. }
  rewrite Hown, Hauth. cbn [new_job Job.status includes existsb orb].
  replace ("completed" === "queued") with false by reflexivity.
  replace ("failed" === "queued") with false by reflexivity.
  replace ("cancelled" === "queued") with false by reflexivity.
  cbn [orb]. fold (new_job vid body jobId clk).
  split; [reflexivity|]. cbn [pool video_processing_queue users videos
                              video_tags processing_jobs].
  split; [|reflexivity].
  unfold find_job. cbn [pool processing_jobs].
  rewrite (filter_update_key Job.id (cancelled_at (NOW clk')) jobId)
    by reflexivity.
  rewrite hd_error_map.
  change (hd_error (filter (fun x => Job.id x === jobId)
                           (processing_jobs db
                              ++ [new_job vid body jobId clk])))
    with (find_job jobId
            (mkWorld (mkDb (users db) (videos db) (video_tags db)
                           (processing_jobs db
                              ++ [new_job vid body jobId clk]))
                     q)).
  rewrite find_job_after_insert by exact Hfresh.
  cbn [new_job Job.id]. now rewrite String.eqb_refl.
Qed.

Lemma create_then_cancel_witness :
  exists r w' w'',
    respond (create_job is_uuid uuid_in (Some alice)
               (mkRawJobBody (Some trailer_id) (Some "encoding") (Some 9)
                             None)
               fresh_id clock true) world = (r, w')
    /\ is_success r = true
    /\ is_uuid "10B00000-0000-4000-8000-000000000004" = true
    /\ uuid_in "10B00000-0000-4000-8000-000000000004" = Some fresh_id
    /\ snd (respond (cancel_job is_uuid uuid_in (Some alice)
                       "10B00000-0000-4000-8000-000000000004" clock) w')
       = w''
    /\ option_map Job.status (find_job fresh_id w'') = Some "cancelled"
    /\ option_map d_job_id (hd_error (video_processing_queue w''))
       = Some fresh_id.
Proof.
  do 3 eexists.
  destruct (create_then_cancel is_uuid uuid_in alice
              (mkRawJobBody (Some trailer_id) (Some "encoding") (Some 9) None)
              fresh_id clock clock true world _ _
              "10B00000-0000-4000-8000-000000000004"
              eq_refl eq_refl eq_refl eq_refl)
    as (body & vid & w'' & _ & _ & Hcancel & Hfind & Hqueue).
  split; [reflexivity|]. split; [reflexivity|]. split; [reflexivity|].
  split; [reflexivity|]. split; [reflexivity|].
  rewrite Hcancel. cbn [snd]. rewrite Hfind, Hqueue. split; reflexivity.
Defined.

(** X4: a cancel repeated directly after a successful one is refused.  In
    the world the successful cancel leaves, the caller who cancelled is
    answered 400 [CANNOT_CANCEL_JOB], every other caller is answered with an
    error too, and none of these calls changes the world, however the id is
    spelled.  (A later status update may set the job back to [queued]; this
    is about the cancel that follows at once.) *)
Theorem cancel_job_twice :
  forall is_uuid uuid_in u id clk w r w',
    respond (cancel_job is_uuid uuid_in (Some u) id clk) w = (r, w') ->
    is_success r = true ->
    forall id',
      is_uuid id' = true ->
      uuid_in id' = uuid_in id ->
      (forall clk', respond (cancel_job is_uuid uuid_in (Some u) id' clk') w'
                    = (Error 400 "CANNOT_CANCEL_JOB", w'))
      /\ (forall cred clk',
            is_success
              (fst (respond (cancel_job is_uuid uuid_in cred id' clk') w'))
            = false
            /\ snd (respond (cancel_job is_uuid uuid_in cred id' clk') w')
               = w').
Proof.
  intros is_uuid uuid_in u id clk w r w' Hrun Hok id' Hid' Hsame.
  rewrite cancel_job_run in Hrun.
  destruct (is_uuid id); [|inversion Hrun; subst; discriminate].
  destruct (uuid_in id) as [k|] eqn:Hk;
    [|inversion Hrun; subst; discriminate].
  destruct (find_job k w) as [j|] eqn:Hj;
    [|inversion Hrun; subst; discriminate].
  destruct (negb (owns u (job_owner j w) || is_admin u)) eqn:Hauth;
    [inversion Hrun; subst; discriminate|].
  destruct (includes _ (Job.status j));
    [inversion Hrun; subst; discriminate|].
  inversion Hrun; subst r w'; clear Hrun.
  destruct w as [db q]. cbn [pool video_processing_queue] in *.
  assert (Hfind : find_job k
            (mkWorld (mkDb (users db) (videos db) (video_tags db)
                       (map (fun x => if Job.id x === k
                                      then cancelled_at (NOW clk) x else x)
                            (processing_jobs db))) q)
          = Some (cancelled_at (NOW clk) j)).
  { rewrite find_job_after_update by reflexivity. now rewrite Hj. }
  assert (Hsecond : forall u' clk',
    respond (cancel_job is_uuid uuid_in (Some u') id' clk')
      (mkWorld (mkDb (users db) (videos db) (video_tags db)
                 (map (fun x => if Job.id x === k
                                then cancelled_at (NOW clk) x else x)
                      (processing_jobs db))) q)
    = (if negb (owns u' (job_owner j (mkWorld db q)) || is_admin u')
       then Error 403 "NOT_AUTHORIZED"
       else Error 400 "CANNOT_CANCEL_JOB",
       mkWorld (mkDb (users db) (videos db) (video_tags db)
                 (map (fun x => if Job.id x === k
                                then cancelled_at (NOW clk) x else x)
                      (processing_jobs db))) q)).
  { intros u' clk'. rewrite cancel_job_run, Hid', Hsame, Hfind.
    change (job_owner (cancelled_at (NOW clk) j) _)
      with (job_owner j (mkWorld db q)).
    destruct (negb (owns u' (job_owner j (mkWorld db q)) || is_admin u'));
      reflexivity. }
  split.
  - intros clk'. now rewrite Hsecond, Hauth.
  - intros [u'|] clk'; [|split; reflexivity].
    rewrite Hsecond.
    destruct (negb (owns u' (job_owner j (mkWorld db q)) || is_admin u'));
      split; reflexivity.
Qed.

Lemma cancel_job_twice_witness :
  exists r w',
    respond (cancel_job is_uuid uuid_in (Some alice) probe_id clock) world
    = (r, w')
    /\ is_success r = true
    /\ respond (cancel_job is_uuid uuid_in (Some alice) PROBE_ID
                           (mkClock 60 61)) w'
       = (Error 400 "CANNOT_CANCEL_JOB", w')
    /\ is_success
         (fst (respond (cancel_job is_uuid uuid_in (Some root) PROBE_ID
                                   (mkClock 60 61)) w')) = false.
Proof.
  do 2 eexists.
  destruct (cancel_job_twice is_uuid uuid_in alice probe_id clock world _ _
              eq_refl eq_refl PROBE_ID eq_refl eq_refl) as [Hsame Hany].
  split; [reflexivity|]. split; [reflexivity|].
  split; [apply Hsame|apply Hany].
Defined.

(** ** More on status updates *)

Lemma requested_status_body body s :
  requested_status body = Some s -> sb_status body = Some s.
Proof.
  unfold requested_status. destruct (sb_status body) as [s'|]; [|discriminate].
  destruct (includes validStatuses s'); [|discriminate]. now intros [= <-].
Qed.

(** X5: an accepted status update stores [error_message] and [result_data]
    whenever the body carries them, whatever the status, and keeps the old
    values otherwise; it stamps [completed_at] exactly when the status is
    [completed], always stamps [updated_at], and never rewrites the job's
    id, video, type, priority, settings or creation time. *)
Theorem update_status_payload :
  forall is_uuid uuid_in cred id body clk w r w',
    respond (update_status is_uuid uuid_in cred id body clk) w = (r, w') ->
    is_success r = true ->
    exists k s j j',
      uuid_in id = Some k
      /\ sb_status body = Some s
      /\ find_job k w = Some j /\ find_job k w' = Some j'
      /\ Job.error_message j'
         = match sb_error_message body with
           | Some m => m
           | None => Job.error_message j
           end
      /\ Job.result_data j'
         = match sb_result_data body with
           | Some d => Some d
           | None => Job.result_data j
           end
      /\ Job.completed_at j'
         = (if s === "completed" then Some (NOW clk) else Job.completed_at j)
      /\ Job.updated_at j' = NOW clk
      /\ Job.id j' = Job.id j /\ Job.video_id j' = Job.video_id j
      /\ Job.job_type j' = Job.job_type j /\ Job.priority j' = Job.priority j
      /\ Job.settings j' = Job.settings j
      /\ Job.created_at j' = Job.created_at j.
Proof.
  intros is_uuid uuid_in cred id body clk w r w' Hrun Hok.
  destruct cred as [u|]; [|inversion Hrun; subst; discriminate].
  rewrite update_status_run in Hrun.
  destruct (is_uuid id); [|inversion Hrun; subst; discriminate].
  destruct (requested_status body) as [s|] eqn:Hs;
    [|inversion Hrun; subst; discriminate].
  destruct (uuid_in id) as [k|] eqn:Hk;
    [|inversion Hrun; subst; discriminate].
  destruct (find_job k w) as [j|] eqn:Hj;
    [|inversion Hrun; subst; discriminate].
  destruct (progress_readable body);
    [|inversion Hrun; subst; discriminate].
  inversion Hrun; subst r w'; clear Hrun.
  exists k, s, j, (updated_row (NOW clk) s body j).
  split; [reflexivity|].
  split; [now apply requested_status_body|]. split; [exact Hj|].
  split; [|repeat split].
  destruct w as [db q]. cbn [pool video_processing_queue].
  rewrite find_job_after_update by reflexivity. now rewrite Hj.
Qed.

Lemma update_status_payload_witness :
  exists r w' j',
    respond (update_status is_uuid uuid_in (Some root) thumb_id
               (mkStatusBody (Some "completed") None
                             (Some (Some "late warning")) (Some "{}"))
               clock) world = (r, w')
    /\ is_success r = true
    /\ find_job thumb_id w' = Some j'
    /\ Job.error_message j' = Some "late warning"
    /\ Job.completed_at j' = Some 50
    /\ Job.priority j' = 3.
Proof.
  do 2 eexists.
  destruct (update_status_payload is_uuid uuid_in (Some root) thumb_id
              (mkStatusBody (Some "completed") None
                            (Some (Some "late warning")) (Some "{}"))
              clock world _ _ eq_refl eq_refl)
    as (k & s & j & j' & Hk & Hs & Hj & Hj' & Hem & _ & Hco & _ & _ & _ & _
        & Hp & _).
  injection Hk as <-.
  exists j'. split; [reflexivity|]. split; [reflexivity|].
  split; [exact Hj'|]. split; [exact Hem|].
  injection Hs as <-. injection Hj as <-.
  split; [exact Hco|exact Hp].
Defined.

(** X6: whatever its outcome, a status update leaves the queue, the users
    and the tags as they were, changes no job row but the one whose uuid the
    id denotes and no video row but the one that job references, and
    changes nothing at all when the id denotes no uuid; in particular
    setting a job back to [queued] publishes no descriptor. *)
Theorem update_status_frame :
  forall is_uuid uuid_in cred id body clk w,
    let w' :=
      snd (respond (update_status is_uuid uuid_in cred id body clk) w) in
    video_processing_queue w' = video_processing_queue w
    /\ users (pool w') = users (pool w)
    /\ video_tags (pool w') = video_tags (pool w)
    /\ match uuid_in id with
       | Some k =>
           (forall jid, (k === jid) = false ->
                        find_job jid w' = find_job jid w)
           /\ (forall vid,
                 match find_job k w with
                 | Some j => (Job.video_id j === vid) = false
                 | None => True
                 end ->
                 find_video vid w' = find_video vid w)
       | None => w' = w
       end.
Proof.
  intros is_uuid uuid_in cred id body clk w. cbv zeta.
  destruct cred as [u|];
    [|cbn [snd respond]; destruct (uuid_in id); repeat split].
  rewrite update_status_run.
  destruct (is_uuid id); [|destruct (uuid_in id); repeat split].
  destruct (requested_status body) as [s|];
    [|destruct (uuid_in id); repeat split].
  destruct (uuid_in id) as [k|]; [|repeat split].
  destruct (find_job k w) as [j|]; [|repeat split].
  destruct (progress_readable body); [|repeat split].
  destruct w as [db q].
  cbn [snd pool video_processing_queue users video_tags].
  repeat split.
  - intros jid Hne. now apply find_job_after_update_other.
  - intros vid Hne. unfold find_video, propagated.
    cbn [pool videos]. f_equal.
    destruct ((s === "completed") && (Job.job_type j === "encoding"));
      [|destruct (s === "failed")]; try reflexivity;
      now apply (filter_update_other Video.id).
Qed.

(** X7: directly after a job of a video has reported [failed], the video is
    [failed] and a job creation for it is refused: in the world the report
    leaves, its owner and every admin are answered 400
    [INVALID_VIDEO_STATUS], and nothing is written or published.  (A later
    update of the video or of a job may set the status again; this is about
    the creation that follows at once.) *)
Theorem failed_report_then_create_job :
  forall is_uuid uuid_in u id k body clk w j video u2 raw2 body2 jobId2 clk2
         redis2,
    is_uuid id = true ->
    uuid_in id = Some k ->
    sb_status body = Some "failed" ->
    progress_readable body = true ->
    find_job k w = Some j ->
    find_video (Job.video_id j) w = Some video ->
    processingJob is_uuid raw2 = Some body2 ->
    uuid_in (in_video_id body2) = Some (Job.video_id j) ->
    owns u2 (Some (Video.user_id video)) || is_admin u2 = true ->
    let w' :=
      snd (respond (update_status is_uuid uuid_in (Some u) id body clk) w) in
    option_map Video.status (find_video (Job.video_id j) w') = Some "failed"
    /\ respond (create_job is_uuid uuid_in (Some u2) raw2 jobId2 clk2 redis2)
               w'
       = (Error 400 "INVALID_VIDEO_STATUS", w').
Proof.
  intros is_uuid uuid_in u id k body clk w j video u2 raw2 body2 jobId2 clk2
         redis2 Hid Hk Hs Hp Hj Hv Hbody Hvid Hauth. cbv zeta.
  rewrite update_status_run, Hid, Hk. unfold requested_status. rewrite Hs.
  replace (includes validStatuses "failed") with true by reflexivity.
  rewrite Hj, Hp. cbn [snd].
  assert (Hfailed :
    find_video (Job.video_id j)
      (mkWorld
         (mkDb (users (pool w))
               (propagated (NOW clk) "failed" j (videos (pool w)))
               (video_tags (pool w))
               (map (fun x => if Job.id x === k
                              then updated_row (NOW clk) "failed" body x
                              else x) (processing_jobs (pool w))))
         (video_processing_queue w))
    = Some (Video.set_status "failed" (NOW clk) video)).
  { unfold find_video in *. cbn [pool videos]. unfold propagated.
    replace ("failed" === "completed") with false by reflexivity.
    replace ("failed" === "failed") with true by reflexivity.
    cbn [andb].
    rewrite (filter_update_key Video.id
               (Video.set_status "failed" (NOW clk)) (Job.video_id j))
      by reflexivity.
    rewrite hd_error_map. now rewrite Hv. }
  split; [now rewrite Hfailed|].
  rewrite create_job_run, Hbody, Hvid, Hfailed.
  cbn [Video.set_status Video.user_id Video.status].
  rewrite Hauth. reflexivity.
Qed.

Lemma failed_report_then_create_job_witness :
  is_uuid thumb_id = true
  /\ uuid_in thumb_id = Some thumb_id
  /\ find_job thumb_id world = Some thumb
  /\ find_video (Job.video_id thumb) world = Some holiday
  /\ owns alice (Some (Video.user_id holiday)) || is_admin alice = true
  /\ respond (create_job is_uuid uuid_in (Some alice)
                (mkRawJobBody (Some holiday_id) (Some "thumbnail") None None)
                fresh_id clock true)
             (snd (respond (update_status is_uuid uuid_in (Some bob) thumb_id
                              (mkStatusBody (Some "failed") None None None)
                              clock) world))
     = (Error 400 "INVALID_VIDEO_STATUS",
        snd (respond (update_status is_uuid uuid_in (Some bob) thumb_id
                        (mkStatusBody (Some "failed") None None None)
                        clock) world)).
Proof.
  split; [reflexivity|]. split; [reflexivity|]. split; [reflexivity|].
  split; [reflexivity|]. split; [reflexivity|].
  apply (failed_report_then_create_job is_uuid uuid_in bob thumb_id thumb_id
           (mkStatusBody (Some "failed") None None None) clock world
           thumb holiday alice
           (mkRawJobBody (Some holiday_id) (Some "thumbnail") None None)
           (mkJobBodyIn holiday_id "thumbnail" 5 None) fresh_id clock true);
    reflexivity.
Defined.

(** ** The routes that only read *)

Lemma job_details_rows uuid_in id jid w :
  uuid_in id = Some jid ->
  exists rows,
    SELECT_job_details uuid_in id (pool w) = Some (rows, pool w)
    /\ match find_job jid w with
       | None => rows = []
       | Some j => exists d rest,
           rows = d :: rest /\ jd_job d = j /\ jd_user_id d = job_owner j w
       end.
Proof.
  intros Hk. unfold SELECT_job_details, uuid_param. rewrite Hk.
  eexists. split; [reflexivity|].
  pose proof (find_job_rows jid w) as H.
  destruct (find_job jid w) as [j|].
  - destruct H as [rest ->]. cbn [flat_map].
    unfold JOIN_video_and_user, job_owner, find_video.
    destruct (filter _ (videos (pool w))) as [|v vs]; cbn [map app hd_error].
    + do 2 eexists. repeat split.
    + cbn [flat_map].
      destruct (filter _ (users (pool w))) as [|u us];
        cbn [map app]; do 2 eexists; repeat split.
  - now rewrite H.
Qed.

(** X8: [GET /api/jobs/:id] answers 404 when no job has the uuid the id
    denotes and 403 unless the caller owns the job's video or is an admin;
    otherwise it returns that job together with the owner of its video.  It
    applies the same test as the cancel route and writes nothing. *)
Theorem get_job_for_owner_or_admin :
  forall is_uuid uuid_in u id k w,
    is_uuid id = true ->
    uuid_in id = Some k ->
    match find_job k w with
    | None =>
        answer (get_job is_uuid uuid_in (Some u) id) w
        = (inl (Error 404 "JOB_NOT_FOUND"), w)
    | Some j =>
        if negb (owns u (job_owner j w) || is_admin u)
        then answer (get_job is_uuid uuid_in (Some u) id) w
             = (inl (Error 403 "NOT_AUTHORIZED"), w)
        else exists d,
            answer (get_job is_uuid uuid_in (Some u) id) w = (inr d, w)
            /\ jd_job d = j /\ jd_user_id d = job_owner j w
    end.
Proof.
  intros is_uuid uuid_in u id k w Hid Hk. unfold get_job.
  cbv [answer bind ret send when_send catching validate authenticateToken].
  rewrite uuidParam_id, Hid. unfold query.
  destruct (job_details_rows uuid_in id k w Hk) as (rows & -> & Hrows).
  rewrite world_eta.
  destruct (find_job k w) as [j|].
  - destruct Hrows as (d & rest & -> & Hjob & Hown).
    rewrite authorization_test, Hown.
    destruct (negb (owns u (job_owner j w) || is_admin u)); [reflexivity|].
    exists d. repeat split; assumption.
  - subst rows. reflexivity.
Qed.

Lemma get_job_for_owner_or_admin_witness :
  is_uuid PROBE_ID = true
  /\ uuid_in PROBE_ID = Some probe_id
  /\ answer (get_job is_uuid uuid_in (Some bob) PROBE_ID) world
     = (inl (Error 403 "NOT_AUTHORIZED"), world)
  /\ exists d, answer (get_job is_uuid uuid_in (Some alice) PROBE_ID) world
               = (inr d, world) /\ jd_job d = probe.
Proof.
  split; [reflexivity|]. split; [reflexivity|]. split.
  - exact (get_job_for_owner_or_admin is_uuid uuid_in bob PROBE_ID probe_id
             world eq_refl eq_refl).
  - destruct (get_job_for_owner_or_admin is_uuid uuid_in alice PROBE_ID
                probe_id world eq_refl eq_refl)
      as (d & Hd & Hjob & _).
    exists d. split; assumption.
Defined.

(** X9: [GET /api/jobs/video/:videoId] never reaches its route function:
    the parameter schema asks for a key [id] that the path does not bind, so
    every authenticated request is answered 400 [VALIDATION_ERROR], and
    nothing is read or written. *)
Theorem get_video_jobs_always_refused :
  forall is_uuid uuid_in job_tie cred videoId w,
    answer (get_video_jobs is_uuid uuid_in job_tie cred videoId) w
    = (inl (match cred with
            | Some _ => Error 400 "VALIDATION_ERROR"
            | None => Error 401 "UNAUTHORIZED"
            end), w).
Proof.
  intros is_uuid uuid_in job_tie [u|] videoId w; reflexivity.
Qed.

Lemma job_only_status s :
  includes ["queued"; "in_progress"; "cancelled"] s = true ->
  includes video_statuses s = false.
Proof.
  unfold includes. cbn [existsb]. intros H.
  repeat (apply orb_prop in H; destruct H as [H|H]);
    try discriminate; apply String.eqb_eq in H; subst s; reflexivity.
Qed.

(** X10: the admin listing of jobs validates its [status] filter against the
    statuses of videos, so an admin who filters on [queued], [in_progress]
    or [cancelled] is answered 400 [VALIDATION_ERROR]: those jobs cannot be
    listed by status. *)
Theorem list_jobs_cannot_filter_on_job_statuses :
  forall collate_leb listing_tie u raw s w,
    au_role u = "admin" ->
    raw_status raw = Some s ->
    includes ["queued"; "in_progress"; "cancelled"] s = true ->
    answer (list_jobs collate_leb listing_tie (Some u) raw) w
    = (inl (Error 400 "VALIDATION_ERROR"), w).
Proof.
  intros collate_leb listing_tie u raw s w Hrole Hs Hjob. unfold list_jobs.
  cbv [answer bind ret send when_send catching validate authenticateToken
       requireRole].
  rewrite Hrole.
  replace (negb (includes ["admin"] "admin")) with false by reflexivity.
  replace (listQuery raw) with (@None ListQuery); [reflexivity|].
  unfold listQuery. rewrite Hs. cbn [optional].
  rewrite (job_only_status _ Hjob).
  now rewrite andb_false_r.
Qed.

Lemma list_jobs_cannot_filter_on_job_statuses_witness :
  au_role root = "admin"
  /\ answer (list_jobs collate_leb tie (Some root)
               (mkRawListQuery None None None None (Some "queued") None))
            world
     = (inl (Error 400 "VALIDATION_ERROR"), world).
Proof.
  split; [reflexivity|].
  apply (list_jobs_cannot_filter_on_job_statuses collate_leb tie root _
           "queued");
    reflexivity.
Defined.

(** X11: [schemas.listQuery] lets the sort key [title] through, but
    [processing_jobs] has no such column: an admin who lists jobs sorted by
    title is answered 500 [GET_JOBS_ERROR]. *)
Theorem list_jobs_sorted_by_title_fails :
  forall collate_leb listing_tie u raw q w,
    au_role u = "admin" ->
    listQuery raw = Some q ->
    q_sort q = "title" ->
    answer (list_jobs collate_leb listing_tie (Some u) raw) w
    = (inl (Error 500 "GET_JOBS_ERROR"), w).
Proof.
  intros collate_leb listing_tie u raw q w Hrole Hq Hsort. unfold list_jobs.
  cbv [answer bind ret send when_send catching validate authenticateToken
       requireRole].
  rewrite Hrole, Hq.
  replace (negb (includes ["admin"] "admin")) with false by reflexivity.
  destruct q as [page limit sort order status search].
  cbn [q_page q_limit q_sort q_order q_status q_search] in *. subst sort.
  destruct status as [status|];
    cbv [query SELECT_COUNT_jobs SELECT_jobs_page ORDER_jobs_BY];
    cbn [app status_placeholders binds List.length seq forallb existsb
         Nat.eqb Nat.add andb orb param_int nth_error Nat.sub pool
         video_processing_queue];
    replace ("title" === "title") with true by reflexivity;
    now rewrite world_eta.
Qed.

Lemma list_jobs_sorted_by_title_fails_witness :
  au_role root = "admin"
  /\ answer (list_jobs collate_leb tie (Some root)
               (mkRawListQuery None None (Some "title") None None None))
            world
     = (inl (Error 500 "GET_JOBS_ERROR"), world).
Proof.
  split; [reflexivity|].
  eapply (list_jobs_sorted_by_title_fails collate_leb tie root); reflexivity.
Defined.

(** ** One video with its jobs *)

Lemma In_insert_sorted_iff {A} (leb : A -> A -> bool) x y l :
  In x (insert_sorted leb y l) <-> x = y \/ In x l.
Proof.
  split; [apply In_insert_sorted|].
  induction l as [|z l IH]; simpl.
  - intros [->|[]]. now left.
  - destruct (leb y z); simpl.
    + intros [->|[->|H]]; auto.
    + intros [->|[->|H]]; auto.
Qed.

Lemma In_sort_by_iff {A} (leb : A -> A -> bool) x l :
  In x (sort_by leb l) <-> In x l.
Proof.
  induction l as [|y l IH]; simpl; [tauto|].
  rewrite In_insert_sorted_iff, IH. intuition auto.
Qed.

(** [ORDER BY] sorts by its key, whatever order the rows with equal keys
    are given, for a total and transitive order of the keys. *)
Lemma order_by_sorted {A} (leb tie : A -> A -> bool) :
  (forall a b, leb a b = true \/ leb b a = true) ->
  (forall a b c, leb a b = true -> leb b c = true -> leb a c = true) ->
  forall l, StronglySorted (fun a b => leb a b = true) (order_by leb tie l).
Proof.
  intros Htotal Htrans. unfold order_by.
  set (cmp := fun a b => if leb a b && negb (leb b a) then true
                         else if leb b a && negb (leb a b) then false
                         else tie a b).
  assert (Hyes : forall a b, cmp a b = true -> leb a b = true).
  { intros a b. unfold cmp.
    destruct (leb a b) eqn:Eab, (leb b a) eqn:Eba; cbn; try congruence.
    destruct (Htotal a b); congruence. }
  assert (Hno : forall a b, cmp a b = false -> leb b a = true).
  { intros a b. unfold cmp.
    destruct (leb a b) eqn:Eab, (leb b a) eqn:Eba; cbn; try congruence.
    destruct (Htotal a b); congruence. }
  assert (Hins : forall x l,
             StronglySorted (fun a b => leb a b = true) l ->
             StronglySorted (fun a b => leb a b = true)
                            (insert_sorted cmp x l)).
  { intros x l Hl. induction Hl as [|y l Hl IH Hy]; simpl.
    - constructor; constructor.
    - destruct (cmp x y) eqn:E.
      + constructor; [now constructor|].
        constructor; [now apply Hyes|].
        apply Forall_forall. intros z Hz.
        rewrite Forall_forall in Hy. eauto.
      + constructor; [exact IH|].
        apply Forall_forall. intros z Hz.
        apply In_insert_sorted in Hz. destruct Hz as [->|Hz].
        * now apply Hno.
        * rewrite Forall_forall in Hy. auto. }
  induction l as [|x l IH]; simpl; [constructor|now apply Hins].
Qed.

Lemma newest_first_sorted job_tie jobs :
  StronglySorted (fun a b => Job.created_at b <= Job.created_at a)
                 (newest_first job_tie jobs).
Proof.
  unfold newest_first.
  eapply StronglySorted_ind with
    (P := StronglySorted (fun a b => Job.created_at b <= Job.created_at a));
    [constructor| |apply order_by_sorted].
  - intros a l _ IH Ha. constructor; [exact IH|].
    eapply Forall_impl; [|exact Ha]. intros b Hb. now apply Z.leb_le.
  - intros a b. destruct (Z.le_ge_cases (Job.created_at b) (Job.created_at a));
      [left|right]; now apply Z.leb_le.
  - intros a b c H1 H2. apply Z.leb_le in H1, H2. apply Z.leb_le. lia.
Qed.

(** X12: what [GET /api/videos/:id] returns is a row of the videos table
    with the uuid the id denotes that is public or the caller's own,
    together with every job row of that video and no other, newest first.
    The jobs of a public video thus go to any caller, authenticated or not.
    The route writes nothing. *)
Theorem get_video_returns_visible_video_and_its_jobs :
  forall is_uuid uuid_in job_tie cred id w row jobs w',
    answer (get_video is_uuid uuid_in job_tie cred id) w
    = (inr (row, jobs), w') ->
    exists k,
      uuid_in id = Some k
      /\ w' = w
      /\ In (l_video row) (videos (pool w))
      /\ Video.id (l_video row) = k
      /\ visible_to cred (l_video row)
      /\ (forall j, In j jobs <->
                    In j (processing_jobs (pool w)) /\ Job.video_id j = k)
      /\ StronglySorted (fun a b => Job.created_at b <= Job.created_at a)
                        jobs.
Proof.
  intros is_uuid uuid_in job_tie cred id w row jobs w' Hrun.
  unfold get_video in Hrun.
  cbv [answer bind ret send catching validate optionalAuth query
       SELECT_video_for SELECT_jobs_of_video uuid_param] in Hrun.
  rewrite uuidParam_id in Hrun.
  destruct (is_uuid id); [|discriminate].
  destruct (uuid_in id) as [k|]; [|discriminate].
  cbn [pool video_processing_queue] in Hrun.
  destruct (LEFT_JOIN_users (pool w) _) as [|row0 rest] eqn:Hrows;
    [discriminate|].
  cbn [pool video_processing_queue] in Hrun.
  injection Hrun as <- <- <-.
  assert (Hin : In row0 (row0 :: rest)) by now left.
  rewrite <- Hrows in Hin. apply In_LEFT_JOIN_users, filter_In in Hin.
  destruct Hin as [Hin Hcond]. apply andb_prop in Hcond.
  destruct Hcond as [Hid Hvis].
  exists k. split; [reflexivity|].
  split; [apply world_eta|]. split; [exact Hin|].
  split; [now apply String.eqb_eq|]. split; [|split].
  - unfold visible_to. destruct cred as [u|].
    + apply orb_prop in Hvis. destruct Hvis as [H|H];
        apply String.eqb_eq in H; eauto.
    + apply String.eqb_eq in Hvis. now left.
  - intros j. unfold newest_first, order_by.
    rewrite In_sort_by_iff, filter_In.
    now rewrite String.eqb_eq.
  - apply newest_first_sorted.
Qed.

(** X12 on the example: once Alice has made her video public, a caller
    without credential who spells its id in upper case is given the video
    and its three jobs, the queued one included, newest first. *)
Lemma get_video_returns_visible_video_and_its_jobs_witness :
  exists row jobs,
    answer (get_video is_uuid uuid_in tie None
                      "F11E0000-0000-4000-8000-00000000000A")
           world_after_release
    = (inr (row, jobs), world_after_release)
    /\ Video.id (l_video row) = holiday_id
    /\ In (l_video row) (videos (pool world_after_release))
    /\ visible_to None (l_video row)
    /\ In encode jobs /\ In thumb jobs /\ In probe jobs
    /\ (forall j, In j jobs -> Job.video_id j = holiday_id)
    /\ StronglySorted (fun a b => Job.created_at b <= Job.created_at a) jobs.
Proof.
  do 2 eexists.
  destruct (get_video_returns_visible_video_and_its_jobs is_uuid uuid_in tie
              None "F11E0000-0000-4000-8000-00000000000A"
              world_after_release _ _ _ eq_refl)
    as (k & Hk & _ & Hin & Hid & Hvis & Hjobs & Hsorted).
  injection Hk as <-.
  split; [reflexivity|]. split; [exact Hid|]. split; [exact Hin|].
  split; [exact Hvis|].
  split; [apply Hjobs; split; [now left|reflexivity]|].
  split; [apply Hjobs; split; [right; now left|reflexivity]|].
  split; [apply Hjobs; split; [right; right; now left|reflexivity]|].
  split; [|exact Hsorted].
  intros j Hj. now apply Hjobs in Hj.
Defined.

(** X13: [GET /api/videos/:id] answers 404 [VIDEO_NOT_FOUND] when no video
    with the uuid the id denotes is public or owned by the caller, so a
    private or unlisted video looks absent to everyone but its owner, admins
    included; a video that is public or the caller's own is always
    returned. *)
Theorem get_video_hides_private_videos :
  forall is_uuid uuid_in job_tie cred id k w,
    is_uuid id = true ->
    uuid_in id = Some k ->
    ((forall v, In v (videos (pool w)) -> Video.id v = k ->
                Video.privacy v <> "public"
                /\ (forall u, cred = Some u -> Video.user_id v <> au_id u)) ->
     answer (get_video is_uuid uuid_in job_tie cred id) w
     = (inl (Error 404 "VIDEO_NOT_FOUND"), w))
    /\ (forall v, In v (videos (pool w)) -> Video.id v = k ->
                  visible_to cred v ->
                  exists row jobs,
                    answer (get_video is_uuid uuid_in job_tie cred id) w
                    = (inr (row, jobs), w)).
Proof.
  intros is_uuid uuid_in job_tie cred id k w Hid Hk. unfold get_video.
  cbv [answer bind ret send catching validate optionalAuth query
       SELECT_video_for SELECT_jobs_of_video uuid_param].
  rewrite uuidParam_id, Hid, Hk.
  cbn [pool video_processing_queue]. split.
  - intros Hhidden.
    replace (filter _ (videos (pool w))) with (@nil Video.row);
      [now rewrite world_eta|].
    symmetry.
    induction (videos (pool w)) as [|v vs IH]; [reflexivity|].
    cbn [filter].
    assert (Hv : (Video.id v === k)
                 && match cred with
                    | Some u => (Video.privacy v === "public")
                                || (Video.user_id v === au_id u)
                    | None => Video.privacy v === "public"
                    end = false).
    { destruct (Video.id v === k) eqn:E; [|reflexivity].
      apply String.eqb_eq in E.
      destruct (Hhidden v (or_introl eq_refl) E) as [Hpriv Hown].
      apply String.eqb_neq in Hpriv. rewrite Hpriv.
      destruct cred as [u|]; [|reflexivity].
      specialize (Hown u eq_refl). apply String.eqb_neq in Hown.
      now rewrite Hown. }
    rewrite Hv. apply IH. intros v' Hin. apply Hhidden. now right.
  - intros v Hin Hv Hvis.
    assert (Hsel : In v (filter
              (fun v0 => (Video.id v0 === k)
                         && match cred with
                            | Some u => (Video.privacy v0 === "public")
                                        || (Video.user_id v0 === au_id u)
                            | None => Video.privacy v0 === "public"
                            end) (videos (pool w)))).
    { apply filter_In. split; [exact Hin|].
      apply String.eqb_eq in Hv. rewrite Hv. cbn [andb].
      destruct Hvis as [Hpub|(u & -> & Hown)].
      - apply String.eqb_eq in Hpub. rewrite Hpub.
        now destruct cred.
      - apply String.eqb_eq in Hown. rewrite Hown. apply orb_true_r. }
    destruct (filter _ (videos (pool w))) as [|v0 rest]; [destruct Hsel|].
    cbn [LEFT_JOIN_users flat_map].
    destruct w as [db q]. cbn [pool video_processing_queue].
    destruct (filter _ (users db)) as [|u0 us]; cbn [map app];
      do 2 eexists; reflexivity.
Qed.

Lemma get_video_hides_private_videos_witness :
  is_uuid "F11E0000-0000-4000-8000-00000000000A" = true
  /\ uuid_in "F11E0000-0000-4000-8000-00000000000A" = Some holiday_id
  /\ answer (get_video is_uuid uuid_in tie (Some root)
                       "F11E0000-0000-4000-8000-00000000000A") world
     = (inl (Error 404 "VIDEO_NOT_FOUND"), world)
  /\ exists row jobs,
       answer (get_video is_uuid uuid_in tie (Some alice)
                         "F11E0000-0000-4000-8000-00000000000A") world
       = (inr (row, jobs), world).
Proof.
  split; [reflexivity|]. split; [reflexivity|].
  destruct (get_video_hides_private_videos is_uuid uuid_in tie (Some root)
              "F11E0000-0000-4000-8000-00000000000A" holiday_id
              world eq_refl eq_refl) as [Hhidden _].
  destruct (get_video_hides_private_videos is_uuid uuid_in tie (Some alice)
              "F11E0000-0000-4000-8000-00000000000A" holiday_id
              world eq_refl eq_refl) as [_ Hshown].
  split.
  - apply Hhidden. intros v [<-|[<-|[]]] Hv; [|discriminate].
    split; [discriminate|]. intros u [= <-]. discriminate.
  - apply (Hshown holiday); [now left|reflexivity|].
    right. exists alice. now split.
Defined.

(** ** What the server keeps true *)

Lemma In_updated {A} (key : A -> string) (f : A -> A) k l x' :
  In x' (map (fun x => if key x === k then f x else x) l) ->
  exists x, In x l /\ (x' = x \/ x' = f x).
Proof.
  intros H. apply in_map_iff in H. destruct H as (x & <- & Hx).
  exists x. split; [exact Hx|]. destruct (key x === k); auto.
Qed.

Lemma processingJob_valid is_uuid raw body :
  processingJob is_uuid raw = Some body ->
  includes job_types (in_job_type body) = true
  /\ 1 <= in_priority body <= 10.
Proof.
  unfold processingJob.
  destruct (raw_video_id raw), (raw_job_type raw); try discriminate.
  destruct (_ && _) eqn:E; [|discriminate]. intros [= <-].
  cbn [in_job_type in_priority].
  repeat (apply andb_prop in E; destruct E as [E ?]).
  split; [assumption|lia].
Qed.

Lemma videoUpload_privacy raw body :
  videoUpload raw = Some body -> includes privacies (up_privacy body) = true.
Proof.
  unfold videoUpload. destruct (raw_title raw); [|discriminate].
  destruct (_ && _) eqn:E; [|discriminate]. intros [= <-].
  cbn [up_privacy]. now apply andb_prop in E.
Qed.

Lemma videoUpdate_valid patch updates :
  videoUpdate patch = Some updates ->
  optional (includes privacies) (p_privacy updates) = true
  /\ optional (includes video_statuses) (p_status updates) = true.
Proof.
  unfold videoUpdate. destruct (_ && _) eqn:E; [|discriminate].
  intros [= <-]. apply andb_prop in E. destruct E as [E Hs].
  now apply andb_prop in E.
Qed.

Lemma patched_row_privacy updates now v :
  Video.privacy (patched_row updates now v)
  = match p_privacy updates with
    | Some p => p
    | None => Video.privacy v
    end.
Proof.
  unfold patched_row, patch_fields, entry.
  destruct v, updates as [[t|] [d|] [g|] [p|] [s|]]; reflexivity.
Qed.

(** The world an upload leaves: the one it found, or that world with the new
    video row and then, unless the job insert was refused, its first job. *)
Lemma upload_video_effect
    extname cred part raw fileName videoId jobId clk redis w :
  let w' := snd (respond (upload_video extname cred part raw fileName videoId
                                       jobId clk redis) w) in
  w' = w
  \/ exists video,
      Video.id video = videoId
      /\ Video.status video = "pending"
      /\ includes privacies (Video.privacy video) = true
      /\ (exists u, cred = Some u /\ Video.user_id video = au_id u)
      /\ users (pool w') = users (pool w)
      /\ videos (pool w') = videos (pool w) ++ [video]
      /\ (processing_jobs (pool w') = processing_jobs (pool w)
          \/ processing_jobs (pool w')
             = processing_jobs (pool w) ++ [initial_job videoId jobId clk]).
Proof.
  cbv zeta. destruct cred as [u|]; [|now left].
  rewrite upload_video_run.
  destruct part as [file|].
  2:{ destruct (videoUpload raw); now left. }
  destruct (negb (fileFilter extname file)); [now left|].
  destruct (500 * 1024 * 1024 <? size file); [now left|].
  destruct (videoUpload raw) as [body|] eqn:Hbody; [|now left].
  cbv zeta.
  destruct (_ || _); [now left|].
  right.
  eexists (Video.mk videoId (au_id u) _ _ _ _ _ (up_privacy body)
                    "pending" _ _).
  destruct (job_exists jobId (pool w)); [|destruct redis];
    cbn [snd pool users videos processing_jobs
         Video.id Video.status Video.privacy Video.user_id];
    (split; [reflexivity|]); (split; [reflexivity|]);
    (split; [apply (videoUpload_privacy _ _ Hbody)|]);
    (split; [exists u; split; reflexivity|]);
    (split; [reflexivity|]); (split; [reflexivity|]);
    try (now left); now right.
Qed.

Lemma stored_progress_range body z :
  stored_progress body = Some z -> 0 <= z <= 100.
Proof.
  intros Hz. unfold stored_progress in Hz.
  destruct (sb_progress body) as [x|] eqn:Hx; [|discriminate].
  apply (stored_progress_spec body x z Hx). unfold stored_progress.
  now rewrite Hx.
Qed.

Lemma initial_job_in_range videoId jobId clk :
  job_in_range (initial_job videoId jobId clk).
Proof.
  split; [reflexivity|]. split; [reflexivity|].
  cbn [initial_job Job.priority Job.progress]. lia.
Qed.

Lemma jobs_in_range_step is_uuid uuid_in ILIKE collate_leb tie extname c w :
  jobs_in_range w ->
  jobs_in_range
    (snd (respond (serve is_uuid uuid_in ILIKE collate_leb tie extname c) w)).
Proof.
  intros Hw. destruct c; cbn [serve].
  - (* create *)
    destruct cred as [u|]; [|exact Hw]. rewrite create_job_run.
    destruct (processingJob is_uuid raw) as [body|] eqn:Hbody; [|exact Hw].
    destruct (uuid_in (in_video_id body)) as [vid|]; [|exact Hw].
    destruct (find_video _ w); [|exact Hw].
    destruct (negb _); [exact Hw|].
    destruct (_ === "failed"); [exact Hw|].
    destruct (job_exists _ _); [exact Hw|].
    destruct (processingJob_valid _ _ _ Hbody) as [Ht Hp].
    destruct redis;
      (intros j Hin; cbn [snd pool processing_jobs] in Hin;
       apply in_app_or in Hin; destruct Hin as [Hin|[<-|[]]];
       [now apply Hw|];
       split; [reflexivity|]; split; [exact Ht|]; split; [exact Hp|];
       cbn [new_job Job.progress]; lia).
  - (* status *)
    destruct cred as [u|]; [|exact Hw]. rewrite update_status_run.
    destruct (is_uuid id); [|exact Hw].
    destruct (requested_status body) as [s|] eqn:Hs; [|exact Hw].
    destruct (uuid_in id) as [k|]; [|exact Hw].
    destruct (find_job k w); [|exact Hw].
    destruct (progress_readable body); [|exact Hw].
    intros j Hin. cbn [snd pool processing_jobs] in Hin.
    apply In_updated in Hin. destruct Hin as (x & Hx & [->| ->]);
      [now apply Hw|].
    destruct (Hw x Hx) as (_ & Ht & Hp & Hg).
    split; [exact (requested_status_valid _ _ Hs)|].
    split; [exact Ht|]. split; [exact Hp|].
    cbn [updated_row Job.progress].
    destruct (stored_progress body) as [z|] eqn:Hz; [|exact Hg].
    exact (stored_progress_range _ _ Hz).
  - (* cancel *)
    destruct cred as [u|]; [|exact Hw]. rewrite cancel_job_run.
    destruct (is_uuid id); [|exact Hw].
    destruct (uuid_in id) as [k|]; [|exact Hw].
    destruct (find_job k w) as [j0|]; [|exact Hw].
    destruct (negb _); [exact Hw|].
    destruct (includes _ (Job.status j0)); [exact Hw|].
    intros j Hin. cbn [snd pool processing_jobs] in Hin.
    apply In_updated in Hin. destruct Hin as (x & Hx & [->| ->]);
      [now apply Hw|].
    destruct (Hw x Hx) as (_ & Ht & Hp & Hg).
    split; [reflexivity|]. split; [exact Ht|]. split; [exact Hp|exact Hg].
  - now rewrite list_videos_reads_only.
  - now rewrite list_user_videos_refused.
  - (* upload *)
    pose proof (upload_video_effect extname cred part raw fileName videoId
                  jobId clk redis w) as H. cbv zeta in H.
    destruct H as [->|(video & _ & _ & _ & _ & _ & _ & [Hj|Hj])];
      [exact Hw| |]; intros j Hin; rewrite Hj in Hin; [now apply Hw|].
    apply in_app_or in Hin. destruct Hin as [Hin|[<-|[]]]; [now apply Hw|].
    apply initial_job_in_range.
  - (* update video *)
    destruct cred as [u|]; [|exact Hw]. rewrite update_video_run.
    destruct (is_uuid id); [|exact Hw].
    destruct (videoUpdate patch) as [updates|]; [|exact Hw].
    destruct (uuid_in id) as [k|]; [|exact Hw].
    destruct (find_video k w); [|exact Hw].
    destruct (negb _); [exact Hw|].
    destruct (Nat.eqb _ 0); [exact Hw|].
    destruct (p_tags updates); exact Hw.
  - (* delete *)
    destruct cred as [u|]; [|exact Hw]. rewrite delete_video_run.
    destruct (is_uuid id); [|exact Hw].
    destruct (uuid_in id) as [k|]; [|exact Hw].
    destruct (find_video k w); [|exact Hw].
    destruct (negb _); [exact Hw|].
    intros j Hin. cbn [snd pool processing_jobs] in Hin.
    apply filter_In in Hin. now apply Hw.
Qed.

(** X14: through any sequence of calls, if every job row started with a
    status among the five, a type among the five, a priority in [1, 10] and
    a progress in [0, 100], every job row still has them: no call stores a
    value outside these domains. *)
Theorem jobs_stay_in_range :
  forall is_uuid uuid_in ILIKE collate_leb tie extname calls w,
    jobs_in_range w ->
    jobs_in_range
      (serve_all is_uuid uuid_in ILIKE collate_leb tie extname calls w).
Proof.
  intros is_uuid uuid_in ILIKE collate_leb tie extname calls.
  induction calls as [|c calls IH]; intros w Hw; cbn [serve_all].
  - exact Hw.
  - now apply IH, jobs_in_range_step.
Qed.

Lemma scenario_jobs_in_range : jobs_in_range world.
Proof.
  intros j [<-|[<-|[<-|[]]]];
    (split; [reflexivity|]; split; [reflexivity|]);
    unfold encode, thumb, probe; cbn [Job.priority Job.progress]; lia.
Qed.

(** X14 on the example: after a progress report of 250 with status
    [completed], an upload, and the deletion of a video, the job rows are
    within their domains. *)
Lemma jobs_stay_in_range_witness :
  jobs_in_range world
  /\ jobs_in_range
       (serve_all is_uuid uuid_in ILIKE collate_leb tie extname
          [PUT_jobs_status (Some bob) thumb_id
             (mkStatusBody (Some "completed") (Some (Finite 250)) None None)
             clock;
           POST_videos (Some bob)
             (Some (mkFilePart "Clip.MP4" "video/mp4" 2048))
             (mkRawVideoUpload (Some "Clip") None (Some ["demo"]) None)
             "0003" fresh_video_id fresh_id clock true;
           DELETE_videos (Some alice) holiday_id]
          world).
Proof.
  split; [exact scenario_jobs_in_range|].
  apply (jobs_stay_in_range is_uuid uuid_in ILIKE collate_leb tie extname).
  exact scenario_jobs_in_range.
Defined.

Lemma video_exists_same_ids vid db us vs' ts js :
  map Video.id vs' = map Video.id (videos db) ->
  video_exists vid (mkDb us vs' ts js) = video_exists vid db.
Proof.
  unfold video_exists. cbn [videos]. generalize (videos db) as vs.
  induction vs' as [|v' vs' IH]; intros [|v vs]; try discriminate.
  - reflexivity.
  - cbn [map existsb]. intros [= -> H]. now rewrite (IH _ H).
Qed.

Lemma map_id_updated (f : Video.row -> Video.row) k vs :
  (forall v, Video.id (f v) = Video.id v) ->
  map Video.id (map (fun v => if Video.id v === k then f v else v) vs)
  = map Video.id vs.
Proof.
  intros Hf. induction vs as [|v vs IH]; [reflexivity|].
  cbn [map]. rewrite IH. f_equal.
  destruct (Video.id v === k); [apply Hf|reflexivity].
Qed.

Lemma propagated_ids now s j vs :
  map Video.id (propagated now s j vs) = map Video.id vs.
Proof.
  unfold propagated.
  destruct (_ && _); [now apply map_id_updated|].
  destruct (s === "failed"); [now apply map_id_updated|reflexivity].
Qed.

Lemma video_exists_app vid db us v ts js :
  video_exists vid db = true ->
  video_exists vid (mkDb us (videos db ++ [v]) ts js) = true.
Proof.
  unfold video_exists. cbn [videos]. rewrite existsb_app. now intros ->.
Qed.

Lemma video_exists_last db us v ts js :
  video_exists (Video.id v) (mkDb us (videos db ++ [v]) ts js) = true.
Proof.
  unfold video_exists. cbn [videos]. rewrite existsb_app. cbn [existsb].
  rewrite String.eqb_refl. now rewrite orb_true_r.
Qed.

Lemma video_exists_other vid id db us ts js :
  (vid !== id) = true ->
  video_exists vid
    (mkDb us (filter (fun v => Video.id v !== id) (videos db)) ts js)
  = video_exists vid db.
Proof.
  intros Hne. unfold video_exists. cbn [videos].
  induction (videos db) as [|v vs IH]; [reflexivity|].
  cbn [filter existsb].
  destruct (Video.id v === vid) eqn:E.
  - apply String.eqb_eq in E. rewrite E, Hne. cbn [existsb].
    rewrite E. now rewrite String.eqb_refl.
  - destruct (Video.id v !== id); [cbn [existsb]; now rewrite E, IH|].
    exact IH.
Qed.

Lemma jobs_reference_videos_step
    is_uuid uuid_in ILIKE collate_leb tie extname c w :
  jobs_reference_videos w ->
  jobs_reference_videos
    (snd (respond (serve is_uuid uuid_in ILIKE collate_leb tie extname c) w)).
Proof.
  intros Hw. destruct c; cbn [serve].
  - (* create *)
    destruct cred as [u|]; [|exact Hw]. rewrite create_job_run.
    destruct (processingJob is_uuid raw) as [body|] eqn:Hbody; [|exact Hw].
    destruct (uuid_in (in_video_id body)) as [vid|]; [|exact Hw].
    destruct (find_video _ w) as [video|] eqn:Hvideo; [|exact Hw].
    destruct (negb _); [exact Hw|].
    destruct (_ === "failed"); [exact Hw|].
    destruct (job_exists _ _); [exact Hw|].
    destruct redis;
      (intros j Hin; cbn [snd pool processing_jobs] in *;
       rewrite (video_exists_same_ids _ (pool w)) by reflexivity;
       apply in_app_or in Hin; destruct Hin as [Hin|[<-|[]]];
       [now apply Hw|];
       apply (find_video_exists _ _ _ Hvideo)).
  - (* status *)
    destruct cred as [u|]; [|exact Hw]. rewrite update_status_run.
    destruct (is_uuid id); [|exact Hw].
    destruct (requested_status body) as [s|]; [|exact Hw].
    destruct (uuid_in id) as [k|]; [|exact Hw].
    destruct (find_job k w); [|exact Hw].
    destruct (progress_readable body); [|exact Hw].
    intros j Hin. cbn [snd pool processing_jobs] in *.
    rewrite (video_exists_same_ids _ (pool w)) by apply propagated_ids.
    apply In_updated in Hin. destruct Hin as (x & Hx & [->| ->]);
      exact (Hw x Hx).
  - (* cancel *)
    destruct cred as [u|]; [|exact Hw]. rewrite cancel_job_run.
    destruct (is_uuid id); [|exact Hw].
    destruct (uuid_in id) as [k|]; [|exact Hw].
    destruct (find_job k w) as [j0|]; [|exact Hw].
    destruct (negb _); [exact Hw|].
    destruct (includes _ (Job.status j0)); [exact Hw|].
    intros j Hin. cbn [snd pool processing_jobs] in *.
    rewrite (video_exists_same_ids _ (pool w)) by reflexivity.
    apply In_updated in Hin. destruct Hin as (x & Hx & [->| ->]);
      exact (Hw x Hx).
  - now rewrite list_videos_reads_only.
  - now rewrite list_user_videos_refused.
  - (* upload *)
    pose proof (upload_video_effect extname cred part raw fileName videoId
                  jobId clk redis w) as H. cbv zeta in H.
    destruct H as [->|(video & Hid & _ & _ & _ & Hu & Hv & Hj)];
      [exact Hw|].
    intros j Hin.
    destruct (pool (snd _)) as [us' vs' ts' js'].
    cbn [users videos processing_jobs] in *. subst vs'.
    assert (Hold : forall x, In x (processing_jobs (pool w)) ->
              video_exists (Job.video_id x)
                (mkDb us' (videos (pool w) ++ [video]) ts' js') = true)
      by (intros x Hx; now apply video_exists_app, Hw).
    destruct Hj as [->| ->]; [now apply Hold|].
    apply in_app_or in Hin. destruct Hin as [Hin|[<-|[]]]; [now apply Hold|].
    cbn [initial_job Job.video_id]. rewrite <- Hid.
    apply video_exists_last.
  - (* update video *)
    destruct cred as [u|]; [|exact Hw]. rewrite update_video_run.
    destruct (is_uuid id); [|exact Hw].
    destruct (videoUpdate patch) as [updates|]; [|exact Hw].
    destruct (uuid_in id) as [k|]; [|exact Hw].
    destruct (find_video k w); [|exact Hw].
    destruct (negb _); [exact Hw|].
    destruct (Nat.eqb _ 0); [exact Hw|].
    destruct (p_tags updates); [exact Hw|].
    intros j Hin. cbn [snd pool processing_jobs] in *.
    rewrite (video_exists_same_ids _ (pool w)); [now apply Hw|].
    apply map_id_updated. intros v. apply fold_assign_video_id.
  - (* delete *)
    destruct cred as [u|]; [|exact Hw]. rewrite delete_video_run.
    destruct (is_uuid id); [|exact Hw].
    destruct (uuid_in id) as [k|]; [|exact Hw].
    destruct (find_video k w); [|exact Hw].
    destruct (negb _); [exact Hw|].
    intros j Hin. cbn [snd pool processing_jobs] in *.
    apply filter_In in Hin. destruct Hin as [Hin Hne].
    rewrite video_exists_other by exact Hne. now apply Hw.
Qed.

(** X15: through any sequence of calls, if every job row started with a
    video row behind it, every job row still has one: no call leaves a job
    whose video is gone. *)
Theorem jobs_keep_their_videos :
  forall is_uuid uuid_in ILIKE collate_leb tie extname calls w,
    jobs_reference_videos w ->
    jobs_reference_videos
      (serve_all is_uuid uuid_in ILIKE collate_leb tie extname calls w).
Proof.
  intros is_uuid uuid_in ILIKE collate_leb tie extname calls.
  induction calls as [|c calls IH]; intros w Hw; cbn [serve_all].
  - exact Hw.
  - now apply IH, jobs_reference_videos_step.
Qed.

Lemma scenario_jobs_reference_videos : jobs_reference_videos world.
Proof. intros j [<-|[<-|[<-|[]]]]; reflexivity. Qed.

(** X15 on the example: an upload, a job created on the uploaded video, and
    the deletion of another video with three jobs. *)
Lemma jobs_keep_their_videos_witness :
  jobs_reference_videos world
  /\ jobs_reference_videos
       (serve_all is_uuid uuid_in ILIKE collate_leb tie extname
          [POST_videos (Some bob)
             (Some (mkFilePart "Clip.MP4" "video/mp4" 2048))
             (mkRawVideoUpload (Some "Clip") None (Some ["demo"]) None)
             "0003" fresh_video_id fresh_id clock true;
           POST_jobs (Some bob)
             (mkRawJobBody (Some fresh_video_id) (Some "thumbnail") None None)
             "10b00000-0000-4000-8000-000000000005" clock true;
           DELETE_videos (Some alice) holiday_id]
          world).
Proof.
  split; [exact scenario_jobs_reference_videos|].
  apply (jobs_keep_their_videos is_uuid uuid_in ILIKE collate_leb tie extname).
  exact scenario_jobs_reference_videos.
Defined.

Lemma propagated_in_range now s j vs :
  (forall v, In v vs -> video_in_range v) ->
  forall v, In v (propagated now s j vs) -> video_in_range v.
Proof.
  intros Hvs v. unfold propagated.
  destruct (_ && _); [|destruct (s === "failed")]; intros Hin;
    try (now apply Hvs);
    apply In_updated in Hin; destruct Hin as (x & Hx & [->| ->]);
    try (now apply Hvs);
    (split; [reflexivity|apply (Hvs x Hx)]).
Qed.

Lemma videos_in_range_step is_uuid uuid_in ILIKE collate_leb tie extname c w :
  videos_in_range w ->
  videos_in_range
    (snd (respond (serve is_uuid uuid_in ILIKE collate_leb tie extname c) w)).
Proof.
  intros Hw. destruct c; cbn [serve].
  - (* create *)
    destruct cred as [u|]; [|exact Hw]. rewrite create_job_run.
    destruct (processingJob is_uuid raw) as [body|]; [|exact Hw].
    destruct (uuid_in (in_video_id body)) as [vid|]; [|exact Hw].
    destruct (find_video _ w); [|exact Hw].
    destruct (negb _); [exact Hw|].
    destruct (_ === "failed"); [exact Hw|].
    destruct (job_exists _ _); [exact Hw|].
    destruct redis; exact Hw.
  - (* status *)
    destruct cred as [u|]; [|exact Hw]. rewrite update_status_run.
    destruct (is_uuid id); [|exact Hw].
    destruct (requested_status body) as [s|]; [|exact Hw].
    destruct (uuid_in id) as [k|]; [|exact Hw].
    destruct (find_job k w); [|exact Hw].
    destruct (progress_readable body); [|exact Hw].
    intros v Hin. cbn [snd pool videos] in Hin.
    now apply propagated_in_range in Hin.
  - (* cancel *)
    destruct cred as [u|]; [|exact Hw]. rewrite cancel_job_run.
    destruct (is_uuid id); [|exact Hw].
    destruct (uuid_in id) as [k|]; [|exact Hw].
    destruct (find_job k w) as [j0|]; [|exact Hw].
    destruct (negb _); [exact Hw|].
    destruct (includes _ (Job.status j0)); exact Hw.
  - now rewrite list_videos_reads_only.
  - now rewrite list_user_videos_refused.
  - (* upload *)
    pose proof (upload_video_effect extname cred part raw fileName videoId
                  jobId clk redis w) as H. cbv zeta in H.
    destruct H as [->|(video & _ & Hs & Hp & _ & _ & Hv & _)];
      [exact Hw|].
    intros v Hin. rewrite Hv in Hin.
    apply in_app_or in Hin. destruct Hin as [Hin|[<-|[]]]; [now apply Hw|].
    split; [now rewrite Hs|exact Hp].
  - (* update video *)
    destruct cred as [u|]; [|exact Hw]. rewrite update_video_run.
    destruct (is_uuid id); [|exact Hw].
    destruct (videoUpdate patch) as [updates|] eqn:Hupdates; [|exact Hw].
    destruct (uuid_in id) as [k|]; [|exact Hw].
    destruct (find_video k w); [|exact Hw].
    destruct (negb _); [exact Hw|].
    destruct (Nat.eqb _ 0); [exact Hw|].
    destruct (p_tags updates); [exact Hw|].
    intros v Hin. cbn [snd pool videos] in Hin.
    apply In_updated in Hin. destruct Hin as (x & Hx & [->| ->]);
      [now apply Hw|].
    destruct (videoUpdate_valid _ _ Hupdates) as [Hp Hs].
    destruct (Hw x Hx) as [Hxs Hxp].
    split; [rewrite patched_row_status|rewrite patched_row_privacy].
    + destruct (p_status updates); assumption.
    + destruct (p_privacy updates); assumption.
  - (* delete *)
    destruct cred as [u|]; [|exact Hw]. rewrite delete_video_run.
    destruct (is_uuid id); [|exact Hw].
    destruct (uuid_in id) as [k|]; [|exact Hw].
    destruct (find_video k w); [|exact Hw].
    destruct (negb _); [exact Hw|].
    intros v Hin. cbn [snd pool videos] in Hin.
    apply filter_In in Hin. now apply Hw.
Qed.

(** X16: through any sequence of calls, if every video row started with a
    status among [pending], [processing], [completed], [failed] and a
    privacy among [public], [private], [unlisted], every video row still has
    them. *)
Theorem videos_stay_in_range :
  forall is_uuid uuid_in ILIKE collate_leb tie extname calls w,
    videos_in_range w ->
    videos_in_range
      (serve_all is_uuid uuid_in ILIKE collate_leb tie extname calls w).
Proof.
  intros is_uuid uuid_in ILIKE collate_leb tie extname calls.
  induction calls as [|c calls IH]; intros w Hw; cbn [serve_all].
  - exact Hw.
  - now apply IH, videos_in_range_step.
Qed.

Lemma scenario_videos_in_range : videos_in_range world.
Proof. intros v [<-|[<-|[]]]; split; reflexivity. Qed.

(** X16 on the example: a failed thumbnail job, a patch of the status by an
    admin, and an upload. *)
Lemma videos_stay_in_range_witness :
  videos_in_range world
  /\ videos_in_range
       (serve_all is_uuid uuid_in ILIKE collate_leb tie extname
          [PUT_jobs_status (Some bob) thumb_id
             (mkStatusBody (Some "failed") None (Some (Some "no frame")) None)
             clock;
           PUT_videos (Some root) trailer_id
             (mkVideoPatch None None None (Some "unlisted")
                           (Some "processing")) clock;
           POST_videos (Some bob)
             (Some (mkFilePart "Clip.MP4" "video/mp4" 2048))
             (mkRawVideoUpload (Some "Clip") None (Some ["demo"]) None)
             "0003" fresh_video_id fresh_id clock true]
          world).
Proof.
  split; [exact scenario_videos_in_range|].
  apply (videos_stay_in_range is_uuid uuid_in ILIKE collate_leb tie extname).
  exact scenario_videos_in_range.
Defined.


(** ** More on uploads *)

(** X17: an upload whose file part carries the registered media type of a
    QuickTime, AVI or Matroska file is refused with 400 [INVALID_FILE_TYPE],
    whatever the file name: the pattern [mp4|avi|mov|wmv|flv|webm|mkv] is
    tested against the media type as well as against the extension. *)
Theorem upload_refuses_registered_media_types :
  forall extname u file raw fileName videoId jobId clk redis w,
    In (mimetype file)
       ["video/quicktime"; "video/x-msvideo"; "video/x-matroska"] ->
    respond (upload_video extname (Some u) (Some file) raw fileName videoId
                          jobId clk redis) w
    = (Error 400 "INVALID_FILE_TYPE", w).
Proof.
  intros extname u [name mime sz] raw fileName videoId jobId clk redis w
         Hmime.
  rewrite upload_video_run.
  replace (fileFilter extname (mkFilePart name mime sz)) with false;
    [reflexivity|].
  unfold fileFilter. cbn [mimetype originalname] in *.
  destruct Hmime as [<-|[<-|[<-|[]]]]; reflexivity.
Qed.

Lemma upload_refuses_registered_media_types_witness :
  In (mimetype (mkFilePart "holiday.mov" "video/quicktime" 2048))
     ["video/quicktime"; "video/x-msvideo"; "video/x-matroska"]
  /\ respond (upload_video extname (Some alice)
                (Some (mkFilePart "holiday.mov" "video/quicktime" 2048))
                (mkRawVideoUpload (Some "Holiday") None None None)
                "0003" fresh_video_id fresh_id clock true) world
     = (Error 400 "INVALID_FILE_TYPE", world).
Proof.
  split; [left; reflexivity|].
  apply (upload_refuses_registered_media_types extname alice).
  left; reflexivity.
Defined.

Lemma find_video_after_insert vid v db ts js q :
  video_exists (Video.id v) db = false ->
  find_video vid (mkWorld (mkDb (users db) (videos db ++ [v]) ts js) q)
  = if Video.id v === vid then Some v else find_video vid (mkWorld db q).
Proof.
  intros Hfresh. unfold find_video. cbn [pool videos].
  rewrite filter_app. cbn [filter].
  destruct (Video.id v === vid) eqn:E.
  - apply String.eqb_eq in E. subst vid.
    replace (filter (fun v0 => Video.id v0 === Video.id v) (videos db))
      with (@nil Video.row); [reflexivity|].
    symmetry. unfold video_exists in Hfresh.
    induction (videos db) as [|x l IH]; [reflexivity|].
    cbn [existsb filter] in *. apply orb_false_elim in Hfresh.
    destruct Hfresh as [Hx Hl]. rewrite Hx. now apply IH.
  - now rewrite app_nil_r.
Qed.

(** X18: an upload that is answered 201 came with a credential and a file
    part of at most 500 MB whose media type and lower-cased extension both
    match the pattern; the video can then be looked up, and its row records
    the owner, the validated title, description and privacy, the stored
    path [uploads/videos/<name><ext>], the size and the original file name;
    one tag row per tag is added. *)
Theorem accepted_upload_is_recorded :
  forall extname cred part raw fileName videoId jobId clk redis w r w',
    respond (upload_video extname cred part raw fileName videoId jobId clk
                          redis) w
    = (r, w') ->
    is_success r = true ->
    exists u file body,
      cred = Some u /\ part = Some file /\ videoUpload raw = Some body
      /\ size file <= 500 * 1024 * 1024
      /\ regex_test allowedTypes (mimetype file) = true
      /\ regex_test allowedTypes
           (toLowerCase (extname (originalname file))) = true
      /\ find_video videoId w'
         = Some (Video.mk videoId (au_id u) (up_title body)
                   (up_description body)
                   ("uploads/videos/" ++ fileName
                      ++ extname (originalname file))
                   (size file) (originalname file) (up_privacy body)
                   "pending" (NOW clk) (NOW clk))
      /\ video_tags (pool w')
         = video_tags (pool w)
           ++ map (fun tag => (videoId, tag))
                match up_tags body with
                | Some tags => tags
                | None => []
                end.
Proof.
  intros extname cred part raw fileName videoId jobId clk redis w r w'
         Hrun Hok.
  destruct cred as [u|]; [|inversion Hrun; subst; discriminate].
  rewrite upload_video_run in Hrun.
  destruct part as [file|].
  2:{ destruct (videoUpload raw); inversion Hrun; subst; discriminate. }
  destruct (fileFilter extname file) eqn:Hfilter;
    [|inversion Hrun; subst; discriminate].
  cbn [negb] in Hrun.
  destruct (500 * 1024 * 1024 <? size file) eqn:Hsize;
    [inversion Hrun; subst; discriminate|].
  destruct (videoUpload raw) as [body|];
    [|inversion Hrun; subst; discriminate].
  cbv zeta in Hrun.
  destruct (video_exists videoId (pool w)) eqn:Hfresh;
    [inversion Hrun; subst; discriminate|].
  destruct (negb (user_exists (au_id u) (pool w)));
    [inversion Hrun; subst; discriminate|].
  cbn [orb] in Hrun.
  destruct (job_exists jobId (pool w));
    [inversion Hrun; subst; discriminate|].
  destruct redis; [|inversion Hrun; subst; discriminate].
  injection Hrun as <- <-.
  exists u, file, body.
  unfold fileFilter in Hfilter. apply andb_prop in Hfilter.
  destruct Hfilter as [Hmime Hext].
  repeat (split; [first [reflexivity | assumption | lia]|]).
  split.
  - rewrite (find_video_after_insert videoId _ (pool w)) by exact Hfresh.
    cbn [Video.id]. now rewrite String.eqb_refl.
  - reflexivity.
Qed.

Lemma accepted_upload_is_recorded_witness :
  exists r w',
    respond (upload_video extname (Some bob)
               (Some (mkFilePart "Clip.MP4" "video/mp4" 2048))
               (mkRawVideoUpload (Some "Clip") None (Some ["demo"; "cats"])
                                 None)
               "0003" fresh_video_id fresh_id clock true)
            world = (r, w')
    /\ is_success r = true
    /\ find_video fresh_video_id w'
       = Some (Video.mk fresh_video_id (au_id bob) "Clip" None
                        "uploads/videos/0003.MP4" 2048 "Clip.MP4" "public"
                        "pending" 50 50)
    /\ video_tags (pool w')
       = video_tags (pool world)
         ++ [(fresh_video_id, "demo"); (fresh_video_id, "cats")].
Proof.
  do 2 eexists.
  destruct (accepted_upload_is_recorded extname (Some bob)
              (Some (mkFilePart "Clip.MP4" "video/mp4" 2048))
              (mkRawVideoUpload (Some "Clip") None (Some ["demo"; "cats"])
                                None)
              "0003" fresh_video_id fresh_id clock true world _ _
              eq_refl eq_refl)
    as (u & file & body & Hu & Hfile & Hbody & _ & _ & _ & Hvideo & Htags).
  split; [reflexivity|]. split; [reflexivity|].
  injection Hu as <-. injection Hfile as <-. injection Hbody as <-.
  split; [exact Hvideo|exact Htags].
Defined.


(** ** More on the listings *)

(** X19: a listing request that carries a [search] term is never answered
    with videos: every valid query with one gets 500 [GET_VIDEOS_ERROR],
    for every caller and whatever the tables hold. *)
Theorem list_videos_search_always_fails :
  forall ILIKE collate_leb tie cred raw q s w,
    listQuery raw = Some q ->
    q_search q = Some s ->
    respond (list_videos ILIKE collate_leb tie cred raw) w
    = (Error 500 "GET_VIDEOS_ERROR", w).
Proof.
  intros ILIKE collate_leb tie cred raw q s w Hq Hs.
  pose proof (list_videos_search_refused ILIKE collate_leb tie cred raw q s w
                Hq Hs) as Hr.
  pose proof (list_videos_reads_only ILIKE collate_leb tie cred raw w) as Hw.
  destruct (respond _ w) as [r w']. cbn [fst snd] in *. now subst.
Qed.

Lemma list_videos_search_always_fails_witness :
  respond (list_videos ILIKE collate_leb tie (Some alice)
             (mkRawListQuery None None None None None (Some "cat")))
          world
  = (Error 500 "GET_VIDEOS_ERROR", world).
Proof.
  apply (list_videos_search_always_fails ILIKE collate_leb tie (Some alice) _
           (mkListQuery 1 20 "created_at" "desc" None (Some "cat")) "cat");
    reflexivity.
Defined.

Lemma ceil_div_bounds a b :
  0 < b -> (ceil_div a b - 1) * b < a <= ceil_div a b * b.
Proof.
  intros Hb. unfold ceil_div.
  pose proof (Z.div_mod (- a) b ltac:(lia)) as Hdiv.
  pose proof (Z.mod_pos_bound (- a) b Hb) as Hmod.
  nia.
Qed.

Lemma filter_listed ILIKE cred status rest w :
  filter (WHERE ILIKE
            (match cred with
             | None => [privacy_is_public]
             | Some _ => [privacy_is_public_or_user_id 1]
             end
             ++ match status, cred with
                | None, _ => []
                | Some _, None => [status_is 1]
                | Some _, Some _ => [status_is 2]
                end)
            (match cred with
             | None => []
             | Some u => [PText (au_id u)]
             end
             ++ match status with
                | None => []
                | Some s => [PText s]
                end
             ++ rest))
         (videos (pool w))
  = listed cred status w.
Proof.
  unfold listed. apply filter_ext. intros v.
  destruct cred as [u|], status as [s|];
    cbn [app WHERE forallb holds param_text nth_error Nat.sub];
    now rewrite ?andb_true_r.
Qed.

Lemma insert_sorted_permutation {A} (leb : A -> A -> bool) x l :
  Permutation (insert_sorted leb x l) (x :: l).
Proof.
  induction l as [|y l IH]; simpl; [reflexivity|].
  destruct (leb x y); [reflexivity|].
  rewrite IH. apply perm_swap.
Qed.

(** [ORDER BY] rearranges the rows it is given. *)
Lemma order_by_permutation {A} (leb tie : A -> A -> bool) l :
  Permutation (order_by leb tie l) l.
Proof.
  unfold order_by. induction l as [|x l IH]; simpl; [reflexivity|].
  rewrite insert_sorted_permutation. now constructor.
Qed.

(** X20: without a [search] term every valid listing query is answered 200
    and writes nothing.  [total_count] is the number of videos that are
    public or the caller's own and have the requested status, if one was
    given; [total_pages] is the least number of pages of [per_page] rows
    that holds them; the rows are those at positions [(page - 1) * limit]
    onwards, at most [limit] of them, of an arrangement of these videos,
    which is in the requested order of the sort column wherever that order
    is total and transitive.  Which of two rows with equal keys comes first
    is not determined. *)
Theorem list_videos_pagination :
  forall ILIKE collate_leb tie cred raw q w,
    listQuery raw = Some q ->
    q_search q = None ->
    exists rows pagination ordered,
      respond (list_videos ILIKE collate_leb tie cred raw) w
      = (Json 200 (VideosBody rows pagination), w)
      /\ total_count pagination
         = Z.of_nat (List.length (listed cred (q_status q) w))
      /\ current_page pagination = q_page q
      /\ per_page pagination = q_limit q
      /\ (total_pages pagination - 1) * per_page pagination
         < total_count pagination
         <= total_pages pagination * per_page pagination
      /\ has_next pagination = (q_page q <? total_pages pagination)
      /\ has_prev pagination = (1 <? q_page q)
      /\ Permutation ordered
           (LEFT_JOIN_users (pool w) (listed cred (q_status q) w))
      /\ ((forall a b, column_leb collate_leb (q_sort q) a b = true
                       \/ column_leb collate_leb (q_sort q) b a = true) ->
          (forall a b c, column_leb collate_leb (q_sort q) a b = true ->
                         column_leb collate_leb (q_sort q) b c = true ->
                         column_leb collate_leb (q_sort q) a c = true) ->
          StronglySorted
            (fun a b =>
               if q_order q === "asc"
               then column_leb collate_leb (q_sort q) (l_video a) (l_video b)
                    = true
               else column_leb collate_leb (q_sort q) (l_video b) (l_video a)
                    = true)
            ordered)
      /\ rows
         = firstn (Z.to_nat (q_limit q))
             (skipn (Z.to_nat ((q_page q - 1) * q_limit q)) ordered).
Proof.
  intros ILIKE collate_leb tie cred raw q w Hq Hs.
  destruct (listQuery_bounds _ _ Hq) as [Hpage Hlimit].
  exists (firstn (Z.to_nat (q_limit q))
            (skipn (Z.to_nat ((q_page q - 1) * q_limit q))
               (ORDER_BY collate_leb tie (q_sort q) (q_order q)
                  (LEFT_JOIN_users (pool w) (listed cred (q_status q) w))))).
  exists (mkPagination (q_page q)
            (ceil_div (Z.of_nat (List.length (listed cred (q_status q) w)))
                      (q_limit q))
            (Z.of_nat (List.length (listed cred (q_status q) w)))
            (q_limit q)
            (q_page q
             <? ceil_div (Z.of_nat (List.length (listed cred (q_status q) w)))
                         (q_limit q))
            (1 <? q_page q)).
  exists (ORDER_BY collate_leb tie (q_sort q) (q_order q)
            (LEFT_JOIN_users (pool w) (listed cred (q_status q) w))).
  cbn [total_count current_page per_page total_pages has_next has_prev].
  split.
  { unfold list_videos.
    cbv [respond bind ret send try_catch validate optionalAuth].
    rewrite Hq. destruct q as [page limit sort order status search].
    cbn [q_page q_limit q_sort q_order q_status q_search] in *. subst search.
    pose proof (filter_listed ILIKE cred status [] w) as Hcounted.
    pose proof (filter_listed ILIKE cred status
                  [PInt limit; PInt ((page - 1) * limit)] w) as Hlisted.
    destruct cred as [u|], status as [status|];
      cbv [add_privacy_filter add_status_filter add_search_filter query
           SELECT_COUNT_videos SELECT_videos_page];
      cbn [app flat_map placeholders binds List.length seq forallb existsb
           Nat.eqb Nat.add andb orb param_int nth_error Nat.sub pool
           video_processing_queue snd] in *;
      rewrite Hcounted, Hlisted, world_eta; reflexivity. }
  repeat (split; [reflexivity|]).
  split; [apply ceil_div_bounds; lia|].
  repeat (split; [reflexivity|]).
  split; [apply order_by_permutation|].
  split; [|reflexivity].
  intros Htotal Htrans. unfold ORDER_BY.
  destruct (q_order q === "asc").
  - apply (order_by_sorted
             (fun a b => column_leb collate_leb (q_sort q) (l_video a)
                                    (l_video b))).
    + intros a b. apply Htotal.
    + intros a b c. apply Htrans.
  - apply (order_by_sorted
             (fun a b => column_leb collate_leb (q_sort q) (l_video b)
                                    (l_video a))).
    + intros a b. apply or_comm, Htotal.
    + intros a b c H1 H2. exact (Htrans _ _ _ H2 H1).
Qed.

(** X20 on the example: Alice asks for the second page of one row, oldest
    first; two videos are hers, so there are two pages, and the row is the
    younger video. *)
Lemma list_videos_pagination_witness :
  exists rows pagination,
    respond (list_videos ILIKE collate_leb tie (Some alice)
               (mkRawListQuery (Some 2) (Some 1) None (Some "asc") None None))
            world
    = (Json 200 (VideosBody rows pagination), world)
    /\ total_count pagination = 2
    /\ total_pages pagination = 2
    /\ map l_video rows = [trailer].
Proof.
  destruct (list_videos_pagination ILIKE collate_leb tie (Some alice)
              (mkRawListQuery (Some 2) (Some 1) None (Some "asc") None None)
              (mkListQuery 2 1 "created_at" "asc" None None) world
              eq_refl eq_refl)
    as (rows & pagination & ordered & Hrun & Hcount & _ & Hper & Hpages & _
        & _ & Hperm & Hsorted & Hrows).
  exists rows, pagination. split; [exact Hrun|].
  cbn [q_page q_limit q_sort q_order q_status] in *.
  assert (Hc : total_count pagination = 2) by exact Hcount.
  split; [exact Hc|].
  split; [rewrite Hc, Hper in Hpages; lia|].
  assert (Hkeys : StronglySorted
            (fun a b => (Video.created_at (l_video a)
                         <=? Video.created_at (l_video b)) = true) ordered).
  { apply Hsorted.
    - intros a b. change (column_leb collate_leb "created_at" a b)
        with (Video.created_at a <=? Video.created_at b).
      change (column_leb collate_leb "created_at" b a)
        with (Video.created_at b <=? Video.created_at a).
      destruct (Z.le_ge_cases (Video.created_at a) (Video.created_at b));
        [left|right]; now apply Z.leb_le.
    - intros a b c.
      change (column_leb collate_leb "created_at" a b)
        with (Video.created_at a <=? Video.created_at b).
      change (column_leb collate_leb "created_at" b c)
        with (Video.created_at b <=? Video.created_at c).
      change (column_leb collate_leb "created_at" a c)
        with (Video.created_at a <=? Video.created_at c).
      intros H1 H2. apply Z.leb_le in H1, H2. apply Z.leb_le. lia. }
  apply Permutation_sym, Permutation_length_2_inv in Hperm.
  destruct Hperm as [-> | ->].
  - rewrite Hrows. reflexivity.
  - apply StronglySorted_inv in Hkeys. destruct Hkeys as [_ Hkeys].
    apply Forall_inv in Hkeys. discriminate Hkeys.
Defined.

(** X21: [GET /api/videos/user/:userId] answers 400 [VALIDATION_ERROR] to
    every request: its path names the segment [userId] and its parameter
    schema requires [id], so the route function is never reached. *)
Theorem user_videos_route_always_refused :
  forall is_uuid ILIKE collate_leb tie cred userId raw w,
    respond (list_user_videos is_uuid ILIKE collate_leb tie cred userId raw) w
    = (Error 400 "VALIDATION_ERROR", w).
Proof.
  intros. apply list_user_videos_refused.
Qed.

(** ** More on video updates and deletion *)

Lemma patched_row_columns updates now v :
  let v' := patched_row updates now v in
  Video.id v' = Video.id v
  /\ Video.user_id v' = Video.user_id v
  /\ Video.file_path v' = Video.file_path v
  /\ Video.file_size v' = Video.file_size v
  /\ Video.original_filename v' = Video.original_filename v
  /\ Video.created_at v' = Video.created_at v
  /\ Video.title v' = or_default (p_title updates) (Video.title v)
  /\ Video.description v'
     = match p_description updates with
       | Some d => Some d
       | None => Video.description v
       end
  /\ Video.updated_at v' = now.
Proof.
  unfold patched_row, patch_fields, entry.
  destruct v, updates as [[t|] [d|] [g|] [p|] [s|]]; repeat split.
Qed.

(** X22: for a caller who may update an existing video, a valid patch that
    names no field is refused with 400 [NO_UPDATE_FIELDS], and a valid patch
    that carries [tags] is answered 500 [UPDATE_ERROR], the [videos] table
    having no such column; neither writes anything. *)
Theorem update_video_patch_edges :
  forall is_uuid uuid_in u id k patch clk w video,
    is_uuid id = true ->
    uuid_in id = Some k ->
    videoUpdate patch = Some patch ->
    find_video k w = Some video ->
    owns u (Some (Video.user_id video)) || is_admin u = true ->
    (patch = mkVideoPatch None None None None None ->
     respond (update_video is_uuid uuid_in (Some u) id patch clk) w
     = (Error 400 "NO_UPDATE_FIELDS", w))
    /\ (forall tags, p_tags patch = Some tags ->
        respond (update_video is_uuid uuid_in (Some u) id patch clk) w
        = (Error 500 "UPDATE_ERROR", w)).
Proof.
  intros is_uuid uuid_in u id k patch clk w video Hid Hk Hvalid Hv Hauth.
  rewrite update_video_run, Hid, Hvalid, Hk, Hv, Hauth. cbn [negb].
  rewrite no_update_fields. split.
  - now intros ->.
  - intros tags ->.
    destruct (p_title patch), (p_description patch); reflexivity.
Qed.

Lemma update_video_patch_edges_witness :
  respond (update_video is_uuid uuid_in (Some alice) holiday_id
             (mkVideoPatch None None None None None) clock) world
  = (Error 400 "NO_UPDATE_FIELDS", world)
  /\ respond (update_video is_uuid uuid_in (Some alice) holiday_id
                (mkVideoPatch (Some "Summer") None (Some ["sea"]) None None)
                clock) world
     = (Error 500 "UPDATE_ERROR", world).
Proof.
  split.
  - destruct (update_video_patch_edges is_uuid uuid_in alice holiday_id
                holiday_id
                (mkVideoPatch None None None None None) clock world holiday
                eq_refl eq_refl eq_refl eq_refl eq_refl) as [Hempty _].
    apply Hempty. reflexivity.
  - destruct (update_video_patch_edges is_uuid uuid_in alice holiday_id
                holiday_id
                (mkVideoPatch (Some "Summer") None (Some ["sea"]) None None)
                clock world holiday eq_refl eq_refl eq_refl eq_refl eq_refl)
      as [_ Htags].
    apply (Htags ["sea"]). reflexivity.
Defined.

(** X23: a successful [PUT /api/videos/:id] rewrites one row and nothing
    else.  In that row the id, the owner, the file path, size and name and
    [created_at] stay; title and description are the patch's where it names
    them; [updated_at] is the time of the call.  Every other video, the
    users, tags and jobs tables and the queue are as they were. *)
Theorem update_video_changes_one_row :
  forall is_uuid uuid_in cred id patch clk w r w',
    respond (update_video is_uuid uuid_in cred id patch clk) w = (r, w') ->
    is_success r = true ->
    exists k video video',
      uuid_in id = Some k
      /\ find_video k w = Some video
      /\ find_video k w' = Some video'
      /\ Video.id video' = Video.id video
      /\ Video.user_id video' = Video.user_id video
      /\ Video.file_path video' = Video.file_path video
      /\ Video.file_size video' = Video.file_size video
      /\ Video.original_filename video' = Video.original_filename video
      /\ Video.created_at video' = Video.created_at video
      /\ Video.title video' = or_default (p_title patch) (Video.title video)
      /\ Video.description video'
         = match p_description patch with
           | Some d => Some d
           | None => Video.description video
           end
      /\ Video.updated_at video' = Date_now clk
      /\ (forall vid, vid <> k -> find_video vid w' = find_video vid w)
      /\ users (pool w') = users (pool w)
      /\ video_tags (pool w') = video_tags (pool w)
      /\ processing_jobs (pool w') = processing_jobs (pool w)
      /\ video_processing_queue w' = video_processing_queue w.
Proof.
  intros is_uuid uuid_in cred id patch clk w r w' Hrun Hok.
  destruct cred as [u|]; [|inversion Hrun; subst; discriminate].
  rewrite update_video_run in Hrun.
  destruct (is_uuid id); [|inversion Hrun; subst; discriminate].
  destruct (videoUpdate patch) as [updates|] eqn:Hschema;
    [|inversion Hrun; subst; discriminate].
  apply videoUpdate_accepts in Hschema. subst updates.
  destruct (uuid_in id) as [k|];
    [|inversion Hrun; subst; discriminate].
  destruct (find_video k w) as [video|] eqn:Hv;
    [|inversion Hrun; subst; discriminate].
  destruct (negb _); [inversion Hrun; subst; discriminate|].
  destruct (Nat.eqb _ 0); [inversion Hrun; subst; discriminate|].
  destruct (p_tags patch); [inversion Hrun; subst; discriminate|].
  injection Hrun as <- <-.
  exists k, video, (patched_row patch (Date_now clk) video).
  split; [reflexivity|]. split; [exact Hv|].
  split.
  { unfold find_video in *. cbn [pool videos].
    rewrite (filter_update_key Video.id (patched_row patch (Date_now clk)) k)
      by (intros; apply fold_assign_video_id).
    rewrite hd_error_map. now rewrite Hv. }
  pose proof (patched_row_columns patch (Date_now clk) video) as Hcols.
  cbv zeta in Hcols.
  destruct Hcols as (H1 & H2 & H3 & H4 & H5 & H6 & H7 & H8 & H9).
  repeat (split; [assumption|]).
  split; [|repeat split].
  intros vid Hne. unfold find_video. cbn [pool videos]. f_equal.
  apply (filter_update_other Video.id).
  - intros; apply fold_assign_video_id.
  - apply String.eqb_neq. congruence.
Qed.

Lemma update_video_changes_one_row_witness :
  exists r w' video',
    respond (update_video is_uuid uuid_in (Some alice)
               "F11E0000-0000-4000-8000-00000000000A"
               (mkVideoPatch (Some "Summer") None None (Some "unlisted") None)
               clock) world = (r, w')
    /\ is_success r = true
    /\ find_video holiday_id w' = Some video'
    /\ Video.title video' = "Summer"
    /\ Video.file_path video' = Video.file_path holiday
    /\ find_video trailer_id w' = Some trailer.
Proof.
  destruct (update_video_changes_one_row is_uuid uuid_in (Some alice)
              "F11E0000-0000-4000-8000-00000000000A"
              (mkVideoPatch (Some "Summer") None None (Some "unlisted") None)
              clock world _ _ eq_refl eq_refl)
    as (k & video & video' & Hk & Hv & Hv' & _ & _ & Hpath & _ & _ & _
        & Htitle & _ & _ & Hothers & _).
  injection Hk as <-.
  do 2 eexists. exists video'.
  split; [reflexivity|]. split; [reflexivity|].
  injection Hv as <-.
  split; [exact Hv'|]. split; [exact Htitle|]. split; [exact Hpath|].
  rewrite Hothers by discriminate. reflexivity.
Defined.

(** X24: a call that is answered with an error has written nothing to the
    tables or the queue, with two exceptions, neither of which publishes
    anything: an upload answered 500 [UPLOAD_ERROR], whose inserts are not
    wrapped in a transaction, and a job creation answered 500
    [CREATE_JOB_ERROR] after Redis has rejected the push, which leaves the
    job row it had inserted. *)
Theorem refused_calls_write_nothing :
  forall is_uuid uuid_in ILIKE collate_leb tie extname c w r w',
    respond (serve is_uuid uuid_in ILIKE collate_leb tie extname c) w
    = (r, w') ->
    is_success r = false ->
    w' = w
    \/ (r = Error 500 "UPLOAD_ERROR"
        /\ video_processing_queue w' = video_processing_queue w
        /\ exists cred part raw fileName videoId jobId clk redis,
             c = POST_videos cred part raw fileName videoId jobId clk redis)
    \/ (r = Error 500 "CREATE_JOB_ERROR"
        /\ video_processing_queue w' = video_processing_queue w
        /\ users (pool w') = users (pool w)
        /\ videos (pool w') = videos (pool w)
        /\ video_tags (pool w') = video_tags (pool w)
        /\ exists cred raw jobId clk,
             c = POST_jobs cred raw jobId clk false).
Proof.
  intros is_uuid uuid_in ILIKE collate_leb tie extname c w r w' Hrun Hfail.
  destruct c; cbn [serve] in Hrun.
  - destruct cred as [u|]; [|inversion Hrun; now left].
    rewrite create_job_run in Hrun.
    destruct (processingJob is_uuid raw) as [body|];
      [|inversion Hrun; now left].
    destruct (uuid_in (in_video_id body)) as [vid|];
      [|inversion Hrun; now left].
    destruct (find_video _ w); [|inversion Hrun; now left].
    destruct (negb _); [inversion Hrun; now left|].
    destruct (_ === "failed"); [inversion Hrun; now left|].
    destruct (job_exists _ _); [inversion Hrun; now left|].
    destruct redis; inversion Hrun; subst; [discriminate|].
    right; right. repeat (split; [reflexivity|]). now repeat eexists.
  - destruct cred as [u|]; [|inversion Hrun; now left].
    rewrite update_status_run in Hrun.
    destruct (is_uuid id); [|inversion Hrun; now left].
    destruct (requested_status body); [|inversion Hrun; now left].
    destruct (uuid_in id) as [k|]; [|inversion Hrun; now left].
    destruct (find_job k w); [|inversion Hrun; now left].
    destruct (progress_readable body); inversion Hrun; subst;
      [discriminate|now left].
  - destruct cred as [u|]; [|inversion Hrun; now left].
    rewrite cancel_job_run in Hrun.
    destruct (is_uuid id); [|inversion Hrun; now left].
    destruct (uuid_in id) as [k|]; [|inversion Hrun; now left].
    destruct (find_job k w) as [j|]; [|inversion Hrun; now left].
    destruct (negb _); [inversion Hrun; now left|].
    destruct (includes _ (Job.status j)); inversion Hrun; subst;
      [now left|discriminate].
  - left.
    rewrite <- (list_videos_reads_only ILIKE collate_leb tie cred raw w).
    now rewrite Hrun.
  - rewrite list_user_videos_refused in Hrun. inversion Hrun. now left.
  - destruct cred as [u|]; [|inversion Hrun; now left].
    rewrite upload_video_run in Hrun.
    destruct part as [file|].
    2:{ destruct (videoUpload raw); inversion Hrun; now left. }
    destruct (negb _); [inversion Hrun; now left|].
    destruct (_ <? _); [inversion Hrun; now left|].
    destruct (videoUpload raw); [|inversion Hrun; now left].
    cbv zeta in Hrun.
    destruct (_ || _); [inversion Hrun; now left|].
    destruct (job_exists _ _); [|destruct redis];
      inversion Hrun; subst; try discriminate;
      right; left; (split; [reflexivity|]); (split; [reflexivity|]);
      now repeat eexists.
  - destruct cred as [u|]; [|inversion Hrun; now left].
    rewrite update_video_run in Hrun.
    destruct (is_uuid id); [|inversion Hrun; now left].
    destruct (videoUpdate patch) as [updates|]; [|inversion Hrun; now left].
    destruct (uuid_in id) as [k|]; [|inversion Hrun; now left].
    destruct (find_video k w); [|inversion Hrun; now left].
    destruct (negb _); [inversion Hrun; now left|].
    destruct (Nat.eqb _ 0); [inversion Hrun; now left|].
    destruct (p_tags updates); inversion Hrun; subst; [now left|discriminate].
  - destruct cred as [u|]; [|inversion Hrun; now left].
    rewrite delete_video_run in Hrun.
    destruct (is_uuid id); [|inversion Hrun; now left].
    destruct (uuid_in id) as [k|]; [|inversion Hrun; now left].
    destruct (find_video k w); [|inversion Hrun; now left].
    destruct (negb _); inversion Hrun; subst; [now left|discriminate].
Qed.

(** X24 on the example: Bob is refused the deletion of Alice's video and
    nothing changes; Alice's job request that Redis rejects is answered 500
    and publishes nothing. *)
Lemma refused_calls_write_nothing_witness :
  respond (serve is_uuid uuid_in ILIKE collate_leb tie extname
             (DELETE_videos (Some bob) holiday_id)) world
  = (Error 403 "NOT_AUTHORIZED", world)
  /\ video_processing_queue
       (snd (respond (serve is_uuid uuid_in ILIKE collate_leb tie extname
                        (POST_jobs (Some alice)
                           (mkRawJobBody (Some trailer_id) (Some "thumbnail")
                                         None None)
                           fresh_id clock false)) world))
     = video_processing_queue world.
Proof.
  split.
  - destruct (refused_calls_write_nothing is_uuid uuid_in ILIKE collate_leb
                tie extname (DELETE_videos (Some bob) holiday_id) world
                (Error 403 "NOT_AUTHORIZED") _ eq_refl eq_refl)
      as [H|[[H _]|[H _]]].
    + now rewrite <- H at 2.
    + discriminate H.
    + discriminate H.
  - destruct (refused_calls_write_nothing is_uuid uuid_in ILIKE collate_leb
                tie extname
                (POST_jobs (Some alice)
                   (mkRawJobBody (Some trailer_id) (Some "thumbnail")
                                 None None)
                   fresh_id clock false) world
                (Error 500 "CREATE_JOB_ERROR") _ eq_refl eq_refl)
      as [H|[(_ & H & _)|(_ & H & _)]].
    + discriminate H.
    + exact H.
    + exact H.
Defined.

Lemma filter_other_key {A} (key : A -> string) (id k : string) (l : list A) :
  (k === id) = false ->
  filter (fun x => key x === k) (filter (fun x => key x !== id) l)
  = filter (fun x => key x === k) l.
Proof.
  intros Hne. induction l as [|x l IH]; [reflexivity|].
  cbn [filter]. destruct (key x === id) eqn:E; cbn [negb].
  - apply String.eqb_eq in E. rewrite E.
    rewrite String.eqb_sym, Hne. exact IH.
  - cbn [filter]. now rewrite IH.
Qed.

(** X25: a successful [DELETE /api/videos/:id] touches the deleted video
    only: every other video is found as before, the tags of other videos
    stay, a job of another video is found as before, and the users table is
    unchanged. *)
Theorem delete_video_spares_the_rest :
  forall is_uuid uuid_in cred id w r w',
    respond (delete_video is_uuid uuid_in cred id) w = (r, w') ->
    is_success r = true ->
    exists k,
      uuid_in id = Some k
      /\ (forall vid, vid <> k -> find_video vid w' = find_video vid w)
      /\ video_tags (pool w')
         = filter (fun t => fst t !== k) (video_tags (pool w))
      /\ (forall jid j, find_job jid w = Some j -> Job.video_id j <> k ->
                        find_job jid w' = Some j)
      /\ users (pool w') = users (pool w).
Proof.
  intros is_uuid uuid_in cred id w r w' Hrun Hok.
  destruct cred as [u|]; [|inversion Hrun; subst; discriminate].
  rewrite delete_video_run in Hrun.
  destruct (is_uuid id); [|inversion Hrun; subst; discriminate].
  destruct (uuid_in id) as [k|]; [|inversion Hrun; subst; discriminate].
  destruct (find_video k w); [|inversion Hrun; subst; discriminate].
  destruct (negb _); [inversion Hrun; subst; discriminate|].
  injection Hrun as <- <-.
  exists k. split; [reflexivity|].
  split; [|split; [reflexivity|split; [|reflexivity]]].
  - intros vid Hne. unfold find_video. cbn [pool videos]. f_equal.
    apply (filter_other_key Video.id). now apply String.eqb_neq.
  - intros jid j Hj Hne. unfold find_job in *. cbn [pool processing_jobs].
    induction (processing_jobs (pool w)) as [|x l IH]; [discriminate|].
    cbn [filter] in *.
    destruct (Job.id x === jid) eqn:E.
    + cbn [hd_error] in Hj. injection Hj as ->.
      apply String.eqb_neq in Hne. unfold "!==". rewrite Hne.
      cbn [negb filter]. now rewrite E.
    + destruct (Job.video_id x !== k); [cbn [filter]; rewrite E|];
        now apply IH.
Qed.

Lemma delete_video_spares_the_rest_witness :
  exists r w',
    respond (delete_video is_uuid uuid_in (Some alice)
                          "F11E0000-0000-4000-8000-00000000000B") world
    = (r, w')
    /\ is_success r = true
    /\ find_video holiday_id w' = Some holiday
    /\ find_job thumb_id w' = Some thumb.
Proof.
  do 2 eexists.
  destruct (delete_video_spares_the_rest is_uuid uuid_in (Some alice)
              "F11E0000-0000-4000-8000-00000000000B"
              world _ _ eq_refl eq_refl) as (k & Hk & Hvideos & _ & Hjobs & _).
  injection Hk as <-.
  split; [reflexivity|]. split; [reflexivity|]. split.
  - rewrite Hvideos by discriminate. reflexivity.
  - apply (Hjobs thumb_id thumb); [reflexivity|discriminate].
Defined.

(** X26: once a video has been deleted, the routes that take its id answer
    404 [VIDEO_NOT_FOUND] and write nothing: deleting it again, patching it,
    and creating a job for it under any spelling of its id, for every
    authenticated caller. *)
Theorem deleted_video_is_gone :
  forall is_uuid uuid_in cred id w r w',
    respond (delete_video is_uuid uuid_in cred id) w = (r, w') ->
    is_success r = true ->
    forall u,
      respond (delete_video is_uuid uuid_in (Some u) id) w'
      = (Error 404 "VIDEO_NOT_FOUND", w')
      /\ (forall patch clk,
            videoUpdate patch = Some patch ->
            respond (update_video is_uuid uuid_in (Some u) id patch clk) w'
            = (Error 404 "VIDEO_NOT_FOUND", w'))
      /\ (forall raw body jobId clk redis,
            processingJob is_uuid raw = Some body ->
            uuid_in (in_video_id body) = uuid_in id ->
            respond (create_job is_uuid uuid_in (Some u) raw jobId clk redis)
                    w'
            = (Error 404 "VIDEO_NOT_FOUND", w')).
Proof.
  intros is_uuid uuid_in cred id w r w' Hrun Hok u.
  destruct cred as [u0|]; [|inversion Hrun; subst; discriminate].
  rewrite delete_video_run in Hrun.
  destruct (is_uuid id) eqn:Hid; [|inversion Hrun; subst; discriminate].
  destruct (uuid_in id) as [k|] eqn:Hk;
    [|inversion Hrun; subst; discriminate].
  destruct (find_video k w); [|inversion Hrun; subst; discriminate].
  destruct (negb _); [inversion Hrun; subst; discriminate|].
  injection Hrun as <- <-.
  pose proof (find_video_after_delete k (pool w) (video_processing_queue w))
    as Hgone.
  split; [|split].
  - now rewrite delete_video_run, Hid, Hk, Hgone.
  - intros patch clk Hpatch.
    now rewrite update_video_run, Hid, Hpatch, Hk, Hgone.
  - intros raw body jobId clk redis Hbody Hvid.
    rewrite create_job_run, Hbody, Hvid. now rewrite Hgone.
Qed.

Lemma deleted_video_is_gone_witness :
  exists r w',
    respond (delete_video is_uuid uuid_in (Some alice) holiday_id) world
    = (r, w')
    /\ is_success r = true
    /\ respond (delete_video is_uuid uuid_in (Some root) holiday_id) w'
       = (Error 404 "VIDEO_NOT_FOUND", w')
    /\ respond (create_job is_uuid uuid_in (Some alice)
                  (mkRawJobBody (Some "F11E0000-0000-4000-8000-00000000000A")
                                (Some "encoding") None None)
                  fresh_id clock true) w'
       = (Error 404 "VIDEO_NOT_FOUND", w').
Proof.
  do 2 eexists.
  pose proof (deleted_video_is_gone is_uuid uuid_in (Some alice) holiday_id
                world _ _ eq_refl eq_refl) as H.
  split; [reflexivity|]. split; [reflexivity|]. split.
  - apply (H root).
  - destruct (H alice) as (_ & _ & Hcreate).
    apply (Hcreate _ (mkJobBodyIn "F11E0000-0000-4000-8000-00000000000A"
                                  "encoding" 5 None));
      reflexivity.
Defined.



